(** * Safe transaction service: the [history] models

    A shallow embedding of [safe_transaction_service/history/models.py]
    (Django models, managers and query sets) together with the properties
    of the indexing core: current Safe status selection, decoding
    eligibility, the pending work queue, scan cursors, trace neighbours,
    transaction upgrade on receipt arrival, batch hash resolution and the
    ERC-20 / ERC-721 event helpers; and of the code around it: the block
    store, rows built from traces, incoming ether, multisig transactions
    and the write paths of statuses, events and decoded operations.

    Conventions of the embedding.
    - A table is the list of its rows, in storage order.
    - A nullable column is an [option]; SQL [NULL] is [None].
    - A non-null foreign key that the code follows ([internal_tx],
      [ethereum_tx]) is the referenced row itself, as the ORM object graph
      has it; a nullable foreign key to a block is the block number.
    - Python integers are [Z], [str] is [string], [bytes] is [list Byte.byte].
    - Transaction hashes are strings in the form [HexBytes(h).hex()] gives,
      on which that conversion is the identity.
    - Code that raises returns [Raise e]; code that writes to the database
      threads the database explicitly.  Logging is left out.
    - [str.upper] and [str.lower] are parameters of the code that calls
      them. *)

From Stdlib Require Import ZArith List String Ascii Bool Lia.
From Stdlib Require Import Permutation Sorted DecimalString DecimalZ DecimalPos.
Import ListNotations.

Local Open Scope string_scope.
Local Open Scope Z_scope.

(* ================================================================== *)
(** * Python runtime: exceptions and results *)

Inductive exn : Type :=
| TransactionNotFoundException
| TransactionWithoutBlockException
| ValueError
| TypeError
| IndexError
| AssertionError
| DoesNotExist
| MultipleObjectsReturned
| IntegrityError
| DatabaseError
| FieldError.

Inductive result (A : Type) : Type :=
| Ok (a : A)
| Raise (e : exn).
Arguments Ok {A} a.
Arguments Raise {A} e.

Definition exn_eqb (a b : exn) : bool :=
  match a, b with
  | TransactionNotFoundException, TransactionNotFoundException
  | TransactionWithoutBlockException, TransactionWithoutBlockException
  | ValueError, ValueError
  | TypeError, TypeError
  | IndexError, IndexError
  | AssertionError, AssertionError
  | DoesNotExist, DoesNotExist
  | MultipleObjectsReturned, MultipleObjectsReturned
  | IntegrityError, IntegrityError
  | DatabaseError, DatabaseError
  | FieldError, FieldError => true
  | _, _ => false
  end.

(** Computations that read and write a store [S] and may raise.  When an
    exception is raised the store is the one reached at that point: the
    ORM runs in autocommit mode, every write is durable when it returns. *)
Definition M (S A : Type) : Type := S -> result A * S.

Definition ret {S A} (a : A) : M S A := fun s => (Ok a, s).
Definition raise {S A} (e : exn) : M S A := fun s => (Raise e, s).
Definition bind {S A B} (m : M S A) (f : A -> M S B) : M S B :=
  fun s => match m s with
           | (Ok a, s') => f a s'
           | (Raise e, s') => (Raise e, s')
           end.
Definition lift {S A} (r : result A) : M S A := fun s => (r, s).

(** [try: m except e: h] *)
Definition try_except {S A} (m : M S A) (e : exn) (h : M S A) : M S A :=
  fun s => match m s with
           | (Raise e', s') => if exn_eqb e' e then h s' else (Raise e', s')
           | r => r
           end.

Declare Scope py_scope.
Delimit Scope py_scope with py.
Notation "x <- m ;; k" := (bind m (fun x => k))
  (at level 61, m at next level, right associativity) : py_scope.
Notation "' p <- m ;; k" := (bind m (fun p => k))
  (at level 61, p pattern, m at next level, right associativity) : py_scope.
Local Open Scope py_scope.

(** [for x in xs: acc = body acc x] *)
Fixpoint for_fold {S A B} (body : B -> A -> M S B) (xs : list A) (acc : B) : M S B :=
  match xs with
  | [] => ret acc
  | x :: xs' => (acc' <- body acc x ;; for_fold body xs' acc')
  end.

(** [[f(x) for x in xs]] where [f] may raise: the first failure ends the
    evaluation.  Also the evaluation of a row expression over the selected
    rows of a query. *)
Fixpoint try_map {A B} (f : A -> result B) (xs : list A) : result (list B) :=
  match xs with
  | [] => Ok []
  | x :: xs' =>
      match f x with
      | Raise e => Raise e
      | Ok b => match try_map f xs' with
                | Raise e => Raise e
                | Ok bs => Ok (b :: bs)
                end
      end
  end.

(** [x or y] on values that are [None] or a truthy object. *)
Definition or_else {A} (x y : option A) : option A :=
  match x with Some _ => x | None => y end.

(** [zip] of three lists. *)
Fixpoint zip3 {A B C} (xs : list A) (ys : list B) (zs : list C) : list (A * B * C) :=
  match xs, ys, zs with
  | x :: xs', y :: ys', z :: zs' => (x, y, z) :: zip3 xs' ys' zs'
  | _, _, _ => []
  end.

(** [OrderedDict]: keys in insertion order; assigning an existing key keeps
    its position. *)
Fixpoint dict_set {V} (d : list (string * V)) (k : string) (v : V) : list (string * V) :=
  match d with
  | [] => [(k, v)]
  | (k', v') :: d' => if (k' =? k)%string then (k', v) :: d'
                      else (k', v') :: dict_set d' k v
  end.

Definition dict_fromkeys {V} (keys : list string) (v : V) : list (string * V) :=
  fold_left (fun d k => dict_set d k v) keys [].

Definition dict_values {V} (d : list (string * V)) : list V := map snd d.

Definition mem_string (x : string) (l : list string) : bool :=
  existsb (fun y => (y =? x)%string) l.

(** [list.index(x)] *)
Fixpoint list_index (x : string) (l : list string) : result Z :=
  match l with
  | [] => Raise ValueError
  | y :: l' => if (y =? x)%string then Ok 0
               else match list_index x l' with
                    | Ok i => Ok (i + 1)
                    | Raise e => Raise e
                    end
  end.

(** [str(int)] *)
Definition str (z : Z) : string := NilEmpty.string_of_int (Z.to_int z).

(* ================================================================== *)
(** * Query evaluation *)

(** [ORDER BY]: a stable sort of the rows by a comparison [leb]
    ("comes no later than"). *)
Fixpoint insert_sorted {R} (leb : R -> R -> bool) (x : R) (l : list R) : list R :=
  match l with
  | [] => [x]
  | y :: l' => if leb x y then x :: l else y :: insert_sorted leb x l'
  end.

Definition order_by {R} (leb : R -> R -> bool) (rows : list R) : list R :=
  fold_right (insert_sorted leb) [] rows.

(** PostgreSQL [DISTINCT ON (cols)]: of every run of consecutive rows that
    agree on the columns, the first row is kept. *)
Fixpoint distinct_run {R} (same : R -> R -> bool) (prev : R) (l : list R) : list R :=
  match l with
  | [] => []
  | x :: l' => if same prev x then distinct_run same x l'
               else x :: distinct_run same x l'
  end.

Definition distinct_on {R} (same : R -> R -> bool) (rows : list R) : list R :=
  match rows with
  | [] => []
  | x :: l => x :: distinct_run same x l
  end.

(** [QuerySet.first()] *)
Definition first {R} (rows : list R) : option R := hd_error rows.

(** [queryset[k]] on an evaluated query set: negative indexing is not
    supported by Django and is rejected before the result cache is
    consulted; past the end the cached list raises [IndexError]. *)
Definition qs_getitem {R} (rows : list R) (k : Z) : result R :=
  if k <? 0 then Raise AssertionError
  else match nth_error rows (Z.to_nat k) with
       | Some r => Ok r
       | None => Raise IndexError
       end.

(** Column comparisons.  PostgreSQL sorts [NULL] as larger than every
    value: last in ascending, first in descending order. *)
Definition compare_nulls_last (a b : option Z) : comparison :=
  match a, b with
  | Some x, Some y => Z.compare x y
  | Some _, None => Lt
  | None, Some _ => Gt
  | None, None => Eq
  end.

(** Text columns compare by character code. *)
Definition compare_text (a b : string) : comparison := String.compare a b.

Definition lex (c1 c2 : comparison) : comparison :=
  match c1 with Eq => c2 | _ => c1 end.

Definition not_gt (c : comparison) : bool :=
  match c with Gt => false | _ => true end.

(* ================================================================== *)
(** * Data model *)

Definition bytes : Type := list Byte.byte.

(** JSON values stored in [JSONField] columns. *)
Inductive json : Type :=
| JNum (z : Z)
| JStr (s : string).

Definition json_dict : Type := list (string * json).

(** [d.get(k)] / [k in d] / SQL [d -> k], [d ? k] *)
Fixpoint dict_get (k : string) (d : json_dict) : option json :=
  match d with
  | [] => None
  | (k', v) :: d' => if (k' =? k)%string then Some v else dict_get k d'
  end.

Definition has_key (k : string) (d : json_dict) : bool :=
  match dict_get k d with Some _ => true | None => false end.

(** A receipt log, [Dict[str, Any]]. *)
Definition receipt_log : Type := list (string * string).

Module EthereumTxCallType.
Inductive t : Type := CALL | DELEGATE_CALL.

Definition value (c : t) : Z :=
  match c with CALL => 0 | DELEGATE_CALL => 1 end.

(** [EthereumTxCallType(n)]: the enum constructor raises on a number that
    is not the value of a member. *)
Definition of_value (n : Z) : result t :=
  if n =? 0 then Ok CALL
  else if n =? 1 then Ok DELEGATE_CALL
  else Raise ValueError.

Definition eqb (a b : t) : bool :=
  match a, b with
  | CALL, CALL | DELEGATE_CALL, DELEGATE_CALL => true
  | _, _ => false
  end.

Section Parse.
(** [str.lower] *)
Variable lower : string -> string.

Definition parse_call_type (call_type : option string) : option t :=
  match call_type with
  | None | Some EmptyString => None
  | Some call_type =>
      if (lower call_type =? "call")%string then Some CALL
      else if (lower call_type =? "delegatecall")%string then Some DELEGATE_CALL
      else None
  end.
End Parse.
End EthereumTxCallType.

Module EthereumTxType.
Inductive t : Type := CALL | CREATE | SELF_DESTRUCT.

Definition value (c : t) : Z :=
  match c with CALL => 0 | CREATE => 1 | SELF_DESTRUCT => 2 end.

(** [EthereumTxType(n)] *)
Definition of_value (n : Z) : result t :=
  if n =? 0 then Ok CALL
  else if n =? 1 then Ok CREATE
  else if n =? 2 then Ok SELF_DESTRUCT
  else Raise ValueError.

Definition eqb (a b : t) : bool :=
  match a, b with
  | CALL, CALL | CREATE, CREATE | SELF_DESTRUCT, SELF_DESTRUCT => true
  | _, _ => false
  end.

Section Parse.
(** [str.upper] *)
Variable upper : string -> string.

Definition parse (tx_type : string) : result t :=
  let tx_type := upper tx_type in
  if (tx_type =? "CALL")%string then Ok CALL
  else if (tx_type =? "CREATE")%string then Ok CREATE
  else if (tx_type =? "SUICIDE")%string then Ok SELF_DESTRUCT
  else Raise ValueError.
End Parse.
End EthereumTxType.

Module EthereumBlock.
Record t : Type := mk {
  number : Z;                 (* primary key *)
  gas_limit : Z;
  gas_used : Z;
  timestamp : Z;
  block_hash : string;        (* unique *)
  parent_hash : string;       (* unique *)
  confirmed : bool
}.
End EthereumBlock.

Module EthereumTx.
Record t : Type := mk {
  block : option Z;                       (* block_id, null until mined *)
  tx_hash : string;                       (* primary key *)
  gas_used : option Z;
  status : option Z;
  logs : option (list receipt_log);
  transaction_index : option Z;
  _from : option string;
  gas : Z;
  gas_price : Z;
  data : option bytes;
  nonce : Z;
  to : option string;
  value : Z
}.

(** [success] property: [None] when the status is unknown. *)
Definition success (self : t) : option bool :=
  match status self with
  | Some s => Some (s =? 1)
  | None => None
  end.

Definition set_block (v : option Z) (self : t) : t :=
  mk v (tx_hash self) (gas_used self) (status self) (logs self)
     (transaction_index self) (_from self) (gas self) (gas_price self) (data self)
     (nonce self) (to self) (value self).

Definition set_gas_used (v : option Z) (self : t) : t :=
  mk (block self) (tx_hash self) v (status self) (logs self)
     (transaction_index self) (_from self) (gas self) (gas_price self) (data self)
     (nonce self) (to self) (value self).

Definition set_logs (v : option (list receipt_log)) (self : t) : t :=
  mk (block self) (tx_hash self) (gas_used self) (status self) v
     (transaction_index self) (_from self) (gas self) (gas_price self) (data self)
     (nonce self) (to self) (value self).

Definition set_status (v : option Z) (self : t) : t :=
  mk (block self) (tx_hash self) (gas_used self) v (logs self)
     (transaction_index self) (_from self) (gas self) (gas_price self) (data self)
     (nonce self) (to self) (value self).

Definition set_transaction_index (v : option Z) (self : t) : t :=
  mk (block self) (tx_hash self) (gas_used self) (status self) (logs self)
     v (_from self) (gas self) (gas_price self) (data self)
     (nonce self) (to self) (value self).

Inductive field : Type :=
| f_block | f_tx_hash | f_gas_used | f_status | f_logs
| f_transaction_index | f_from | f_gas | f_gas_price | f_data
| f_nonce | f_to | f_value.

(** The row [dst] with column [f] taken from [src]. *)
Definition copy_field (src : t) (f : field) (dst : t) : t :=
  let pick (g : field) {A} (proj : t -> A) : A :=
    match f, g with
    | f_block, f_block | f_tx_hash, f_tx_hash | f_gas_used, f_gas_used
    | f_status, f_status | f_logs, f_logs
    | f_transaction_index, f_transaction_index | f_from, f_from
    | f_gas, f_gas | f_gas_price, f_gas_price | f_data, f_data
    | f_nonce, f_nonce | f_to, f_to | f_value, f_value => proj src
    | _, _ => proj dst
    end in
  mk (pick f_block block) (pick f_tx_hash tx_hash) (pick f_gas_used gas_used)
     (pick f_status status) (pick f_logs logs)
     (pick f_transaction_index transaction_index) (pick f_from _from)
     (pick f_gas gas) (pick f_gas_price gas_price) (pick f_data data)
     (pick f_nonce nonce) (pick f_to to) (pick f_value value).
End EthereumTx.

Module InternalTx.
Record t : Type := mk {
  id : Z;                                 (* primary key *)
  ethereum_tx : EthereumTx.t;
  _from : option string;
  gas : Z;
  data : option bytes;
  to : option string;
  value : Z;
  gas_used : Z;
  contract_address : option string;
  code : option bytes;
  output : option bytes;
  refund_address : option string;
  tx_type : Z;
  call_type : option Z;
  trace_address : string;
  error : option string
}.
End InternalTx.

Module InternalTxDecoded.
Record t : Type := mk {
  internal_tx : InternalTx.t;             (* primary key, one to one *)
  function_name : string;
  arguments : json_dict;
  processed : bool
}.
End InternalTxDecoded.

Module MonitoredAddress.
Record t : Type := mk {
  address : string;                       (* primary key *)
  initial_block_number : Z;
  tx_block_number : option Z
}.
End MonitoredAddress.

Module SafeContract.
Record t : Type := mk {
  address : string;                       (* primary key *)
  ethereum_tx : EthereumTx.t;
  erc20_block_number : Z
}.
End SafeContract.

Module SafeStatus.
Record t : Type := mk {
  internal_tx : InternalTx.t;             (* primary key, one to one *)
  address : string;
  owners : list string;
  threshold : Z;
  nonce : Z;
  master_copy : string
}.
End SafeStatus.

Module EthereumEvent.
Record t : Type := mk {
  id : option Z;                          (* [None] until stored *)
  ethereum_tx_id : string;
  log_index : Z;
  address : string;
  topic : string;
  topics : list string;
  arguments : json_dict
}.
End EthereumEvent.

(** ** What the node returns *)

Module Node.
Record Block : Type := mkBlock {
  number : Z;
  gasLimit : Z;
  gasUsed : Z;
  timestamp : Z;
  hash : string;
  parentHash : string
}.

Record Tx : Type := mkTx {
  tx_hash : string;                       (* ['hash'] *)
  tx_from : option string;                (* ['from'] *)
  gas : Z;
  gasPrice : Z;
  tx_data : option bytes;                 (* .get('data') *)
  input : option bytes;                   (* .get('input') *)
  nonce : Z;
  to : option string;                     (* .get('to') *)
  value : Z;
  tx_blockNumber : option Z               (* .get('blockNumber') *)
}.

Record Receipt : Type := mkReceipt {
  blockNumber : option Z;                 (* .get('blockNumber') *)
  receipt_gasUsed : Z;                    (* ['gasUsed'] *)
  logs : list receipt_log;
  status : option Z;                      (* .get('status') *)
  transactionIndex : Z
}.

(** A decoded event log. *)
Record Event : Type := mkEvent {
  transactionHash : string;
  logIndex : Z;
  address : string;
  topics : list string;
  args : json_dict
}.
End Node.

(** The node client obtained from [EthereumClientProvider()].  Batch calls
    answer with one entry per request, [None] where a request failed. *)
Record EthereumClient : Type := mkClient {
  current_block_number : Z;
  get_block : option Z -> option Node.Block;
  get_blocks : list Z -> list (option Node.Block);
  get_transaction : string -> option Node.Tx;
  get_transactions : list string -> list (option Node.Tx);
  get_transaction_receipt : string -> option Node.Receipt;
  get_transaction_receipts : list string -> list (option Node.Receipt)
}.

(** The tables written by the block and transaction managers. *)
Record Database : Type := mkDatabase {
  ethereum_blocks : list EthereumBlock.t;
  ethereum_txs : list EthereumTx.t
}.

(* ================================================================== *)
(** * Block store *)

Module EthereumBlockManager.
Section WithClient.
Variable ethereum_client : EthereumClient.

(** [self.get(number=n)]; [number=None] is [number IS NULL]. *)
Definition get (number : option Z) : M Database EthereumBlock.t :=
  fun db =>
    let found := filter (fun b => match number with
                                  | Some n => EthereumBlock.number b =? n
                                  | None => false
                                  end) (ethereum_blocks db) in
    match found with
    | [] => (Raise DoesNotExist, db)
    | [b] => (Ok b, db)
    | _ => (Raise MultipleObjectsReturned, db)
    end.

(** [super().create(...)]: an [INSERT], refused when the primary key or a
    unique column is already taken. *)
Definition create (b : EthereumBlock.t) : M Database EthereumBlock.t :=
  fun db =>
    if existsb (fun b' => (EthereumBlock.number b' =? EthereumBlock.number b)
                          || (EthereumBlock.block_hash b' =? EthereumBlock.block_hash b)%string
                          || (EthereumBlock.parent_hash b' =? EthereumBlock.parent_hash b)%string)
               (ethereum_blocks db)
    then (Raise IntegrityError, db)
    else (Ok b, mkDatabase (ethereum_blocks db ++ [b]) (ethereum_txs db)).

Definition create_from_block (block : option Node.Block)
    (current_block_number : option Z) : M Database EthereumBlock.t :=
  match block with
  | None => raise TypeError                (* block['number'] on None *)
  | Some block =>
      let confirmed :=
        match current_block_number with
        | Some current => current - Node.number block >=? 6
        | None => false
        end in
      create (EthereumBlock.mk (Node.number block) (Node.gasLimit block)
                (Node.gasUsed block) (Node.timestamp block) (Node.hash block)
                (Node.parentHash block) confirmed)
  end.

Definition get_or_create_from_block_number (block_number : option Z)
    : M Database EthereumBlock.t :=
  try_except (get block_number) DoesNotExist
    (let current_block_number := current_block_number ethereum_client in
     let block := get_block ethereum_client block_number in
     create_from_block block (Some current_block_number)).

Definition get_or_create_from_block (block : option Node.Block)
    (current_block_number : option Z) : M Database EthereumBlock.t :=
  try_except
    (match block with
     | None => raise TypeError
     | Some b => get (Some (Node.number b))
     end)
    DoesNotExist
    (create_from_block block current_block_number).

End WithClient.
End EthereumBlockManager.

(* ================================================================== *)
(** * Transaction store *)

Module EthereumTxManager.
Section WithClient.
Variable ethereum_client : EthereumClient.
(** [clean_receipt_log] of [history/utils.py]. *)
Variable clean_receipt_log : receipt_log -> receipt_log.

(** [self.get(tx_hash=h)] *)
Definition get (tx_hash : string) : M Database EthereumTx.t :=
  fun db =>
    match filter (fun t => (EthereumTx.tx_hash t =? tx_hash)%string) (ethereum_txs db) with
    | [] => (Raise DoesNotExist, db)
    | [t] => (Ok t, db)
    | _ => (Raise MultipleObjectsReturned, db)
    end.

(** [super().create(...)] *)
Definition create (t : EthereumTx.t) : M Database EthereumTx.t :=
  fun db =>
    if existsb (fun t' => (EthereumTx.tx_hash t' =? EthereumTx.tx_hash t)%string)
               (ethereum_txs db)
    then (Raise IntegrityError, db)
    else (Ok t, mkDatabase (ethereum_blocks db) (ethereum_txs db ++ [t])).

(** [instance.save(update_fields=fields)]: an [UPDATE] of the listed
    columns of the row with the instance's primary key. *)
Definition save (update_fields : list EthereumTx.field) (self : EthereumTx.t)
    : M Database unit :=
  fun db =>
    let is_self t := (EthereumTx.tx_hash t =? EthereumTx.tx_hash self)%string in
    if existsb is_self (ethereum_txs db)
    then (Ok tt,
          mkDatabase (ethereum_blocks db)
            (map (fun t => if is_self t
                           then fold_right (EthereumTx.copy_field self) t update_fields
                           else t)
                 (ethereum_txs db)))
    else (Raise DatabaseError, db).

(** The five assignments of [__update_with_receipt_and_block]. *)
Definition assign_receipt_and_block (ethereum_tx : EthereumTx.t)
    (ethereum_block : EthereumBlock.t) (tx_receipt : Node.Receipt) : EthereumTx.t :=
  let ethereum_tx :=
    EthereumTx.set_block (Some (EthereumBlock.number ethereum_block)) ethereum_tx in
  let ethereum_tx :=
    EthereumTx.set_gas_used (Some (Node.receipt_gasUsed tx_receipt)) ethereum_tx in
  let ethereum_tx :=
    EthereumTx.set_logs (Some (map clean_receipt_log (Node.logs tx_receipt))) ethereum_tx in
  let ethereum_tx := EthereumTx.set_status (Node.status tx_receipt) ethereum_tx in
  EthereumTx.set_transaction_index (Some (Node.transactionIndex tx_receipt)) ethereum_tx.

Definition __update_with_receipt_and_block (ethereum_tx : EthereumTx.t)
    (ethereum_block : EthereumBlock.t) (tx_receipt : Node.Receipt)
    : M Database EthereumTx.t :=
  match EthereumTx.block ethereum_tx with
  | None =>
      let ethereum_tx := assign_receipt_and_block ethereum_tx ethereum_block tx_receipt in
      (_ <- save [EthereumTx.f_block; EthereumTx.f_gas_used; EthereumTx.f_logs;
                  EthereumTx.f_status; EthereumTx.f_transaction_index] ethereum_tx ;;
       ret ethereum_tx)
  | Some _ => ret ethereum_tx
  end.

(** [HexBytes(tx.get('data') or tx.get('input'))] *)
Definition tx_payload (tx : Node.Tx) : result bytes :=
  match Node.tx_data tx with
  | Some (b :: d) => Ok (b :: d)
  | _ => match Node.input tx with
         | Some i => Ok i
         | None => Raise TypeError
         end
  end.

Definition create_from_tx_dict (tx : option Node.Tx) (tx_receipt : option Node.Receipt)
    (ethereum_block : option EthereumBlock.t) : M Database EthereumTx.t :=
  match tx with
  | None => raise TypeError                (* tx['hash'] on None *)
  | Some tx =>
      (data <- lift (tx_payload tx) ;;
       create (EthereumTx.mk
                 (option_map EthereumBlock.number ethereum_block)
                 (Node.tx_hash tx)
                 (option_map Node.receipt_gasUsed tx_receipt)
                 (match tx_receipt with Some r => Node.status r | None => None end)
                 (option_map (fun r => map clean_receipt_log (Node.logs r)) tx_receipt)
                 (option_map Node.transactionIndex tx_receipt)
                 (Node.tx_from tx)
                 (Node.gas tx)
                 (Node.gasPrice tx)
                 (Some data)
                 (Node.nonce tx)
                 (Node.to tx)
                 (Node.value tx)))
  end.

(** "Search first in database": the dictionary of the requested hashes,
    filled with the stored transactions that already have a block. *)
Definition search_in_database (tx_hashes : list string) (db : Database)
    : list (string * option EthereumTx.t) :=
  let ethereum_txs_dict := dict_fromkeys tx_hashes (@None EthereumTx.t) in
  let db_ethereum_txs :=
    filter (fun t => mem_string (EthereumTx.tx_hash t) tx_hashes
                     && match EthereumTx.block t with Some _ => true | None => false end)
           (ethereum_txs db) in
  fold_left (fun d t => dict_set d (EthereumTx.tx_hash t) (Some t))
            db_ethereum_txs ethereum_txs_dict.

(** [[tx_hash for tx_hash, ethereum_tx in d.items() if not ethereum_tx]] *)
Definition not_in_db (ethereum_txs_dict : list (string * option EthereumTx.t))
    : list string :=
  map fst (filter (fun kv => match snd kv with None => true | Some _ => false end)
                  ethereum_txs_dict).

(** The body of the receipt loop: retry, then the two checks. *)
Definition check_receipt (hr : string * option Node.Receipt) : result Node.Receipt :=
  let '(tx_hash, tx_receipt) := hr in
  let tx_receipt := or_else tx_receipt (get_transaction_receipt ethereum_client tx_hash) in
  match tx_receipt with
  | None => Raise TransactionNotFoundException
  | Some r =>
      match Node.blockNumber r with
      | None => Raise TransactionWithoutBlockException
      | Some _ => Ok r
      end
  end.

(** The body of the transaction loop. *)
Definition check_tx (ht : string * option Node.Tx) : result Z :=
  let '(tx_hash, tx) := ht in
  let tx := or_else tx (get_transaction ethereum_client tx_hash) in
  match tx with
  | None => Raise TransactionNotFoundException
  | Some tx =>
      match Node.tx_blockNumber tx with
      | None => Raise TransactionWithoutBlockException
      | Some block_number => Ok block_number
      end
  end.

Definition store_tx (current_block_number : Z)
    (ethereum_txs_dict : list (string * option EthereumTx.t))
    (item : option Node.Tx * Node.Receipt * option Node.Block)
    : M Database (list (string * option EthereumTx.t)) :=
  let '(tx, tx_receipt, block) := item in
  (ethereum_block <- EthereumBlockManager.get_or_create_from_block block
                       (Some current_block_number) ;;
   try_except
     (ethereum_tx <- match tx with
                     | None => raise TypeError       (* tx['hash'] on None *)
                     | Some tx => get (Node.tx_hash tx)
                     end ;;
      ethereum_tx <- __update_with_receipt_and_block ethereum_tx ethereum_block tx_receipt ;;
      ret (dict_set ethereum_txs_dict (EthereumTx.tx_hash ethereum_tx) (Some ethereum_tx)))
     DoesNotExist
     (ethereum_tx <- create_from_tx_dict tx (Some tx_receipt) (Some ethereum_block) ;;
      ret (dict_set ethereum_txs_dict (EthereumTx.tx_hash ethereum_tx) (Some ethereum_tx)))).

Definition create_or_update_from_tx_hashes (tx_hashes : list string)
    : M Database (list (option EthereumTx.t)) :=
  fun db =>
    (* Search first in database *)
    let ethereum_txs_dict := search_in_database tx_hashes db in
    (* Retrieve from the node the txs missing from database *)
    let tx_hashes_not_in_db := not_in_db ethereum_txs_dict in
    match tx_hashes_not_in_db with
    | [] => (Ok (dict_values ethereum_txs_dict), db)
    | _ =>
      (tx_receipts <- lift (try_map check_receipt
                        (combine tx_hashes_not_in_db
                           (get_transaction_receipts ethereum_client tx_hashes_not_in_db))) ;;
       let txs := get_transactions ethereum_client tx_hashes_not_in_db in
       block_numbers <- lift (try_map check_tx (combine tx_hashes_not_in_db txs)) ;;
       let blocks := get_blocks ethereum_client block_numbers in
       let current_block_number := current_block_number ethereum_client in
       ethereum_txs_dict <- for_fold (store_tx current_block_number)
                              (zip3 txs tx_receipts blocks) ethereum_txs_dict ;;
       ret (dict_values ethereum_txs_dict)) db
    end.

Definition create_or_update_from_tx_hash (tx_hash : string) : M Database EthereumTx.t :=
  try_except
    (ethereum_tx <- get tx_hash ;;
     match EthereumTx.block ethereum_tx with
     | None =>
         let tx_receipt := get_transaction_receipt ethereum_client tx_hash in
         match tx_receipt with
         | None => raise TypeError         (* tx_receipt['blockNumber'] on None *)
         | Some tx_receipt =>
             ethereum_block <- EthereumBlockManager.get_or_create_from_block_number
                                 ethereum_client (Node.blockNumber tx_receipt) ;;
             __update_with_receipt_and_block ethereum_tx ethereum_block tx_receipt
         end
     | Some _ => ret ethereum_tx
     end)
    DoesNotExist
    (let tx_receipt := get_transaction_receipt ethereum_client tx_hash in
     match tx_receipt with
     | None => raise TypeError
     | Some tx_receipt =>
         ethereum_block <- EthereumBlockManager.get_or_create_from_block_number
                             ethereum_client (Node.blockNumber tx_receipt) ;;
         let tx := get_transaction ethereum_client tx_hash in
         create_from_tx_dict tx (Some tx_receipt) (Some ethereum_block)
     end).

End WithClient.
End EthereumTxManager.

(* ================================================================== *)
(** * Event classifier *)

(** Truth value of an [Optional[str]] argument. *)
Definition truthy_str (s : option string) : bool :=
  match s with
  | None | Some EmptyString => false
  | Some _ => true
  end.

(** [arguments__k=address]: the JSON value under [k] is that string. *)
Definition argument_is (k : string) (address : string) (d : json_dict) : bool :=
  match dict_get k d with
  | Some (JStr s) => (s =? address)%string
  | _ => false
  end.

(** [(arguments->>'value')::numeric]: the text of the value, read as a
    decimal integer; the cast fails on any other text.  The rows it is
    evaluated on have the key ([arguments__has_key='value']). *)
Definition arguments_value_field (d : json_dict) : result Z :=
  match dict_get "value" d with
  | Some (JNum z) => Ok z
  | Some (JStr s) =>
      match NilZero.int_of_string s with
      | Some i => Ok (Z.of_int i)
      | None => Raise DatabaseError
      end
  | None => Raise DatabaseError
  end.

(** [GROUP BY] a text column with [Sum] of a number. *)
Fixpoint group_add (k : string) (v : Z) (groups : list (string * Z)) : list (string * Z) :=
  match groups with
  | [] => [(k, v)]
  | (k', s) :: g => if (k' =? k)%string then (k', s + v) :: g
                    else (k', s) :: group_add k v g
  end.

Definition group_sum (rows : list (string * Z)) : list (string * Z) :=
  fold_left (fun g kv => group_add (fst kv) (snd kv) g) rows [].

Module EthereumEventQuerySet.
Section WithTopic.
(** [gnosis.eth.constants.ERC20_721_TRANSFER_TOPIC] *)
Variable ERC20_721_TRANSFER_TOPIC : string.

Definition erc20_and_721_events (token_address address : option string)
    (self : list EthereumEvent.t) : list EthereumEvent.t :=
  let queryset :=
    filter (fun e => (EthereumEvent.topic e =? ERC20_721_TRANSFER_TOPIC)%string) self in
  let queryset :=
    if truthy_str token_address
    then filter (fun e => match token_address with
                          | Some a => (EthereumEvent.address e =? a)%string
                          | None => false
                          end) queryset
    else queryset in
  let queryset :=
    if truthy_str address
    then filter (fun e => match address with
                          | Some a => argument_is "to" a (EthereumEvent.arguments e)
                                      || argument_is "from" a (EthereumEvent.arguments e)
                          | None => false
                          end) queryset
    else queryset in
  queryset.

Definition erc20_events (token_address address : option string)
    (self : list EthereumEvent.t) : list EthereumEvent.t :=
  filter (fun e => has_key "value" (EthereumEvent.arguments e))
         (erc20_and_721_events token_address address self).

Definition erc721_events (token_address address : option string)
    (self : list EthereumEvent.t) : list EthereumEvent.t :=
  filter (fun e => has_key "tokenId" (EthereumEvent.arguments e))
         (erc20_and_721_events token_address address self).

(** [self.exclude(topic=ERC20_721_TRANSFER_TOPIC)]; [topic] is not
    nullable. *)
Definition not_erc_20_721_events (self : list EthereumEvent.t) : list EthereumEvent.t :=
  filter (fun e => negb (EthereumEvent.topic e =? ERC20_721_TRANSFER_TOPIC)%string) self.

End WithTopic.
End EthereumEventQuerySet.

Module EthereumEventManager.
Section WithTopic.
Variable ERC20_721_TRANSFER_TOPIC : string.

(** [Case(When(arguments__from=address, then=-value), default=value)] *)
Definition signed_value (address : string) (e : EthereumEvent.t) : result (string * Z) :=
  match arguments_value_field (EthereumEvent.arguments e) with
  | Raise err => Raise err
  | Ok v =>
      Ok (EthereumEvent.address e,
          if argument_is "from" address (EthereumEvent.arguments e) then - v else v)
  end.

Definition erc20_tokens_with_balance (address : string) (self : list EthereumEvent.t)
    : result (list (string * Z)) :=
  match try_map (signed_value address)
          (EthereumEventQuerySet.erc20_events ERC20_721_TRANSFER_TOPIC
             None (Some address) self) with
  | Raise err => Raise err
  | Ok rows =>
      Ok (order_by (fun a b => snd b <=? snd a) (group_sum rows))
  end.

(** [values_list('address', flat=True).distinct()]: [SELECT DISTINCT
    address]; the order of the answer is left open by the query, here each
    address stands where it is met last. *)
Definition erc20_tokens_used_by_address (address : string) (self : list EthereumEvent.t)
    : list string :=
  nodup string_dec
    (map EthereumEvent.address
       (EthereumEventQuerySet.erc20_events ERC20_721_TRANSFER_TOPIC
          None (Some address) self)).

End WithTopic.

Definition from_decoded_event (decoded_event : Node.Event) : result EthereumEvent.t :=
  match Node.topics decoded_event with
  | [] => Raise IndexError                 (* decoded_event['topics'][0] *)
  | topic :: _ =>
      Ok (EthereumEvent.mk None (Node.transactionHash decoded_event)
            (Node.logIndex decoded_event) (Node.address decoded_event)
            topic (Node.topics decoded_event) (Node.args decoded_event))
  end.

(** The next value of the [id] sequence. *)
Definition next_id (table : list EthereumEvent.t) : Z :=
  1 + fold_right (fun e m => match EthereumEvent.id e with
                             | Some i => Z.max i m
                             | None => m
                             end) 0 table.

(** [self.get_or_create(ethereum_tx_id=.., log_index=.., defaults=..)] *)
Definition get_or_create (ethereum_tx_id : string) (log_index : Z)
    (address topic : string) (topics : list string) (arguments : json_dict)
    : M (list EthereumEvent.t) (EthereumEvent.t * bool) :=
  fun table =>
    match filter (fun e => (EthereumEvent.ethereum_tx_id e =? ethereum_tx_id)%string
                           && (EthereumEvent.log_index e =? log_index)) table with
    | [e] => (Ok (e, false), table)
    | [] =>
        let e := EthereumEvent.mk (Some (next_id table)) ethereum_tx_id log_index
                   address topic topics arguments in
        (Ok (e, true), (table ++ [e])%list)
    | _ => (Raise MultipleObjectsReturned, table)
    end.

Definition get_or_create_erc20_or_721_event (decoded_event : Node.Event)
    : M (list EthereumEvent.t) (EthereumEvent.t * bool) :=
  if negb (has_key "value" (Node.args decoded_event))
     || negb (has_key "tokenId" (Node.args decoded_event))
  then raise ValueError
  else
    match Node.topics decoded_event with
    | [] => raise IndexError               (* decoded_event['topics'][0] *)
    | topic :: _ =>
        get_or_create (Node.transactionHash decoded_event) (Node.logIndex decoded_event)
          (Node.address decoded_event) topic (Node.topics decoded_event)
          (Node.args decoded_event)
    end.

End EthereumEventManager.

Definition is_erc20 (ERC20_721_TRANSFER_TOPIC : string) (self : EthereumEvent.t) : bool :=
  (EthereumEvent.topic self =? ERC20_721_TRANSFER_TOPIC)%string
  && has_key "value" (EthereumEvent.arguments self).

Definition is_erc721 (ERC20_721_TRANSFER_TOPIC : string) (self : EthereumEvent.t) : bool :=
  (EthereumEvent.topic self =? ERC20_721_TRANSFER_TOPIC)%string
  && has_key "tokenId" (EthereumEvent.arguments self).

(* ================================================================== *)
(** * Internal transactions *)

(** A trace of the tracing node.  [trace['type']], [trace['action']] and
    [trace['traceAddress']] are there.  Of the keys read with [get], one
    that is absent or holds [None] is [None]; the numbers read with a
    default ([gas], [balance], [gasUsed]) are numbers when they are
    there. *)
Module Trace.
Record Action : Type := mkAction {
  callType : option string;
  _from : option string;
  gas : option Z;
  input : option bytes;
  init : option bytes;
  to : option string;
  address : option string;
  value : option Z;
  balance : option Z;
  refundAddress : option string
}.

Record Result : Type := mkResult {
  gasUsed : option Z;
  result_address : option string;
  code : option bytes;
  output : option bytes
}.

Record t : Type := mk {
  type : string;
  action : Action;
  traceAddress : list Z;
  trace_result : option Result;
  error : option string
}.
End Trace.

(** [d.get(k, default)] *)
Definition get_default {A} (x : option A) (default : A) : A :=
  match x with Some v => v | None => default end.

(** [x or y] on payloads, on text and on numbers: empty, [None] and 0 are
    false. *)
Definition or_bytes (x y : option bytes) : option bytes :=
  match x with Some (_ :: _) => x | _ => y end.

Definition or_str (x y : option string) : option string :=
  if truthy_str x then x else y.

Definition or_int (x : option Z) (y : Z) : Z :=
  match x with
  | Some v => if v =? 0 then y else v
  | None => y
  end.

Module InternalTxManager.

Definition _trace_address_to_str (trace_address : list Z) : string :=
  String.concat "," (map str trace_address).

(** The next value of the [id] sequence. *)
Definition next_id (table : list InternalTx.t) : Z :=
  1 + fold_right (fun it m => Z.max (InternalTx.id it) m) 0 table.

(** [self.get_or_create(ethereum_tx=.., trace_address=.., defaults=..)] *)
Definition get_or_create (ethereum_tx : EthereumTx.t) (trace_address : string)
    (_from : option string) (gas : Z) (data : option bytes) (to : option string)
    (value gas_used : Z) (contract_address : option string) (code output : option bytes)
    (refund_address : option string) (tx_type : Z) (call_type : option Z)
    (error : option string)
    : M (list InternalTx.t) (InternalTx.t * bool) :=
  fun table =>
    match filter (fun it => (EthereumTx.tx_hash (InternalTx.ethereum_tx it)
                             =? EthereumTx.tx_hash ethereum_tx)%string
                            && (InternalTx.trace_address it =? trace_address)%string)
                 table with
    | [it] => (Ok (it, false), table)
    | [] =>
        let it := InternalTx.mk (next_id table) ethereum_tx _from gas data to value
                    gas_used contract_address code output refund_address tx_type
                    call_type trace_address error in
        (Ok (it, true), (table ++ [it])%list)
    | _ => (Raise MultipleObjectsReturned, table)
    end.

Section Parse.
(** [str.upper] and [str.lower] *)
Variables upper lower : string -> string.

(** [trace.get('result') or {}] *)
Definition result_or_empty (trace : Trace.t) : Trace.Result :=
  match Trace.trace_result trace with
  | Some r => r
  | None => Trace.mkResult None None None None
  end.

(** The instance is not stored: it is answered as the row it becomes under
    an id. *)
Definition build_from_trace (trace : Trace.t) (ethereum_tx : EthereumTx.t)
    : result (Z -> InternalTx.t) :=
  match EthereumTxType.parse upper (Trace.type trace) with
  | Raise e => Raise e
  | Ok tx_type =>
      let call_type :=
        EthereumTxCallType.parse_call_type lower (Trace.callType (Trace.action trace)) in
      let trace_address_str := _trace_address_to_str (Trace.traceAddress trace) in
      Ok (fun id =>
            InternalTx.mk id ethereum_tx
              (Trace._from (Trace.action trace))
              (get_default (Trace.gas (Trace.action trace)) 0)
              (or_bytes (Trace.input (Trace.action trace))
                        (Trace.init (Trace.action trace)))
              (or_str (Trace.to (Trace.action trace))
                      (Trace.address (Trace.action trace)))
              (or_int (Trace.value (Trace.action trace))
                      (get_default (Trace.balance (Trace.action trace)) 0))
              (get_default (Trace.gasUsed (result_or_empty trace)) 0)
              (Trace.result_address (result_or_empty trace))
              (Trace.code (result_or_empty trace))
              (Trace.output (result_or_empty trace))
              (Trace.refundAddress (Trace.action trace))
              (EthereumTxType.value tx_type)
              (match call_type with
               | Some c => Some (EthereumTxCallType.value c)
               | None => None
               end)
              trace_address_str
              (Trace.error trace))
  end.

Definition get_or_create_from_trace (trace : Trace.t) (ethereum_tx : EthereumTx.t)
    : M (list InternalTx.t) (InternalTx.t * bool) :=
  match EthereumTxType.parse upper (Trace.type trace) with
  | Raise e => raise e
  | Ok tx_type =>
      let call_type :=
        EthereumTxCallType.parse_call_type lower (Trace.callType (Trace.action trace)) in
      let trace_address_str := _trace_address_to_str (Trace.traceAddress trace) in
      get_or_create ethereum_tx trace_address_str
        (Trace._from (Trace.action trace))
        (get_default (Trace.gas (Trace.action trace)) 0)
        (or_bytes (Trace.input (Trace.action trace)) (Trace.init (Trace.action trace)))
        (or_str (Trace.to (Trace.action trace)) (Trace.address (Trace.action trace)))
        (or_int (Trace.value (Trace.action trace))
                (get_default (Trace.balance (Trace.action trace)) 0))
        (get_default (Trace.gasUsed (result_or_empty trace)) 0)
        (Trace.result_address (result_or_empty trace))
        (Trace.code (result_or_empty trace))
        (Trace.output (result_or_empty trace))
        (Trace.refundAddress (Trace.action trace))
        (EthereumTxType.value tx_type)
        (match call_type with
         | Some c => Some (EthereumTxCallType.value c)
         | None => None
         end)
        (Trace.error trace)
  end.
End Parse.

End InternalTxManager.

(** The sort key [(block_id, transaction_index, trace_address)] of an
    internal transaction, compared column by column. *)
Definition compare_internal_tx (a b : InternalTx.t) : comparison :=
  lex (compare_nulls_last (EthereumTx.block (InternalTx.ethereum_tx a))
                          (EthereumTx.block (InternalTx.ethereum_tx b)))
      (lex (compare_nulls_last
              (EthereumTx.transaction_index (InternalTx.ethereum_tx a))
              (EthereumTx.transaction_index (InternalTx.ethereum_tx b)))
           (compare_text (InternalTx.trace_address a) (InternalTx.trace_address b))).

(** A row of [values('block_number', 'transaction_hash', 'to', '_from',
    'value', 'execution_date', 'token_address')]. *)
Module IncomingRow.
Record t : Type := mk {
  block_number : option Z;
  transaction_hash : string;
  to : option string;
  _from : option string;
  value : Z;
  execution_date : option Z;
  token_address : option string
}.
End IncomingRow.

Module InternalTxQuerySet.

(** [decoded_tx=None]: no [InternalTxDecoded] row points to the row. *)
Definition decoded_tx_is_null (decoded : list InternalTxDecoded.t) (it : InternalTx.t) : bool :=
  forallb (fun d => negb (InternalTx.id (InternalTxDecoded.internal_tx d) =? InternalTx.id it))
          decoded.

Definition can_be_decoded (decoded : list InternalTxDecoded.t) (self : list InternalTx.t)
    : list InternalTx.t :=
  filter (fun it => negb match InternalTx.data it with None => true | Some _ => false end)
    (filter (fun it =>
               match InternalTx.call_type it with
               | Some c => c =? EthereumTxCallType.value EthereumTxCallType.DELEGATE_CALL
               | None => false
               end
               && match InternalTx.error it with None => true | Some _ => false end
               && match EthereumTx.status (InternalTx.ethereum_tx it) with
                  | Some s => s =? 1
                  | None => false
                  end
               && decoded_tx_is_null decoded it)
            self).

(** [InternalTx.objects.filter(ethereum_tx=tx).order_by('trace_address')] *)
Definition of_ethereum_tx_by_trace_address (tx : EthereumTx.t) (self : list InternalTx.t)
    : list InternalTx.t :=
  order_by (fun a b => not_gt (compare_text (InternalTx.trace_address a)
                                            (InternalTx.trace_address b)))
    (filter (fun it => (EthereumTx.tx_hash (InternalTx.ethereum_tx it)
                        =? EthereumTx.tx_hash tx)%string) self).

(** [filter(to=address, call_type=CALL.value, value__gt=0)] with its
    annotations, in the order ['-ethereum_tx__block_id']: descending,
    [NULL] first.  The query set is read with [values(..)], as
    [union_incoming_txs_with_tokens] reads it, and that is what is answered
    here: no instance of [InternalTx] can be built from it, since the
    annotation [block_number] has the name of a property of the model that
    cannot be set.  [execution_date] is the timestamp of the block the
    transaction points to. *)
Definition incoming_row (blocks : list EthereumBlock.t) (it : InternalTx.t)
    : IncomingRow.t :=
  IncomingRow.mk
    (EthereumTx.block (InternalTx.ethereum_tx it))
    (EthereumTx.tx_hash (InternalTx.ethereum_tx it))
    (InternalTx.to it)
    (InternalTx._from it)
    (InternalTx.value it)
    (match EthereumTx.block (InternalTx.ethereum_tx it) with
     | Some n => option_map EthereumBlock.timestamp
                   (find (fun b => EthereumBlock.number b =? n) blocks)
     | None => None
     end)
    None.

Definition incoming_txs (blocks : list EthereumBlock.t) (address : string)
    (self : list InternalTx.t) : list IncomingRow.t :=
  map (incoming_row blocks)
    (order_by (fun a b => not_gt (compare_nulls_last
                                    (EthereumTx.block (InternalTx.ethereum_tx b))
                                    (EthereumTx.block (InternalTx.ethereum_tx a))))
       (filter (fun it =>
                  match InternalTx.to it with
                  | Some a => (a =? address)%string
                  | None => false
                  end
                  && match InternalTx.call_type it with
                     | Some c => c =? EthereumTxCallType.value EthereumTxCallType.CALL
                     | None => false
                     end
                  && (InternalTx.value it >? 0))
               self)).

End InternalTxQuerySet.

Module InternalTxMethods.

Definition is_delegate_call (self : InternalTx.t) : result bool :=
  match InternalTx.call_type self with
  | None => Ok false
  | Some c =>
      match EthereumTxCallType.of_value c with
      | Ok t => Ok (EthereumTxCallType.eqb t EthereumTxCallType.DELEGATE_CALL)
      | Raise e => Raise e
      end
  end.

(** The truth value of
    [is_delegate_call and not error and data and ethereum_tx.success]. *)
Definition can_be_decoded (self : InternalTx.t) : result bool :=
  match is_delegate_call self with
  | Raise e => Raise e
  | Ok delegate =>
      Ok (delegate
          && negb (truthy_str (InternalTx.error self))
          && match InternalTx.data self with
             | Some (_ :: _) => true
             | _ => false
             end
          && match EthereumTx.success (InternalTx.ethereum_tx self) with
             | Some true => true
             | _ => false
             end)
  end.

Definition get_next_trace (objects : list InternalTx.t) (self : InternalTx.t)
    : result (option InternalTx.t) :=
  let internal_txs :=
    InternalTxQuerySet.of_ethereum_tx_by_trace_address (InternalTx.ethereum_tx self) objects in
  let traces := map InternalTx.trace_address internal_txs in
  match list_index (InternalTx.trace_address self) traces with
  | Raise e => Raise e
  | Ok index =>
      match qs_getitem internal_txs (index + 1) with
      | Ok it => Ok (Some it)
      | Raise IndexError => Ok None
      | Raise e => Raise e
      end
  end.

Definition get_previous_trace (objects : list InternalTx.t) (self : InternalTx.t)
    : result (option InternalTx.t) :=
  let internal_txs :=
    InternalTxQuerySet.of_ethereum_tx_by_trace_address (InternalTx.ethereum_tx self) objects in
  let traces := map InternalTx.trace_address internal_txs in
  match list_index (InternalTx.trace_address self) traces with
  | Raise e => Raise e
  | Ok index =>
      match qs_getitem internal_txs (index - 1) with
      | Ok it => Ok (Some it)
      | Raise IndexError => Ok None
      | Raise e => Raise e
      end
  end.

Definition is_ether_transfer (self : InternalTx.t) : bool :=
  match InternalTx.call_type self with
  | Some c => c =? EthereumTxCallType.value EthereumTxCallType.CALL
  | None => false
  end
  && (InternalTx.value self >? 0).

Definition is_call (self : InternalTx.t) : result bool :=
  match EthereumTxType.of_value (InternalTx.tx_type self) with
  | Ok t => Ok (EthereumTxType.eqb t EthereumTxType.CALL)
  | Raise e => Raise e
  end.

End InternalTxMethods.

(* ================================================================== *)
(** * Decoding queue *)

Module InternalTxDecodedQuerySet.

Definition not_processed (self : list InternalTxDecoded.t) : list InternalTxDecoded.t :=
  filter (fun d => negb (InternalTxDecoded.processed d)) self.

(** [internal_tx___from__in=SafeContract.objects.values('address')] *)
Definition from_is_safe (safe_contracts : list SafeContract.t) (d : InternalTxDecoded.t) : bool :=
  match InternalTx._from (InternalTxDecoded.internal_tx d) with
  | Some a => mem_string a (map SafeContract.address safe_contracts)
  | None => false
  end.

Definition pending_for_safes (safe_contracts : list SafeContract.t)
    (self : list InternalTxDecoded.t) : list InternalTxDecoded.t :=
  order_by
    (fun a b => not_gt (compare_internal_tx (InternalTxDecoded.internal_tx a)
                                            (InternalTxDecoded.internal_tx b)))
    (filter (fun d => from_is_safe safe_contracts d
                      || (InternalTxDecoded.function_name d =? "setup")%string)
            (not_processed self)).

End InternalTxDecodedQuerySet.

Module InternalTxDecodedMethods.

(** [self.save(update_fields=['processed'])]: an [UPDATE] of the one
    column of the row with the instance's primary key, refused when no row
    has it. *)
Definition save_processed (self : InternalTxDecoded.t)
    : M (list InternalTxDecoded.t) unit :=
  fun table =>
    let is_self d := InternalTx.id (InternalTxDecoded.internal_tx d)
                     =? InternalTx.id (InternalTxDecoded.internal_tx self) in
    if existsb is_self table
    then (Ok tt,
          map (fun d => if is_self d
                        then InternalTxDecoded.mk (InternalTxDecoded.internal_tx d)
                               (InternalTxDecoded.function_name d)
                               (InternalTxDecoded.arguments d)
                               (InternalTxDecoded.processed self)
                        else d)
              table)
    else (Raise DatabaseError, table).

(** Returns the instance as the call leaves it. *)
Definition set_processed (self : InternalTxDecoded.t)
    : M (list InternalTxDecoded.t) InternalTxDecoded.t :=
  let self := InternalTxDecoded.mk (InternalTxDecoded.internal_tx self)
                (InternalTxDecoded.function_name self)
                (InternalTxDecoded.arguments self) true in
  (_ <- save_processed self ;;
   ret self).

End InternalTxDecodedMethods.

(* ================================================================== *)
(** * Monitored addresses and scan cursors *)

(** The models that share [MonitoredAddressManager]: an address and
    integer columns addressed by name ([database_field]). *)
Class Monitored (R : Type) : Type := {
  monitored_address : R -> string;
  integer_columns : list string;
  (** the value of an integer column, [None] for [NULL] *)
  column_get : string -> R -> option Z;
  column_set : string -> Z -> R -> R
}.

#[export] Instance MonitoredAddress_Monitored : Monitored MonitoredAddress.t := {|
  monitored_address := MonitoredAddress.address;
  integer_columns := ["initial_block_number"; "tx_block_number"];
  column_get f r :=
    if (f =? "initial_block_number")%string
    then Some (MonitoredAddress.initial_block_number r)
    else if (f =? "tx_block_number")%string
    then MonitoredAddress.tx_block_number r
    else None;
  column_set f v r :=
    if (f =? "initial_block_number")%string
    then MonitoredAddress.mk (MonitoredAddress.address r) v
           (MonitoredAddress.tx_block_number r)
    else if (f =? "tx_block_number")%string
    then MonitoredAddress.mk (MonitoredAddress.address r)
           (MonitoredAddress.initial_block_number r) (Some v)
    else r
|}.

#[export] Instance SafeContract_Monitored : Monitored SafeContract.t := {|
  monitored_address := SafeContract.address;
  integer_columns := ["erc20_block_number"];
  column_get f r :=
    if (f =? "erc20_block_number")%string
    then Some (SafeContract.erc20_block_number r)
    else None;
  column_set f v r :=
    if (f =? "erc20_block_number")%string
    then SafeContract.mk (SafeContract.address r) (SafeContract.ethereum_tx r) v
    else r
|}.

Module MonitoredAddressManager.
Section Manager.
Context {R : Type} `{Monitored R}.

(** [address__in=addresses] and [database_field__gte=bound]; a comparison
    with [NULL] selects nothing. *)
Definition selected (addresses : list string) (database_field : string) (bound : Z)
    (r : R) : bool :=
  mem_string (monitored_address r) addresses
  && match column_get database_field r with
     | Some c => c >=? bound
     | None => false
     end.

(** Returns the number of rows updated, with the table after the update.
    A name that is not an integer column of the model is refused when the
    query is built. *)
Definition update_addresses (addresses : list string) (from_block_number block_number : Z)
    (database_field : string) : M (list R) Z :=
  fun table =>
    if mem_string database_field integer_columns
    then
      let hit := selected addresses database_field (from_block_number - 1) in
      (Ok (Z.of_nat (List.length (filter hit table))),
       map (fun r => if hit r then column_set database_field block_number r else r)
           table)
    else (Raise FieldError, table).

End Manager.
End MonitoredAddressManager.

Module MonitoredAddressQuerySet.
Section QuerySet.
Context {R : Type} `{Monitored R}.

(** [database_field__lt=upper]; a comparison with [NULL] selects nothing. *)
Definition column_lt (database_field : string) (upper : Z) (r : R) : bool :=
  match column_get database_field r with
  | Some c => c <? upper
  | None => false
  end.

Definition column_gt (database_field : string) (lower : Z) (r : R) : bool :=
  match column_get database_field r with
  | Some c => c >? lower
  | None => false
  end.

Definition almost_updated (database_field : string)
    (current_block_number updated_blocks_behind confirmations : Z) (self : list R)
    : result (list R) :=
  if mem_string database_field integer_columns
  then Ok (filter (fun r =>
                     column_lt database_field (current_block_number - confirmations) r
                     && column_gt database_field
                          (current_block_number - updated_blocks_behind) r)
                  self)
  else Raise FieldError.

Definition not_updated (database_field : string)
    (current_block_number confirmations : Z) (self : list R) : result (list R) :=
  if mem_string database_field integer_columns
  then Ok (filter (column_lt database_field (current_block_number - confirmations)) self)
  else Raise FieldError.

End QuerySet.
End MonitoredAddressQuerySet.

(* ================================================================== *)
(** * Safe status *)

Module SafeStatusQuerySet.

(** The ordering ['address', '-block_id', '-transaction_index',
    '-trace_address']: ascending address, then descending key. *)
Definition compare_by_internal_tx (a b : SafeStatus.t) : comparison :=
  lex (compare_text (SafeStatus.address a) (SafeStatus.address b))
      (compare_internal_tx (SafeStatus.internal_tx b) (SafeStatus.internal_tx a)).

Definition sorted_by_internal_tx (self : list SafeStatus.t) : list SafeStatus.t :=
  order_by (fun a b => not_gt (compare_by_internal_tx a b)) self.

Definition same_address (a b : SafeStatus.t) : bool :=
  (SafeStatus.address a =? SafeStatus.address b)%string.

Definition last_for_every_address (self : list SafeStatus.t) : list SafeStatus.t :=
  distinct_on same_address (sorted_by_internal_tx self).

(** [filter(address=address)] joins the [WHERE] clause of the same
    [SELECT DISTINCT ON]: rows are selected before they are sorted. *)
Definition last_for_address (address : string) (self : list SafeStatus.t)
    : option SafeStatus.t :=
  first (last_for_every_address
           (filter (fun s => (SafeStatus.address s =? address)%string) self)).



(** [owners__contains=[owner_address]] and
    [internal_tx__in=self.last_for_every_address().values('pk')]. *)
Definition addresses_for_owner (owner_address : string) (self : list SafeStatus.t)
    : list string :=
  map SafeStatus.address
    (filter (fun s =>
               mem_string owner_address (SafeStatus.owners s)
               && existsb (fun l => InternalTx.id (SafeStatus.internal_tx l)
                                    =? InternalTx.id (SafeStatus.internal_tx s))
                    (last_for_every_address self))
            self).

End SafeStatusQuerySet.

Module SafeStatusMethods.

(** [self.save()]: an [UPDATE] of the row with the instance's primary
    key, an [INSERT] when no row has it. *)
Definition save (self : SafeStatus.t) : M (list SafeStatus.t) unit :=
  fun table =>
    let is_self s := InternalTx.id (SafeStatus.internal_tx s)
                     =? InternalTx.id (SafeStatus.internal_tx self) in
    if existsb is_self table
    then (Ok tt, map (fun s => if is_self s then self else s) table)
    else (Ok tt, (table ++ [self])%list).

(** Returns the instance as the call leaves it. *)
Definition store_new (self : SafeStatus.t) (internal_tx : InternalTx.t)
    : M (list SafeStatus.t) SafeStatus.t :=
  let self := SafeStatus.mk internal_tx (SafeStatus.address self) (SafeStatus.owners self)
                (SafeStatus.threshold self) (SafeStatus.nonce self)
                (SafeStatus.master_copy self) in
  (_ <- save self ;;
   ret self).

End SafeStatusMethods.

(* ================================================================== *)
(** * Multisig transactions *)

Module MultisigTransaction.
Record t : Type := mk {
  safe_tx_hash : string;                  (* primary key *)
  safe : string;
  ethereum_tx : option EthereumTx.t;      (* nullable, followed *)
  to : option string;
  value : Z;
  data : option bytes;
  operation : Z;
  safe_tx_gas : Z;
  base_gas : Z;
  gas_price : Z;
  gas_token : option string;
  refund_receiver : option string;
  signatures : option bytes;
  nonce : Z;
  failed : option bool
}.

(** [self.ethereum_tx_id]: the hash held in the foreign key column. *)
Definition ethereum_tx_id (self : t) : option string :=
  option_map EthereumTx.tx_hash (ethereum_tx self).

(** [bool(self.ethereum_tx_id and (self.ethereum_tx.block_id is not None))] *)
Definition executed (self : t) : bool :=
  if truthy_str (ethereum_tx_id self)
  then match ethereum_tx self with
       | Some tx => match EthereumTx.block tx with Some _ => true | None => false end
       | None => false
       end
  else false.

End MultisigTransaction.

Module MultisigTransactionQuerySet.

(** [ethereum_tx__block=None] over the outer join: no transaction, or a
    transaction without block. *)
Definition block_is_null (m : MultisigTransaction.t) : bool :=
  match MultisigTransaction.ethereum_tx m with
  | Some tx => match EthereumTx.block tx with Some _ => false | None => true end
  | None => true
  end.

Definition executed (self : list MultisigTransaction.t) : list MultisigTransaction.t :=
  filter (fun m => negb (block_is_null m)) self.

Definition not_executed (self : list MultisigTransaction.t) : list MultisigTransaction.t :=
  filter block_is_null self.




End MultisigTransactionQuerySet.

(* ================================================================== *)
(** * Vocabulary of the statements *)

(** A three-way comparison that is a total preorder. *)
Record comparison_laws {A} (cmp : A -> A -> comparison) : Prop := {
  cmp_antisym : forall a b, cmp a b = CompOpp (cmp b a);
  cmp_lt_trans : forall a b c, cmp a b = Lt -> cmp b c = Lt -> cmp a c = Lt;
  cmp_eq_cong : forall a b c, cmp a b = Eq -> cmp a c = cmp b c
}.

(** [leb] as a relation. *)
Definition holds {R} (leb : R -> R -> bool) (a b : R) : Prop := leb a b = true.

(* ================================================================== *)
(** * Sample data *)

Definition status_rows : list SafeStatus.t :=
  let tx b i := EthereumTx.mk (Some b) "0xaa" (Some 21000) (Some 1) (Some [])
                  (Some i) None 0 0 None 0 None 0 in
  let itx n b i trace := InternalTx.mk n (tx b i) None 0 None None 0 0 None None None
                           None 0 (Some 1) trace None in
  [ SafeStatus.mk (itx 1 5 0 "0") "0xSafe" ["0xA"] 1 0 "0xM";
    SafeStatus.mk (itx 2 7 3 "1,0") "0xSafe" ["0xA"; "0xB"] 2 1 "0xM";
    SafeStatus.mk (itx 3 6 1 "0") "0xSafe" ["0xA"; "0xB"] 1 1 "0xM";
    SafeStatus.mk (itx 4 9 0 "0") "0xOther" ["0xC"] 1 0 "0xM" ].


Definition sample_tx (status : Z) : EthereumTx.t :=
  EthereumTx.mk (Some 5) "0xaa" (Some 21000) (Some status) (Some []) (Some 0)
    (Some "0xSender") 100000 1 None 0 (Some "0xSafe") 0.

(** A delegate call with the given payload inside a transaction with the
    given status. *)
Definition sample_delegate_call (status : Z) (data : option bytes) : InternalTx.t :=
  InternalTx.mk 1 (sample_tx status) (Some "0xSafe") 0 data (Some "0xMaster") 0 0
    None None None None 0 (Some 1) "0" None.

Definition sample_monitored : list MonitoredAddress.t :=
  [ MonitoredAddress.mk "0xA" 0 (Some 99);
    MonitoredAddress.mk "0xB" 0 (Some 50);
    MonitoredAddress.mk "0xC" 0 None;
    MonitoredAddress.mk "0xD" 0 (Some 99) ].

(** An internal transaction of [sample_tx 1] at a trace address. *)
Definition sample_trace (id : Z) (trace_address : list Z) : InternalTx.t :=
  InternalTx.mk id (sample_tx 1) (Some "0xSafe") 0 None (Some "0xTo") 0 0
    None None None None 0 (Some 0) (InternalTxManager._trace_address_to_str trace_address)
    None.

(** Component-wise numeric order of trace-address paths, the call-tree
    traversal order the specification speaks of. *)
Fixpoint compare_trace_path (a b : list Z) : comparison :=
  match a, b with
  | [], [] => Eq
  | [], _ :: _ => Lt
  | _ :: _, [] => Gt
  | x :: a', y :: b' => lex (Z.compare x y) (compare_trace_path a' b')
  end.

Definition sample_topic : string := "0xddf252ad".

(** A transfer log of token [token]. *)
Definition sample_transfer (id : Z) (token from to : string) (value : Z) : EthereumEvent.t :=
  EthereumEvent.mk (Some id) "0xaa" id token sample_topic [sample_topic]
    [("from", JStr from); ("to", JStr to); ("value", JNum value)].

(** The balance change the specification gives an event for a holder:
    the value counted negative when the holder is the sender and positive
    when it is the recipient. *)
Definition signed_value_by_role (holder : string) (e : EthereumEvent.t) : Z :=
  match arguments_value_field (EthereumEvent.arguments e) with
  | Ok v =>
      (if argument_is "from" holder (EthereumEvent.arguments e) then - v else 0)
      + (if argument_is "to" holder (EthereumEvent.arguments e) then v else 0)
  | Raise _ => 0
  end.

(** The sum of the role-signed values of the events of one token. *)
Definition balance_by_role (holder token : string) (events : list EthereumEvent.t) : Z :=
  fold_right Z.add 0
    (map (signed_value_by_role holder)
         (filter (fun e => (EthereumEvent.address e =? token)%string) events)).

(** A transfer whose sender and recipient are both the holder. *)
Definition is_self_transfer (holder : string) (e : EthereumEvent.t) : bool :=
  argument_is "from" holder (EthereumEvent.arguments e)
  && argument_is "to" holder (EthereumEvent.arguments e).

(** [Sum] of the numbers grouped under one key. *)
Definition sum_for (k : string) (rows : list (string * Z)) : Z :=
  fold_right Z.add 0 (map snd (filter (fun kv => (fst kv =? k)%string) rows)).

(** The number stored under a key, 0 when there is none. *)
Fixpoint total_of (k : string) (groups : list (string * Z)) : Z :=
  match groups with
  | [] => 0
  | (k', s) :: g => if (k' =? k)%string then s else total_of k g
  end.

(** [unique_together = (('ethereum_tx', 'trace_address'),)] *)
Definition trace_key (it : InternalTx.t) : string * string :=
  (EthereumTx.tx_hash (InternalTx.ethereum_tx it), InternalTx.trace_address it).

Definition unique_traces (objects : list InternalTx.t) : Prop :=
  NoDup (map trace_key objects).

Definition sample_decoded_event (args : json_dict) : Node.Event :=
  Node.mkEvent "0xaa" 0 "0xToken" [sample_topic] args.

(* ================================================================== *)
(** * Vocabulary of the batch resolution statements *)

(** The receipt and the transaction obtained for a hash: the entry of the
    batch answer or, when that is [None], the answer of the single retry. *)
Definition fetched_receipt (client : EthereumClient) (hr : string * option Node.Receipt)
    : option Node.Receipt :=
  or_else (snd hr) (get_transaction_receipt client (fst hr)).

Definition fetched_tx (client : EthereumClient) (ht : string * option Node.Tx)
    : option Node.Tx :=
  or_else (snd ht) (get_transaction client (fst ht)).

Definition receipt_missing client hr : Prop := fetched_receipt client hr = None.

Definition receipt_without_block client hr : Prop :=
  exists r, fetched_receipt client hr = Some r /\ Node.blockNumber r = None.

Definition receipt_good client hr : Prop :=
  exists r n, fetched_receipt client hr = Some r /\ Node.blockNumber r = Some n.

Definition tx_missing client ht : Prop := fetched_tx client ht = None.

Definition tx_without_block client ht : Prop :=
  exists tx, fetched_tx client ht = Some tx /\ Node.tx_blockNumber tx = None.

Definition tx_good client ht : Prop :=
  exists tx n, fetched_tx client ht = Some tx /\ Node.tx_blockNumber tx = Some n.

(** The errors of the store and of the runtime, as opposed to the two
    errors of hash resolution. *)
Definition storage_exn (e : exn) : bool :=
  match e with
  | TransactionNotFoundException | TransactionWithoutBlockException => false
  | _ => true
  end.

(** A node that has no receipt for ["0x01"] and a receipt without block
    number for ["0x02"]. *)
Definition sample_pending_receipt : Node.Receipt :=
  Node.mkReceipt None 21000 [] (Some 1) 0.

Definition sample_client : EthereumClient :=
  mkClient 100
    (fun _ => None)
    (fun numbers => map (fun _ => None) numbers)
    (fun _ => None)
    (fun hashes => map (fun _ => None) hashes)
    (fun h => if (h =? "0x02")%string then Some sample_pending_receipt else None)
    (fun hashes => map (fun h => if (h =? "0x02")%string
                                 then Some sample_pending_receipt else None) hashes).

Definition empty_database : Database := mkDatabase [] [].

(* ================================================================== *)
(** * Vocabulary of the transaction upgrade statements *)

(** A stored transaction after a call: the same row, or the placeholder
    with the five receipt columns assigned. *)
Definition row_evolves (clean_receipt_log : receipt_log -> receipt_log)
    (t t' : EthereumTx.t) : Prop :=
  t' = t
  \/ (EthereumTx.block t = None
      /\ exists b r, t' = EthereumTxManager.assign_receipt_and_block clean_receipt_log t b r).

(** The transaction table after a call: the rows that were there, each in
    its place and evolved, followed by rows created under hashes that were
    not stored. *)
Definition table_evolves (clean_receipt_log : receipt_log -> receipt_log)
    (T T' : list EthereumTx.t) : Prop :=
  exists kept created,
    T' = (kept ++ created)%list
    /\ Forall2 (row_evolves clean_receipt_log) T kept
    /\ Forall (fun c => ~ In (EthereumTx.tx_hash c) (map EthereumTx.tx_hash T)) created
    /\ NoDup (map EthereumTx.tx_hash created).

(** The row [t] under [update_fields] taken from the instance [self]. *)
Definition upgrade_row (clean_receipt_log : receipt_log -> receipt_log)
    (tx_hash : string) (b : EthereumBlock.t) (r : Node.Receipt) (t : EthereumTx.t)
    : EthereumTx.t :=
  if (EthereumTx.tx_hash t =? tx_hash)%string
     && match EthereumTx.block t with None => true | Some _ => false end
  then EthereumTxManager.assign_receipt_and_block clean_receipt_log t b r
  else t.

(** A node that knows the transaction ["0xaa"], mined in block 5, and a
    database that holds it as a placeholder. *)
Definition sample_block : Node.Block := Node.mkBlock 5 8000000 21000 1600000000 "0xb5" "0xb4".

Definition sample_receipt : Node.Receipt := Node.mkReceipt (Some 5) 21000 [] (Some 1) 3.

Definition sample_node_tx : Node.Tx :=
  Node.mkTx "0xaa" (Some "0xSender") 100000 1 None (Some []) 2 (Some "0xSafe") 7 (Some 5).

Definition sample_mined_client : EthereumClient :=
  mkClient 100
    (fun n => match n with Some 5 => Some sample_block | _ => None end)
    (fun numbers => map (fun n => if n =? 5 then Some sample_block else None) numbers)
    (fun h => if (h =? "0xaa")%string then Some sample_node_tx else None)
    (fun hashes => map (fun h => if (h =? "0xaa")%string
                                 then Some sample_node_tx else None) hashes)
    (fun h => if (h =? "0xaa")%string then Some sample_receipt else None)
    (fun hashes => map (fun h => if (h =? "0xaa")%string
                                 then Some sample_receipt else None) hashes).

Definition sample_placeholder : EthereumTx.t :=
  EthereumTx.mk None "0xaa" None None None None (Some "0xSender") 100000 1 (Some [])
    2 (Some "0xSafe") 7.

Definition sample_placeholder_db : Database := mkDatabase [] [sample_placeholder].

(** A node whose batch answer lacks the transaction ["0xaa"] that the
    single request finds. *)
Definition sample_retry_client : EthereumClient :=
  mkClient 100
    (get_block sample_mined_client)
    (get_blocks sample_mined_client)
    (get_transaction sample_mined_client)
    (fun hashes => map (fun _ => None) hashes)
    (get_transaction_receipt sample_mined_client)
    (get_transaction_receipts sample_mined_client).


(* ================================================================== *)
(** * Block store: confirmation *)

Module EthereumBlockQuerySet.

Definition not_confirmed (to_block_number : option Z) (self : list EthereumBlock.t)
    : list EthereumBlock.t :=
  let queryset := filter (fun b => negb (EthereumBlock.confirmed b)) self in
  let queryset :=
    match to_block_number with
    | Some n => filter (fun b => EthereumBlock.number b <=? n) queryset
    | None => queryset
    end in
  order_by (fun a b => EthereumBlock.number a <=? EthereumBlock.number b) queryset.

End EthereumBlockQuerySet.

Module EthereumBlockMethods.

(** [self.save()]: an [UPDATE] of every column of the row with the
    instance's primary key and, when there is no such row, an [INSERT];
    either is refused when a unique column would be taken twice. *)
Definition save (self : EthereumBlock.t) : M Database unit :=
  fun db =>
    let is_self b := EthereumBlock.number b =? EthereumBlock.number self in
    if existsb (fun b => negb (is_self b)
                         && ((EthereumBlock.block_hash b =? EthereumBlock.block_hash self)%string
                             || (EthereumBlock.parent_hash b
                                 =? EthereumBlock.parent_hash self)%string))
               (ethereum_blocks db)
    then (Raise IntegrityError, db)
    else if existsb is_self (ethereum_blocks db)
    then (Ok tt,
          mkDatabase (map (fun b => if is_self b then self else b) (ethereum_blocks db))
                     (ethereum_txs db))
    else (Ok tt, mkDatabase (ethereum_blocks db ++ [self]) (ethereum_txs db)).

(** Answers the instance as the method leaves it. *)
Definition set_confirmed (self : EthereumBlock.t) : M Database EthereumBlock.t :=
  let self :=
    EthereumBlock.mk (EthereumBlock.number self) (EthereumBlock.gas_limit self)
      (EthereumBlock.gas_used self) (EthereumBlock.timestamp self)
      (EthereumBlock.block_hash self) (EthereumBlock.parent_hash self) true in
  (_ <- save self ;; ret self).

End EthereumBlockMethods.

(** The block table keeps its unique columns unique. *)
Definition blocks_unique (blocks : list EthereumBlock.t) : Prop :=
  NoDup (map EthereumBlock.number blocks)
  /\ NoDup (map EthereumBlock.block_hash blocks)
  /\ NoDup (map EthereumBlock.parent_hash blocks).

Definition sample_blocks : list EthereumBlock.t :=
  [ EthereumBlock.mk 7 8000000 21000 1600000030 "0xb7" "0xb6" false;
    EthereumBlock.mk 5 8000000 21000 1600000000 "0xb5" "0xb4" false;
    EthereumBlock.mk 6 8000000 21000 1600000015 "0xb6" "0xb5" true ].

(* ================================================================== *)
(** * Vocabulary of the further statements *)

(** What the statements on cursors need of a model with cursor columns:
    writing an integer column stores the value, keeps the address, and
    writing it twice is writing it once. *)
Definition cursor_laws (R : Type) `{Monitored R} : Prop :=
  forall (f : string) (v : Z) (r : R),
    In f integer_columns ->
    column_get f (column_set f v r) = Some v
    /\ monitored_address (column_set f v r) = monitored_address r
    /\ column_set f v (column_set f v r) = column_set f v r.

(** [unique_together = (('ethereum_tx', 'log_index'),)] and the primary
    key of the event table. *)
Definition event_key (e : EthereumEvent.t) : string * Z :=
  (EthereumEvent.ethereum_tx_id e, EthereumEvent.log_index e).

Definition events_unique (table : list EthereumEvent.t) : Prop :=
  NoDup (map event_key table) /\ NoDup (map EthereumEvent.id table).

(** The primary key of a decoded operation. *)
Definition decoded_pk (d : InternalTxDecoded.t) : Z :=
  InternalTx.id (InternalTxDecoded.internal_tx d).

Definition sample_decoded (id : Z) (function_name : string) (processed : bool)
    : InternalTxDecoded.t :=
  InternalTxDecoded.mk (sample_trace id [id]) function_name [] processed.

(** The primary key of the status table. *)
Definition status_pk (s : SafeStatus.t) : Z := InternalTx.id (SafeStatus.internal_tx s).

Definition statuses_unique (table : list SafeStatus.t) : Prop :=
  NoDup (map status_pk table).

Definition sample_internal_tx (id block index : Z) (trace : string) : InternalTx.t :=
  InternalTx.mk id
    (EthereumTx.mk (Some block) "0xaa" (Some 21000) (Some 1) (Some []) (Some index)
       None 0 0 None 0 None 0)
    None 0 None None 0 0 None None None None 0 (Some 1) trace None.

(** A string with a comma in it. *)
Fixpoint has_comma (s : string) : bool :=
  match s with
  | EmptyString => false
  | String c s' => (c =? ",")%char || has_comma s'
  end.

Definition sample_multisig (ethereum_tx : option EthereumTx.t) : MultisigTransaction.t :=
  MultisigTransaction.mk "0x5afe" "0xSafe" ethereum_tx (Some "0xTo") 0 None 0 0 0 0
    None None None 0 None.

(** An ether transfer of [sample_tx 1] to ["0xTo"]. *)
Definition sample_ether_transfer (id value : Z) : InternalTx.t :=
  InternalTx.mk id (sample_tx 1) (Some "0xSafe") 0 None (Some "0xTo") value 0
    None None None None 0 (Some 0) "0" None.

(** The internal transaction table keyed: ids and (transaction, trace
    address) pairs are unique. *)
Definition internal_txs_unique (table : list InternalTx.t) : Prop :=
  unique_traces table /\ NoDup (map InternalTx.id table).

(** ASCII case mapping, enough for the sample traces. *)
Definition ascii_upper (c : ascii) : ascii :=
  let n := nat_of_ascii c in
  if ((97 <=? n) && (n <=? 122))%nat then ascii_of_nat (n - 32) else c.

Definition ascii_lower (c : ascii) : ascii :=
  let n := nat_of_ascii c in
  if ((65 <=? n) && (n <=? 90))%nat then ascii_of_nat (n + 32) else c.

Fixpoint map_string (f : ascii -> ascii) (s : string) : string :=
  match s with
  | EmptyString => EmptyString
  | String c s' => String (f c) (map_string f s')
  end.

Definition sample_call_trace (trace_address : list Z) : Trace.t :=
  Trace.mk "call"
    (Trace.mkAction (Some "delegatecall") (Some "0xSafe") (Some 50000)
       (Some [Byte.x01]) None (Some "0xMaster") None (Some 0) None None)
    trace_address
    (Some (Trace.mkResult (Some 21000) None None (Some [])))
    None.

(* ================================================================== *)
(** * The key order of the specification *)

(** An internal transaction comes before another in the order (block
    number, transaction index, trace address): both have a block and an
    index, compared as numbers, and the trace addresses are compared as
    paths, component by component. *)
Definition key_before (path : InternalTx.t -> list Z) (a b : InternalTx.t) : Prop :=
  exists ba ia bb ib,
    EthereumTx.block (InternalTx.ethereum_tx a) = Some ba
    /\ EthereumTx.transaction_index (InternalTx.ethereum_tx a) = Some ia
    /\ EthereumTx.block (InternalTx.ethereum_tx b) = Some bb
    /\ EthereumTx.transaction_index (InternalTx.ethereum_tx b) = Some ib
    /\ (ba < bb
        \/ (ba = bb /\ ia < ib)
        \/ (ba = bb /\ ia = ib /\ compare_trace_path (path a) (path b) = Lt)).

(** The stored trace address is the text of the path, and no component of
    the path has more than one digit. *)
Definition path_up_to_nine (path : InternalTx.t -> list Z) (it : InternalTx.t) : Prop :=
  InternalTx.trace_address it = InternalTxManager._trace_address_to_str (path it)
  /\ Forall (fun x => 0 <= x <= 9) (path it).

(** A status of the Safe ["0xSafe"] written in block 5 by the transaction
    of index 0, at a trace path. *)
Definition status_at (id : Z) (path : list Z) (nonce : Z) : SafeStatus.t :=
  SafeStatus.mk
    (sample_internal_tx id 5 0 (InternalTxManager._trace_address_to_str path))
    "0xSafe" ["0xA"] 1 nonce "0xM".

(** A delegate call of a transaction with status 1 that carries a payload,
    with the given error. *)
Definition sample_failed_delegate_call (error : option string) : InternalTx.t :=
  InternalTx.mk 1 (sample_tx 1) (Some "0xSafe") 0 (Some [Byte.x01]) (Some "0xMaster") 0 0
    None None None None 0 (Some 1) "0" error.
(* ================================================================== *)
(** * Facts about comparisons *)

Lemma compare_nulls_last_laws : comparison_laws compare_nulls_last.
Proof.
  split.
  - intros [x|] [y|]; simpl; auto. apply Z.compare_antisym.
  - intros [x|] [y|] [z|]; simpl; try congruence.
    rewrite !Z.compare_lt_iff. lia.
  - intros [x|] [y|] [z|]; simpl; try congruence.
    intros E. apply Z.compare_eq in E. now subst.
Qed.

Lemma ascii_compare_lt_trans (a b c : ascii) :
  Ascii.compare a b = Lt -> Ascii.compare b c = Lt -> Ascii.compare a c = Lt.
Proof. unfold Ascii.compare. rewrite !N.compare_lt_iff. lia. Qed.

Lemma string_compare_lt_trans (a b c : string) :
  String.compare a b = Lt -> String.compare b c = Lt -> String.compare a c = Lt.
Proof.
  revert b c. induction a as [|x a IH]; intros [|y b] [|z c]; simpl; try congruence.
  destruct (Ascii.compare x y) eqn:Exy; try discriminate.
  - apply Ascii.compare_eq_iff in Exy. subst y.
    destruct (Ascii.compare x z); auto. apply IH.
  - intros _. destruct (Ascii.compare y z) eqn:Eyz; try discriminate.
    + apply Ascii.compare_eq_iff in Eyz. subst z. now rewrite Exy.
    + now rewrite (ascii_compare_lt_trans _ _ _ Exy Eyz).
Qed.

Lemma compare_text_laws : comparison_laws compare_text.
Proof.
  split; unfold compare_text.
  - apply String.compare_antisym.
  - apply string_compare_lt_trans.
  - intros a b c E. apply String.compare_eq_iff in E. now subst.
Qed.

Lemma compare_text_eq (a b : string) : compare_text a b = Eq <-> a = b.
Proof.
  split.
  - apply String.compare_eq_iff.
  - intros ->. unfold compare_text.
    pose proof (String.compare_antisym b b) as E.
    destruct (String.compare b b); simpl in E; congruence.
Qed.

Section ComparisonLaws.
Context {A : Type} (cmp : A -> A -> comparison) (laws : comparison_laws cmp).

Lemma cmp_refl a : cmp a a = Eq.
Proof.
  pose proof (cmp_antisym cmp laws a a) as E.
  destruct (cmp a a); simpl in E; congruence.
Qed.

Lemma cmp_eq_sym a b : cmp a b = Eq -> cmp b a = Eq.
Proof. intros E. rewrite (cmp_antisym cmp laws), E. reflexivity. Qed.

Lemma cmp_eq_cong_r a b c : cmp b c = Eq -> cmp a b = cmp a c.
Proof.
  intros E. rewrite (cmp_antisym cmp laws a b), (cmp_antisym cmp laws a c).
  f_equal. symmetry. apply (cmp_eq_cong cmp laws). now apply cmp_eq_sym.
Qed.

Lemma not_gt_total a b : not_gt (cmp a b) = true \/ not_gt (cmp b a) = true.
Proof.
  rewrite (cmp_antisym cmp laws a b). destruct (cmp b a); simpl; auto.
Qed.

Lemma not_gt_trans a b c :
  not_gt (cmp a b) = true -> not_gt (cmp b c) = true -> not_gt (cmp a c) = true.
Proof.
  destruct (cmp a b) eqn:Eab; simpl; try discriminate; intros _.
  - now rewrite (cmp_eq_cong cmp laws a b c Eab).
  - destruct (cmp b c) eqn:Ebc; simpl; try discriminate; intros _.
    + now rewrite <- (cmp_eq_cong_r a b c Ebc), Eab.
    + now rewrite (cmp_lt_trans cmp laws a b c Eab Ebc).
Qed.

Lemma not_gt_false_lt a b : not_gt (cmp a b) = false <-> cmp b a = Lt.
Proof.
  rewrite (cmp_antisym cmp laws a b). destruct (cmp b a); simpl; split; congruence.
Qed.

Lemma laws_on {B} (f : B -> A) : comparison_laws (fun x y => cmp (f x) (f y)).
Proof.
  split; intros.
  - apply (cmp_antisym cmp laws).
  - eapply (cmp_lt_trans cmp laws); eauto.
  - now apply (cmp_eq_cong cmp laws).
Qed.

Lemma laws_flip : comparison_laws (fun x y => cmp y x).
Proof.
  split; intros.
  - apply (cmp_antisym cmp laws).
  - eapply (cmp_lt_trans cmp laws); eauto.
  - now apply cmp_eq_cong_r, cmp_eq_sym.
Qed.

Lemma laws_lex (cmp2 : A -> A -> comparison) (laws2 : comparison_laws cmp2) :
  comparison_laws (fun x y => lex (cmp x y) (cmp2 x y)).
Proof.
  split.
  - intros a b. rewrite (cmp_antisym cmp laws a b), (cmp_antisym cmp2 laws2 a b).
    destruct (cmp b a); reflexivity.
  - intros a b c. unfold lex.
    destruct (cmp a b) eqn:Eab; try discriminate.
    + rewrite (cmp_eq_cong cmp laws a b c Eab).
      destruct (cmp b c); try discriminate; auto.
      apply (cmp_lt_trans cmp2 laws2).
    + intros _. destruct (cmp b c) eqn:Ebc; try discriminate; intros _.
      * now rewrite <- (cmp_eq_cong_r a b c Ebc), Eab.
      * now rewrite (cmp_lt_trans cmp laws a b c Eab Ebc).
  - intros a b c. unfold lex.
    destruct (cmp a b) eqn:Eab; try discriminate.
    rewrite (cmp_eq_cong cmp laws a b c Eab). intros E2.
    now rewrite (cmp_eq_cong cmp2 laws2 a b c E2).
Qed.

End ComparisonLaws.

Lemma compare_internal_tx_laws : comparison_laws compare_internal_tx.
Proof.
  unfold compare_internal_tx.
  apply (laws_lex _ (laws_on _ compare_nulls_last_laws
                       (fun it => EthereumTx.block (InternalTx.ethereum_tx it)))).
  apply (laws_lex _ (laws_on _ compare_nulls_last_laws
                       (fun it => EthereumTx.transaction_index (InternalTx.ethereum_tx it)))).
  apply (laws_on _ compare_text_laws InternalTx.trace_address).
Qed.

(* ================================================================== *)
(** * Facts about [ORDER BY] and [DISTINCT ON] *)

Section OrderBy.
Context {R : Type} (leb : R -> R -> bool).

Lemma insert_sorted_perm x l : Permutation (insert_sorted leb x l) (x :: l).
Proof.
  induction l as [|y l IH]; simpl; auto.
  destruct (leb x y); auto.
  rewrite IH. apply perm_swap.
Qed.

Lemma order_by_perm l : Permutation (order_by leb l) l.
Proof.
  induction l as [|x l IH]; simpl; auto.
  rewrite insert_sorted_perm. now constructor.
Qed.

Lemma order_by_In x l : In x (order_by leb l) <-> In x l.
Proof.
  split; apply Permutation_in; [|symmetry]; apply order_by_perm.
Qed.

Lemma order_by_length l : List.length (order_by leb l) = List.length l.
Proof. apply Permutation_length, order_by_perm. Qed.

Hypothesis leb_total : forall a b, leb a b = true \/ leb b a = true.
Hypothesis leb_trans : forall a b c, leb a b = true -> leb b c = true -> leb a c = true.

Lemma insert_sorted_sorted x l :
  StronglySorted (holds leb) l -> StronglySorted (holds leb) (insert_sorted leb x l).
Proof.
  induction 1 as [|y l Hl IH Hy]; simpl.
  - repeat constructor.
  - destruct (leb x y) eqn:E.
    + constructor; [now constructor|].
      constructor; [exact E|].
      rewrite Forall_forall in *. intros z Hz. eapply leb_trans; [exact E|]. now apply Hy.
    + constructor; [exact IH|].
      rewrite Forall_forall in *. intros z Hz.
      apply (Permutation_in _ (insert_sorted_perm x l)) in Hz.
      destruct Hz as [<-|Hz]; [|now apply Hy].
      destruct (leb_total x y) as [H|H]; [congruence|exact H].
Qed.

Lemma order_by_sorted l : StronglySorted (holds leb) (order_by leb l).
Proof.
  induction l as [|x l IH]; simpl; [constructor|now apply insert_sorted_sorted].
Qed.

Lemma insert_sorted_first x l :
  (forall z, In z l -> leb x z = true) -> insert_sorted leb x l = x :: l.
Proof.
  destruct l as [|y l]; simpl; auto.
  intros H. now rewrite (H y (or_introl eq_refl)).
Qed.

Lemma filter_insert_sorted (p : R -> bool) x l :
  StronglySorted (holds leb) l ->
  filter p (insert_sorted leb x l)
  = if p x then insert_sorted leb x (filter p l) else filter p l.
Proof.
  induction 1 as [|y l Hl IH Hy]; simpl.
  - destruct (p x); reflexivity.
  - destruct (leb x y) eqn:E.
    + simpl. destruct (p x); [|reflexivity].
      symmetry. apply insert_sorted_first.
      intros z Hz.
      assert (Hin : In z (y :: l)).
      { change (In z (filter p (y :: l))) in Hz. now apply filter_In in Hz. }
      destruct Hin as [<-|Hin]; [exact E|].
      rewrite Forall_forall in Hy. eapply leb_trans; [exact E|]. now apply Hy.
    + simpl. rewrite IH. destruct (p y), (p x); simpl; try reflexivity.
      now rewrite E.
Qed.

(** Selecting rows commutes with sorting them: the sort is stable. *)
Lemma order_by_filter (p : R -> bool) l :
  filter p (order_by leb l) = order_by leb (filter p l).
Proof.
  induction l as [|x l IH]; simpl; auto.
  rewrite filter_insert_sorted by apply order_by_sorted.
  rewrite IH. destruct (p x); reflexivity.
Qed.

(** In a sorted list, a selection that is closed under "comes no later
    than" and is not empty keeps the head. *)
Lemma hd_error_filter_sorted (p : R -> bool) l s :
  StronglySorted (holds leb) l ->
  (forall a b, p b = true -> leb a b = true -> p a = true) ->
  In s l -> p s = true ->
  hd_error (filter p l) = hd_error l.
Proof.
  intros Hs Hp Hin Hps. destruct Hs as [|h l Hl Hh]; [destruct Hin|].
  simpl. assert (p h = true) as ->; [|reflexivity].
  destruct Hin as [<-|Hin]; [exact Hps|].
  rewrite Forall_forall in Hh. eapply Hp; [exact Hps|]. now apply Hh.
Qed.

(** The head of the sorted rows comes no later than any row. *)
Lemma hd_error_order_by_least l h :
  hd_error (order_by leb l) = Some h ->
  In h l /\ forall x, In x l -> leb h x = true.
Proof.
  intros Hh. pose proof (order_by_sorted l) as Hs.
  destruct (order_by leb l) as [|h' t] eqn:E; [discriminate|].
  injection Hh as ->.
  assert (Hin : forall x, In x l <-> In x (h :: t)).
  { intros x. rewrite <- E. symmetry. apply order_by_In. }
  split; [apply Hin; now left|].
  intros x Hx. apply Hin in Hx. inversion Hs as [|? ? _ Hall]; subst.
  destruct Hx as [<-|Hx].
  - destruct (leb_total h h); assumption.
  - rewrite Forall_forall in Hall. now apply Hall.
Qed.

(** Adding a row that comes strictly later than some row already there
    does not change the head of the sorted rows. *)
Lemma hd_error_order_by_insert l1 l2 n s :
  In s (l1 ++ l2) -> leb n s = false ->
  hd_error (order_by leb (l1 ++ n :: l2)) = hd_error (order_by leb (l1 ++ l2)).
Proof.
  intros Hin Hns.
  set (p := fun r => negb (leb n r)).
  assert (Hp : forall a b, p b = true -> leb a b = true -> p a = true).
  { unfold p. intros a b Hb Hab. apply negb_true_iff in Hb. apply negb_true_iff.
    destruct (leb n a) eqn:E; auto. rewrite (leb_trans _ _ _ E Hab) in Hb. discriminate. }
  assert (Hps : p s = true) by (unfold p; now rewrite Hns).
  assert (Hpn : p n = false).
  { unfold p. destruct (leb_total n n) as [H|H]; now rewrite H. }
  rewrite <- (hd_error_filter_sorted p (order_by leb (l1 ++ n :: l2)) s);
    auto using order_by_sorted.
  2:{ apply order_by_In. rewrite in_app_iff in *. simpl. tauto. }
  rewrite <- (hd_error_filter_sorted p (order_by leb (l1 ++ l2)) s);
    auto using order_by_sorted.
  2:{ now apply order_by_In. }
  rewrite !order_by_filter, !filter_app. simpl. now rewrite Hpn.
Qed.

End OrderBy.

Lemma StronglySorted_weaken {A} (P Q : A -> A -> Prop) (l : list A) :
  (forall a b, P a b -> Q a b) -> StronglySorted P l -> StronglySorted Q l.
Proof.
  intros Himp. induction 1 as [|x l Hl IH Hx]; constructor; auto.
  eapply Forall_impl; [|exact Hx]. intros b. apply Himp.
Qed.

(* ================================================================== *)
(** * Current Safe status *)

Section CurrentStatus.
Import SafeStatusQuerySet.

Let status_leb (a b : SafeStatus.t) : bool := not_gt (compare_by_internal_tx a b).
Let address_le (a b : SafeStatus.t) : Prop :=
  not_gt (compare_text (SafeStatus.address a) (SafeStatus.address b)) = true.
Let has_address (address : string) (s : SafeStatus.t) : bool :=
  (SafeStatus.address s =? address)%string.

Lemma compare_by_internal_tx_laws : comparison_laws compare_by_internal_tx.
Proof.
  unfold compare_by_internal_tx.
  apply (laws_lex _ (laws_on _ compare_text_laws SafeStatus.address)).
  apply (laws_flip _ (laws_on _ compare_internal_tx_laws SafeStatus.internal_tx)).
Qed.

Lemma status_leb_total a b : status_leb a b = true \/ status_leb b a = true.
Proof. apply (not_gt_total _ compare_by_internal_tx_laws). Qed.

Lemma status_leb_trans a b c :
  status_leb a b = true -> status_leb b c = true -> status_leb a c = true.
Proof. apply (not_gt_trans _ compare_by_internal_tx_laws). Qed.

Lemma status_leb_address a b : status_leb a b = true -> address_le a b.
Proof.
  unfold status_leb, address_le, compare_by_internal_tx, lex.
  destruct (compare_text (SafeStatus.address a) (SafeStatus.address b)); auto.
Qed.

Lemma address_le_antisym a b :
  address_le a b -> address_le b a -> SafeStatus.address a = SafeStatus.address b.
Proof.
  unfold address_le. intros H1 H2.
  rewrite (cmp_antisym _ compare_text_laws) in H2.
  destruct (compare_text (SafeStatus.address a) (SafeStatus.address b)) eqn:E;
    simpl in *; try discriminate.
  now apply compare_text_eq.
Qed.

Lemma sorted_by_address self :
  StronglySorted address_le (sorted_by_internal_tx self).
Proof.
  apply (StronglySorted_weaken (holds status_leb)).
  - intros a b. apply status_leb_address.
  - apply order_by_sorted; [exact status_leb_total|exact status_leb_trans].
Qed.

Lemma distinct_run_one_address address prev l :
  has_address address prev = true ->
  Forall (fun s => has_address address s = true) l ->
  distinct_run same_address prev l = [].
Proof.
  intros Hp Hl. revert prev Hp.
  induction Hl as [|x l Hx Hl IH]; intros prev Hp; simpl; auto.
  unfold same_address, has_address in *.
  apply String.eqb_eq in Hp, Hx. rewrite Hp, Hx, String.eqb_refl.
  apply IH. now apply String.eqb_eq.
Qed.

Lemma no_address_after address prev x l :
  StronglySorted address_le (prev :: x :: l) ->
  has_address address prev = true -> has_address address x = false ->
  filter (has_address address) l = [].
Proof.
  intros Hs Hp Hx.
  inversion Hs as [|? ? Hxl Hprev]; subst.
  inversion Hxl as [|? ? _ Hxall]; subst.
  inversion Hprev as [|? ? Hpx _]; subst.
  rewrite Forall_forall in Hxall.
  assert (Hall : forall y, In y l -> has_address address y = false).
  { intros y Hy. destruct (has_address address y) eqn:Ey; auto. exfalso.
    unfold has_address in *.
    apply String.eqb_eq in Hp, Ey. apply String.eqb_neq in Hx.
    apply Hx. rewrite <- Hp. symmetry. apply address_le_antisym; auto.
    specialize (Hxall y Hy). unfold address_le in *. now rewrite Hp, <- Ey. }
  clear - Hall. induction l as [|y l IH]; simpl; auto.
  rewrite (Hall y (or_introl eq_refl)). apply IH. intros z Hz. apply Hall. now right.
Qed.

Lemma filter_distinct_run address prev l :
  StronglySorted address_le (prev :: l) ->
  filter (has_address address) (distinct_run same_address prev l)
  = if has_address address prev then []
    else distinct_on same_address (filter (has_address address) l).
Proof.
  revert prev. induction l as [|x l IH]; intros prev Hs.
  - simpl. destruct (has_address address prev); reflexivity.
  - assert (Hxl : StronglySorted address_le (x :: l)) by now inversion Hs.
    specialize (IH x Hxl). simpl.
    destruct (same_address prev x) eqn:Esame.
    + unfold same_address in Esame. apply String.eqb_eq in Esame.
      rewrite IH. unfold has_address at 1 3 4. rewrite Esame.
      fold (has_address address x). destruct (has_address address x); reflexivity.
    + simpl. rewrite IH.
      destruct (has_address address prev) eqn:Ep.
      * assert (Ex : has_address address x = false).
        { unfold has_address, same_address in *. apply String.eqb_eq in Ep.
          rewrite Ep in Esame. now rewrite String.eqb_sym. }
        rewrite Ex.
        assert (Hnone : filter (has_address address) l = []).
        { apply (no_address_after address prev x); auto. }
        now rewrite Hnone.
      * destruct (has_address address x) eqn:Ex; [|reflexivity].
        simpl. f_equal. symmetry.
        apply (distinct_run_one_address address); auto.
        apply Forall_forall. intros y Hy. now apply filter_In in Hy.
Qed.

Lemma filter_distinct_on address l :
  StronglySorted address_le l ->
  filter (has_address address) (distinct_on same_address l)
  = distinct_on same_address (filter (has_address address) l).
Proof.
  destruct l as [|x l]; intros Hs; [reflexivity|].
  simpl. rewrite (filter_distinct_run address x l Hs).
  destruct (has_address address x) eqn:Ex; [|reflexivity].
  simpl. f_equal. symmetry.
  apply (distinct_run_one_address address); auto.
  apply Forall_forall. intros y Hy. now apply filter_In in Hy.
Qed.

(** The rows of one address: [DISTINCT ON] keeps the head of the sort. *)
Lemma last_for_every_address_one address self :
  Forall (fun s => has_address address s = true) self ->
  last_for_every_address self
  = match hd_error (sorted_by_internal_tx self) with
    | Some s => [s]
    | None => []
    end.
Proof.
  intros Hall. unfold last_for_every_address.
  assert (Hs : Forall (fun s => has_address address s = true) (sorted_by_internal_tx self)).
  { rewrite Forall_forall in *. intros s Hs. apply Hall.
    unfold sorted_by_internal_tx in Hs. now apply order_by_In in Hs. }
  destruct (sorted_by_internal_tx self) as [|x l]; [reflexivity|].
  simpl. f_equal. inversion Hs; subst.
  now apply (distinct_run_one_address address).
Qed.

Lemma last_for_address_hd address self :
  last_for_address address self
  = hd_error (sorted_by_internal_tx (filter (has_address address) self)).
Proof.
  unfold last_for_address, first. fold (has_address address).
  rewrite (last_for_every_address_one address).
  - destruct (hd_error (sorted_by_internal_tx _)); reflexivity.
  - apply Forall_forall. intros s Hs. now apply filter_In in Hs.
Qed.

(** What [last_for_every_address] holds for one address is what
    [last_for_address] returns. *)
Lemma last_for_every_address_at address self :
  filter (has_address address) (last_for_every_address self)
  = match last_for_address address self with
    | Some s => [s]
    | None => []
    end.
Proof.
  unfold last_for_every_address at 1.
  rewrite filter_distinct_on by apply sorted_by_address.
  unfold sorted_by_internal_tx at 1.
  rewrite (order_by_filter _ status_leb_total status_leb_trans).
  change (last_for_every_address (filter (has_address address) self) = 
          match last_for_address address self with Some s => [s] | None => [] end).
  rewrite last_for_address_hd.
  apply (last_for_every_address_one address).
  apply Forall_forall. intros s Hs. now apply filter_In in Hs.
Qed.

End CurrentStatus.

Lemma compare_by_internal_tx_same (a b : SafeStatus.t) :
  SafeStatus.address a = SafeStatus.address b ->
  SafeStatusQuerySet.compare_by_internal_tx a b
  = compare_internal_tx (SafeStatus.internal_tx b) (SafeStatus.internal_tx a).
Proof.
  intros E. unfold SafeStatusQuerySet.compare_by_internal_tx.
  now rewrite (proj2 (compare_text_eq _ _) E).
Qed.

Lemma last_for_address_insert (address : string) (l1 l2 : list SafeStatus.t)
    (n current : SafeStatus.t) :
  SafeStatusQuerySet.last_for_address address (l1 ++ l2) = Some current ->
  (SafeStatus.address n = address ->
   compare_internal_tx (SafeStatus.internal_tx n) (SafeStatus.internal_tx current) = Lt) ->
  SafeStatusQuerySet.last_for_address address (l1 ++ n :: l2) = Some current.
Proof.
  intros Hcur Hn. rewrite last_for_address_hd in *.
  rewrite filter_app in *. simpl.
  destruct (SafeStatus.address n =? address)%string eqn:En; [|exact Hcur].
  apply String.eqb_eq in En. specialize (Hn En).
  rewrite <- Hcur. unfold SafeStatusQuerySet.sorted_by_internal_tx.
  destruct (hd_error_order_by_least _ status_leb_total status_leb_trans _ _ Hcur)
    as [Hin _].
  apply (hd_error_order_by_insert _ status_leb_total status_leb_trans _ _ _ current Hin).
  rewrite compare_by_internal_tx_same.
  - apply (not_gt_false_lt _ compare_internal_tx_laws). exact Hn.
  - rewrite En. rewrite <- filter_app in Hin. apply filter_In in Hin.
    symmetry. now apply String.eqb_eq.
Qed.

(** In the order the query sorts by ([compare_internal_tx]: trace
    addresses compared as text, [NULL] largest): for a Safe address with
    at least one stored snapshot [s], [last_for_address] returns a snapshot
    [current], which is also the one row [last_for_every_address] holds for
    that address; it is a stored snapshot of the address that no snapshot
    of the address comes after in that order, it is [s] itself when [s]
    comes after every other one, and inserting anywhere a snapshot that
    comes before it (or of another address) leaves both queries' answer
    unchanged. *)
Lemma current_status_is_last_in_query_order :
  forall (self : list SafeStatus.t) (s : SafeStatus.t),
    In s self ->
    let address := SafeStatus.address s in
    let at_address := fun r => (SafeStatus.address r =? address)%string in
    exists current,
      SafeStatusQuerySet.last_for_address address self = Some current
      /\ filter at_address (SafeStatusQuerySet.last_for_every_address self) = [current]
      /\ In current self
      /\ SafeStatus.address current = address
      /\ (forall r, In r self -> SafeStatus.address r = address ->
            compare_internal_tx (SafeStatus.internal_tx r)
                                (SafeStatus.internal_tx current) <> Gt)
      /\ ((forall r, In r self -> SafeStatus.address r = address ->
             r = s \/ compare_internal_tx (SafeStatus.internal_tx r)
                                          (SafeStatus.internal_tx s) = Lt) ->
          current = s)
      /\ (forall l1 l2 n,
            self = (l1 ++ l2)%list ->
            (SafeStatus.address n = address ->
             compare_internal_tx (SafeStatus.internal_tx n)
                                 (SafeStatus.internal_tx current) = Lt) ->
            SafeStatusQuerySet.last_for_address address (l1 ++ n :: l2) = Some current
            /\ filter at_address
                 (SafeStatusQuerySet.last_for_every_address (l1 ++ n :: l2)) = [current]).
Proof.
  intros self s Hs address at_address.
  assert (Hsf : In s (filter at_address self)).
  { apply filter_In. split; auto. apply String.eqb_refl. }
  destruct (SafeStatusQuerySet.last_for_address address self) as [current|] eqn:Hcur.
  2:{ exfalso. rewrite last_for_address_hd in Hcur.
      unfold SafeStatusQuerySet.sorted_by_internal_tx in Hcur.
      apply (order_by_In (fun a b => not_gt (SafeStatusQuerySet.compare_by_internal_tx a b)))
        in Hsf.
      destruct (order_by _ _); [destruct Hsf|discriminate]. }
  exists current.
  pose proof Hcur as Hhd. rewrite last_for_address_hd in Hhd.
  destruct (hd_error_order_by_least _ status_leb_total status_leb_trans _ _ Hhd)
    as [Hin Hleast].
  apply filter_In in Hin. destruct Hin as [Hin Haddr]. apply String.eqb_eq in Haddr.
  assert (Hmax : forall r, In r self -> SafeStatus.address r = address ->
            compare_internal_tx (SafeStatus.internal_tx r)
                                (SafeStatus.internal_tx current) <> Gt).
  { intros r Hr Ha.
    assert (Hrf : In r (filter at_address self)).
    { apply filter_In. split; auto. now apply String.eqb_eq. }
    specialize (Hleast r Hrf). simpl in Hleast.
    rewrite compare_by_internal_tx_same in Hleast by congruence.
    intros E. rewrite E in Hleast. discriminate. }
  repeat split; auto.
  - unfold at_address. rewrite last_for_every_address_at. now rewrite Hcur.
  - intros Hstrict. destruct (Hstrict current Hin Haddr) as [E|E]; auto.
    exfalso. apply (Hmax s Hs eq_refl).
    rewrite (cmp_antisym _ compare_internal_tx_laws), E. reflexivity.
  - subst self. now apply last_for_address_insert.
  - unfold at_address. rewrite last_for_every_address_at.
    subst self. now rewrite (last_for_address_insert address l1 l2 n current).
Qed.

(* ================================================================== *)
(** * Decoding eligibility *)

Lemma decoded_tx_is_null_spec decoded it :
  InternalTxQuerySet.decoded_tx_is_null decoded it = true
  <-> forall d, In d decoded ->
        InternalTx.id (InternalTxDecoded.internal_tx d) <> InternalTx.id it.
Proof.
  unfold InternalTxQuerySet.decoded_tx_is_null. rewrite forallb_forall.
  split; intros H d Hd; specialize (H d Hd).
  - apply negb_true_iff, Z.eqb_neq in H. exact H.
  - now apply negb_true_iff, Z.eqb_neq.
Qed.

Lemma queue_spec decoded objects it :
  In it (InternalTxQuerySet.can_be_decoded decoded objects)
  <-> In it objects
      /\ InternalTx.call_type it = Some 1
      /\ InternalTx.error it = None
      /\ EthereumTx.status (InternalTx.ethereum_tx it) = Some 1
      /\ InternalTxQuerySet.decoded_tx_is_null decoded it = true
      /\ InternalTx.data it <> None.
Proof.
  unfold InternalTxQuerySet.can_be_decoded. rewrite !filter_In, !andb_true_iff.
  destruct (InternalTx.call_type it) as [c|];
    destruct (InternalTx.error it) as [e|];
    destruct (EthereumTx.status (InternalTx.ethereum_tx it)) as [s|];
    destruct (InternalTx.data it) as [d|]; simpl;
    rewrite ?Z.eqb_eq; intuition (try congruence).
Qed.

Lemma property_spec it :
  InternalTxMethods.can_be_decoded it = Ok true
  <-> InternalTx.call_type it = Some 1
      /\ (InternalTx.error it = None \/ InternalTx.error it = Some "")
      /\ (exists b d, InternalTx.data it = Some (b :: d))
      /\ EthereumTx.status (InternalTx.ethereum_tx it) = Some 1.
Proof.
  unfold InternalTxMethods.can_be_decoded, InternalTxMethods.is_delegate_call,
    EthereumTx.success, EthereumTxCallType.of_value.
  destruct (InternalTx.call_type it) as [c|].
  2:{ simpl. split; [discriminate|]. intros (H & _). discriminate. }
  destruct (c =? 0) eqn:E0.
  { apply Z.eqb_eq in E0. subst c. simpl. split; [discriminate|].
    intros (H & _). discriminate. }
  destruct (c =? 1) eqn:E1.
  2:{ split; [discriminate|]. intros (H & _). injection H as ->. discriminate. }
  apply Z.eqb_eq in E1. subst c. simpl.
  destruct (InternalTx.error it) as [[|ch e]|];
    destruct (InternalTx.data it) as [[|b d]|];
    destruct (EthereumTx.status (InternalTx.ethereum_tx it)) as [s|]; simpl;
    try (destruct (s =? 1) eqn:Es;
         [apply Z.eqb_eq in Es; subst s|apply Z.eqb_neq in Es]);
    split; try discriminate;
    try (intros (_ & [H|H] & (b' & d' & Hd) & Hst); congruence);
    intros _; repeat split; eauto.
Qed.

Lemma property_raises it :
  InternalTxMethods.can_be_decoded it = Raise ValueError
  <-> exists c, InternalTx.call_type it = Some c /\ c <> 0 /\ c <> 1.
Proof.
  unfold InternalTxMethods.can_be_decoded, InternalTxMethods.is_delegate_call,
    EthereumTxCallType.of_value.
  destruct (InternalTx.call_type it) as [c|].
  2:{ split; [discriminate|]. intros (c & H & _). discriminate. }
  destruct (c =? 0) eqn:E0.
  { apply Z.eqb_eq in E0. split; [discriminate|].
    intros (c' & [= <-] & H0 & _). contradiction. }
  destruct (c =? 1) eqn:E1.
  { apply Z.eqb_eq in E1. split; [discriminate|].
    intros (c' & [= <-] & _ & H1). contradiction. }
  apply Z.eqb_neq in E0, E1. split; [|reflexivity]. intros _. eauto.
Qed.

Lemma property_answers it :
  InternalTxMethods.can_be_decoded it = Ok true
  \/ InternalTxMethods.can_be_decoded it = Ok false
  \/ InternalTxMethods.can_be_decoded it = Raise ValueError.
Proof.
  unfold InternalTxMethods.can_be_decoded, InternalTxMethods.is_delegate_call,
    EthereumTxCallType.of_value.
  destruct (InternalTx.call_type it) as [c|]; [|auto].
  destruct (c =? 0); [auto|]. destruct (c =? 1); [|auto].
  match goal with |- Ok ?b = _ \/ _ => destruct b; auto end.
Qed.

(** C2.  The work queue and the property decide eligibility each in its
    own way.  An internal transaction is in the [can_be_decoded] queue
    exactly when it is stored, its call type is DELEGATE_CALL (1), its
    error is null, its data is not null (an empty payload counts), its
    transaction has status 1 and no decoded record points to it.  The
    [can_be_decoded] property holds exactly when the call type is
    DELEGATE_CALL, the error is null or the empty string, the data is a
    non-empty payload and the transaction has status 1, whatever decoded
    records there are; it answers false otherwise, and raises [ValueError]
    exactly when the call type is a number that is neither 0 nor 1.  A
    stored internal transaction is in the queue and has the property
    exactly under the five conditions of the specification, and with
    status 0 it is in neither. *)
Theorem can_be_decoded_queue_and_property :
  forall (decoded : list InternalTxDecoded.t) (objects : list InternalTx.t)
         (it : InternalTx.t),
    (In it (InternalTxQuerySet.can_be_decoded decoded objects)
     <-> In it objects
         /\ InternalTx.call_type it
            = Some (EthereumTxCallType.value EthereumTxCallType.DELEGATE_CALL)
         /\ InternalTx.error it = None
         /\ InternalTx.data it <> None
         /\ EthereumTx.status (InternalTx.ethereum_tx it) = Some 1
         /\ (forall d, In d decoded ->
               InternalTx.id (InternalTxDecoded.internal_tx d) <> InternalTx.id it))
    /\ (InternalTxMethods.can_be_decoded it = Ok true
        <-> InternalTx.call_type it
            = Some (EthereumTxCallType.value EthereumTxCallType.DELEGATE_CALL)
            /\ (InternalTx.error it = None \/ InternalTx.error it = Some "")
            /\ (exists b d, InternalTx.data it = Some (b :: d))
            /\ EthereumTx.status (InternalTx.ethereum_tx it) = Some 1)
    /\ (InternalTxMethods.can_be_decoded it = Raise ValueError
        <-> exists c, InternalTx.call_type it = Some c /\ c <> 0 /\ c <> 1)
    /\ (InternalTxMethods.can_be_decoded it = Ok true
        \/ InternalTxMethods.can_be_decoded it = Ok false
        \/ InternalTxMethods.can_be_decoded it = Raise ValueError)
    /\ ((In it (InternalTxQuerySet.can_be_decoded decoded objects)
         /\ InternalTxMethods.can_be_decoded it = Ok true)
        <-> In it objects
            /\ InternalTx.call_type it
               = Some (EthereumTxCallType.value EthereumTxCallType.DELEGATE_CALL)
            /\ InternalTx.error it = None
            /\ (exists b d, InternalTx.data it = Some (b :: d))
            /\ EthereumTx.status (InternalTx.ethereum_tx it) = Some 1
            /\ (forall d, In d decoded ->
                  InternalTx.id (InternalTxDecoded.internal_tx d) <> InternalTx.id it))
    /\ (EthereumTx.status (InternalTx.ethereum_tx it) = Some 0 ->
        ~ In it (InternalTxQuerySet.can_be_decoded decoded objects)
        /\ InternalTxMethods.can_be_decoded it <> Ok true).
Proof.
  intros decoded objects it. simpl EthereumTxCallType.value.
  split; [|split; [|split; [|split; [|split]]]].
  - rewrite queue_spec, decoded_tx_is_null_spec. tauto.
  - apply property_spec.
  - apply property_raises.
  - apply property_answers.
  - rewrite queue_spec, property_spec, decoded_tx_is_null_spec. split.
    + intros ((Hin & Hc & He & Hs & Hd & _) & (_ & _ & Hp & _)). auto 10.
    + intros (Hin & Hc & He & (b & d & Hp) & Hs & Hd).
      repeat split; eauto; congruence.
  - intros Hs. rewrite queue_spec, property_spec. split.
    + intros (_ & _ & _ & Hs' & _). congruence.
    + intros (_ & _ & _ & Hs'). congruence.
Qed.

(** The specification's five conditions are not what either decides, taken
    alone: the queue admits a delegate call whose payload is present but
    empty, which the property rejects; the property accepts a delegate call
    that already has a decoded record, and one whose error is the empty
    string, and the queue holds neither. *)
Lemma eligibility_is_decided_twice :
  (In (sample_delegate_call 1 (Some []))
      (InternalTxQuerySet.can_be_decoded [] [sample_delegate_call 1 (Some [])])
   /\ InternalTxMethods.can_be_decoded (sample_delegate_call 1 (Some [])) = Ok false)
  /\ (InternalTxMethods.can_be_decoded (sample_delegate_call 1 (Some [Byte.x01])) = Ok true
      /\ InternalTxQuerySet.can_be_decoded
           [InternalTxDecoded.mk (sample_delegate_call 1 (Some [Byte.x01])) "setup" []
              false]
           [sample_delegate_call 1 (Some [Byte.x01])] = [])
  /\ (InternalTxMethods.can_be_decoded (sample_failed_delegate_call (Some "")) = Ok true
      /\ InternalTxQuerySet.can_be_decoded [] [sample_failed_delegate_call (Some "")] = []).
Proof. repeat split; try reflexivity. now left. Qed.

(* ================================================================== *)
(** * Pending decoded operations *)

Lemma mem_string_In x l : mem_string x l = true <-> In x l.
Proof.
  unfold mem_string. rewrite existsb_exists. split.
  - intros (y & Hy & E). apply String.eqb_eq in E. now subst.
  - intros H. exists x. split; auto. apply String.eqb_refl.
Qed.

Lemma pending_leb_total (a b : InternalTxDecoded.t) :
  not_gt (compare_internal_tx (InternalTxDecoded.internal_tx a)
                              (InternalTxDecoded.internal_tx b)) = true
  \/ not_gt (compare_internal_tx (InternalTxDecoded.internal_tx b)
                                 (InternalTxDecoded.internal_tx a)) = true.
Proof.
  apply (not_gt_total _ (laws_on _ compare_internal_tx_laws InternalTxDecoded.internal_tx)).
Qed.

Lemma pending_leb_trans (a b c : InternalTxDecoded.t) :
  not_gt (compare_internal_tx (InternalTxDecoded.internal_tx a)
                              (InternalTxDecoded.internal_tx b)) = true ->
  not_gt (compare_internal_tx (InternalTxDecoded.internal_tx b)
                              (InternalTxDecoded.internal_tx c)) = true ->
  not_gt (compare_internal_tx (InternalTxDecoded.internal_tx a)
                              (InternalTxDecoded.internal_tx c)) = true.
Proof.
  apply (not_gt_trans _ (laws_on _ compare_internal_tx_laws InternalTxDecoded.internal_tx)).
Qed.

(** [pending_for_safes] holds exactly the decoded internal transactions
    that are not processed and whose internal transaction's sender is the
    address of a known Safe contract or whose function name is [setup],
    each as often as it is stored; they come in the order the query sorts
    by ([compare_internal_tx]: trace addresses compared as text, [NULL]
    largest). *)
Lemma pending_for_safes_exact_in_query_order :
  forall (safe_contracts : list SafeContract.t) (self : list InternalTxDecoded.t),
    let pending := InternalTxDecodedQuerySet.pending_for_safes safe_contracts self in
    (forall d,
        In d pending
        <-> In d self
            /\ InternalTxDecoded.processed d = false
            /\ ((exists a, InternalTx._from (InternalTxDecoded.internal_tx d) = Some a
                           /\ In a (map SafeContract.address safe_contracts))
                \/ InternalTxDecoded.function_name d = "setup"))
    /\ Permutation pending
         (filter (fun d => negb (InternalTxDecoded.processed d)
                           && (InternalTxDecodedQuerySet.from_is_safe safe_contracts d
                               || (InternalTxDecoded.function_name d =? "setup")%string))
                 self)
    /\ StronglySorted
         (fun a b => compare_internal_tx (InternalTxDecoded.internal_tx a)
                                         (InternalTxDecoded.internal_tx b) <> Gt)
         pending.
Proof.
  intros safe_contracts self pending. subst pending.
  unfold InternalTxDecodedQuerySet.pending_for_safes,
    InternalTxDecodedQuerySet.not_processed.
  split; [|split].
  - intros d. rewrite order_by_In, !filter_In, negb_true_iff, orb_true_iff,
      String.eqb_eq.
    unfold InternalTxDecodedQuerySet.from_is_safe.
    destruct (InternalTx._from (InternalTxDecoded.internal_tx d)) as [a|].
    + rewrite mem_string_In. split.
      * intros ((Hin & Hp) & [Hs|Hn]); repeat split; eauto.
      * intros (Hin & Hp & [(a' & Ha & Hs)|Hn]); repeat split; auto.
        left. congruence.
    + split.
      * intros ((Hin & Hp) & [Hs|Hn]); [discriminate|]. repeat split; auto.
      * intros (Hin & Hp & [(a' & Ha & Hs)|Hn]); [discriminate|]. repeat split; auto.
  - rewrite order_by_perm.
    match goal with |- Permutation ?a ?b => assert (a = b) as ->; [|reflexivity] end.
    induction self as [|d l IH]; simpl; auto.
    destruct (InternalTxDecoded.processed d); simpl; auto.
    rewrite IH. reflexivity.
  - match goal with |- StronglySorted _ (order_by ?leb ?l) =>
      apply (StronglySorted_weaken (holds leb));
        [|apply order_by_sorted; [exact pending_leb_total|exact pending_leb_trans]]
    end.
    unfold holds. intros a b Hab E. rewrite E in Hab. discriminate.
Qed.

(* ================================================================== *)
(** * Scan cursors *)

Lemma monitored_column_set_get (f : string) (v : Z) (r : MonitoredAddress.t) :
  In f (@integer_columns _ MonitoredAddress_Monitored) ->
  column_get f (column_set f v r) = Some v
  /\ MonitoredAddress.address (column_set f v r) = MonitoredAddress.address r
  /\ forall g, g <> f -> column_get g (column_set f v r) = column_get g r.
Proof.
  simpl. intros [<-|[<-|[]]]; simpl; repeat split; auto; intros g Hg.
  - destruct (g =? "initial_block_number")%string eqn:E; auto.
    apply String.eqb_eq in E. congruence.
  - destruct (g =? "initial_block_number")%string eqn:E; auto.
    destruct (g =? "tx_block_number")%string eqn:E'; auto.
    apply String.eqb_eq in E'. congruence.
Qed.

(** C4.  [update_addresses] with [from_block_number = F] and
    [block_number = T] on a cursor column: it answers the number of rows
    updated and keeps every row in place; a row whose address is in the
    list and whose cursor [C] satisfies [C >= F - 1] gets the cursor [T]
    and keeps its address and other columns; a listed row with [C < F - 1]
    or a null cursor, and every row whose address is not in the list, is
    left as it was. *)
Theorem update_addresses_advances_cursor :
  forall (table : list MonitoredAddress.t) (addresses : list string) (F T : Z)
         (database_field : string),
    In database_field ["initial_block_number"; "tx_block_number"] ->
    exists (updated : Z) (table' : list MonitoredAddress.t),
      MonitoredAddressManager.update_addresses addresses F T database_field table
      = (Ok updated, table')
      /\ List.length table' = List.length table
      /\ forall (i : nat) (r : MonitoredAddress.t),
           nth_error table i = Some r ->
           exists r',
             nth_error table' i = Some r'
             /\ MonitoredAddress.address r' = MonitoredAddress.address r
             /\ (In (MonitoredAddress.address r) addresses ->
                 forall C, column_get database_field r = Some C ->
                   (C >= F - 1 ->
                    column_get database_field r' = Some T
                    /\ forall g, g <> database_field -> column_get g r' = column_get g r)
                   /\ (C < F - 1 -> r' = r))
             /\ (column_get database_field r = None -> r' = r)
             /\ (~ In (MonitoredAddress.address r) addresses -> r' = r).
Proof.
  intros table addresses F T f Hf.
  unfold MonitoredAddressManager.update_addresses.
  assert (mem_string f (@integer_columns _ MonitoredAddress_Monitored) = true) as ->
    by now apply mem_string_In.
  eexists. eexists. split; [reflexivity|]. split; [apply length_map|].
  intros i r Hr. rewrite nth_error_map, Hr. simpl option_map.
  eexists. split; [reflexivity|].
  unfold MonitoredAddressManager.selected.
  change (@monitored_address _ MonitoredAddress_Monitored r)
    with (MonitoredAddress.address r).
  destruct (monitored_column_set_get f T r Hf) as (Hget & Haddr & Hother).
  destruct (mem_string (MonitoredAddress.address r) addresses) eqn:Emem; cbn [andb].
  - destruct (column_get f r) as [C|] eqn:EC; [destruct (C >=? F - 1) eqn:Ege|].
    + split; [exact Haddr|]. split; [|split].
      * intros _ C' [= <-]. split; [auto|]. intros Hlt. lia.
      * discriminate.
      * intros Hnot. apply mem_string_In in Emem. contradiction.
    + split; [reflexivity|]. split; [|split]; auto.
      intros _ C' [= <-]. split; [|auto]. intros Hge. lia.
    + split; [reflexivity|]. split; [|split]; auto. intros _ C'. discriminate.
  - split; [reflexivity|]. split; [|split]; auto.
    intros Hin. apply mem_string_In in Hin. congruence.
Qed.

Lemma update_addresses_advances_cursor_witness :
  exists updated table',
    MonitoredAddressManager.update_addresses ["0xA"; "0xB"; "0xC"] 100 120
      "tx_block_number" sample_monitored = (Ok updated, table')
    /\ List.length table' = 4%nat.
Proof.
  destruct (update_addresses_advances_cursor sample_monitored ["0xA"; "0xB"; "0xC"]
              100 120 "tx_block_number") as (updated & table' & Hrun & Hlen & _).
  - simpl. auto.
  - exists updated, table'. split; [exact Hrun|exact Hlen].
Defined.

(** The same manager on Safe contracts, whose cursor is
    [erc20_block_number]. *)
Lemma update_addresses_safe_contracts (table : list SafeContract.t)
    (addresses : list string) (F T : Z) :
  MonitoredAddressManager.update_addresses addresses F T "erc20_block_number" table
  = (Ok (Z.of_nat (List.length
                     (filter (fun r => mem_string (SafeContract.address r) addresses
                                       && (SafeContract.erc20_block_number r >=? F - 1))
                             table))),
     map (fun r => if mem_string (SafeContract.address r) addresses
                      && (SafeContract.erc20_block_number r >=? F - 1)
                   then SafeContract.mk (SafeContract.address r)
                          (SafeContract.ethereum_tx r) T
                   else r)
         table).
Proof. reflexivity. Qed.

(* ================================================================== *)
(** * Trace neighbours *)

Lemma list_index_range x l i :
  list_index x l = Ok i -> 0 <= i < Z.of_nat (List.length l).
Proof.
  revert i. induction l as [|y l IH]; simpl; intros i; [discriminate|].
  destruct (y =? x)%string.
  - intros [= <-]. lia.
  - destruct (list_index x l) as [j|]; [|discriminate].
    intros [= <-]. specialize (IH j eq_refl). lia.
Qed.

(** C5.  [get_previous_trace] of the first trace of a transaction does not
    return [None]: the index [-1] is refused by the query set with an
    error that is not the [IndexError] the method catches.  No call of
    [get_previous_trace] answers [None] at all. *)
Theorem get_previous_trace_of_first_raises :
  InternalTxMethods.get_previous_trace
    [sample_trace 1 [0]; sample_trace 2 [1]] (sample_trace 1 [0])
  = Raise AssertionError
  /\ InternalTxMethods.get_next_trace
       [sample_trace 1 [0]; sample_trace 2 [1]] (sample_trace 2 [1])
     = Ok None
  /\ forall objects self,
       InternalTxMethods.get_previous_trace objects self <> Ok None.
Proof.
  split; [reflexivity|]. split; [reflexivity|].
  intros objects self. unfold InternalTxMethods.get_previous_trace.
  set (internal_txs := InternalTxQuerySet.of_ethereum_tx_by_trace_address _ _).
  destruct (list_index _ _) as [index|e] eqn:Ei; [|discriminate].
  apply list_index_range in Ei. rewrite length_map in Ei.
  unfold qs_getitem. destruct (index - 1 <? 0) eqn:Eneg; [discriminate|].
  apply Z.ltb_ge in Eneg.
  destruct (nth_error internal_txs (Z.to_nat (index - 1))) eqn:En; [discriminate|].
  apply nth_error_None in En. lia.
Qed.

(** ** Neighbours that exist *)

Lemma list_index_nth x l i :
  list_index x l = Ok i -> nth_error l (Z.to_nat i) = Some x.
Proof.
  revert i. induction l as [|y l IH]; simpl; intros i; [discriminate|].
  destruct (y =? x)%string eqn:E.
  - intros [= <-]. apply String.eqb_eq in E. now subst.
  - destruct (list_index x l) as [j|] eqn:Ej; [|discriminate].
    intros [= <-]. pose proof (list_index_range _ _ _ Ej) as Hj.
    replace (Z.to_nat (j + 1)) with (S (Z.to_nat j)) by lia. simpl. now apply IH.
Qed.

Lemma list_index_of_nth x l j :
  NoDup l -> nth_error l j = Some x -> list_index x l = Ok (Z.of_nat j).
Proof.
  revert j. induction l as [|y l IH]; intros j Hnd Hj; [destruct j; discriminate|].
  inversion Hnd as [|? ? Hy Hl]; subst. destruct j as [|j]; simpl in *.
  - injection Hj as ->. now rewrite String.eqb_refl.
  - destruct (y =? x)%string eqn:E.
    + apply String.eqb_eq in E. subst y. exfalso. apply Hy.
      eapply nth_error_In; eauto.
    + rewrite (IH j Hl Hj). f_equal. lia.
Qed.

Lemma NoDup_map_eq {A B} (f : A -> B) l a b :
  NoDup (map f l) -> In a l -> In b l -> f a = f b -> a = b.
Proof.
  induction l as [|x l IH]; simpl; intros Hnd Ha Hb E; [destruct Ha|].
  inversion Hnd as [|? ? Hx Hl]; subst.
  destruct Ha as [->|Ha], Hb as [->|Hb]; auto.
  - exfalso. apply Hx. rewrite E. now apply in_map.
  - exfalso. apply Hx. rewrite <- E. now apply in_map.
Qed.

Section Neighbours.
Variable objects : list InternalTx.t.
Hypothesis objects_unique : unique_traces objects.

Let traces_of (x : InternalTx.t) : list InternalTx.t :=
  InternalTxQuerySet.of_ethereum_tx_by_trace_address (InternalTx.ethereum_tx x) objects.
Let same_tx (x y : InternalTx.t) : Prop :=
  EthereumTx.tx_hash (InternalTx.ethereum_tx y)
  = EthereumTx.tx_hash (InternalTx.ethereum_tx x).

Lemma traces_of_In x z : In z (traces_of x) <-> In z objects /\ same_tx x z.
Proof.
  unfold traces_of, InternalTxQuerySet.of_ethereum_tx_by_trace_address, same_tx.
  rewrite order_by_In, filter_In, String.eqb_eq. reflexivity.
Qed.

Lemma traces_of_same x y : same_tx x y -> traces_of y = traces_of x.
Proof.
  unfold traces_of, InternalTxQuerySet.of_ethereum_tx_by_trace_address, same_tx.
  intros E. f_equal. apply filter_ext. intros a. now rewrite E.
Qed.

Lemma traces_of_NoDup x : NoDup (map InternalTx.trace_address (traces_of x)).
Proof.
  unfold traces_of, InternalTxQuerySet.of_ethereum_tx_by_trace_address.
  eapply Permutation_NoDup.
  { apply Permutation_map. symmetry. apply order_by_perm. }
  unfold unique_traces in objects_unique. clear traces_of same_tx.
  induction objects as [|a l IH]; simpl; [constructor|].
  inversion objects_unique as [|? ? Ha Hl]; subst.
  destruct (_ =? _)%string eqn:E; simpl; auto.
  constructor; auto. intros Hin. apply Ha.
  apply in_map_iff in Hin. destruct Hin as (b & Eb & Hb).
  apply filter_In in Hb. destruct Hb as [Hb Ehash].
  apply String.eqb_eq in E, Ehash. apply in_map_iff. exists b. split; auto.
  unfold trace_key. now rewrite Eb, Ehash, E.
Qed.

Lemma traces_of_nth_self x i :
  In x objects ->
  nth_error (map InternalTx.trace_address (traces_of x)) i
  = Some (InternalTx.trace_address x) ->
  nth_error (traces_of x) i = Some x.
Proof.
  intros Hx Hi. rewrite nth_error_map in Hi.
  destruct (nth_error (traces_of x) i) as [x'|] eqn:E; [|discriminate].
  injection Hi as Hi. f_equal.
  apply (NoDup_map_eq InternalTx.trace_address (traces_of x)); auto.
  - apply traces_of_NoDup.
  - eapply nth_error_In; eauto.
  - apply traces_of_In. split; auto. reflexivity.
Qed.

(** The trace after [x] has [x] as the trace before it. *)
Lemma get_previous_trace_of_next x y :
  In x objects ->
  InternalTxMethods.get_next_trace objects x = Ok (Some y) ->
  InternalTxMethods.get_previous_trace objects y = Ok (Some x).
Proof.
  intros Hx. unfold InternalTxMethods.get_next_trace, InternalTxMethods.get_previous_trace.
  fold (traces_of x). fold (traces_of y).
  destruct (list_index _ _) as [i|] eqn:Ei; [|discriminate].
  pose proof (list_index_range _ _ _ Ei) as Hi.
  apply list_index_nth in Ei. apply (traces_of_nth_self x _ Hx) in Ei.
  unfold qs_getitem. destruct (i + 1 <? 0) eqn:Eneg; [discriminate|].
  destruct (nth_error (traces_of x) (Z.to_nat (i + 1))) as [y'|] eqn:Ey; [|discriminate].
  intros [= ->].
  assert (Hy : In y (traces_of x)) by (eapply nth_error_In; eauto).
  apply traces_of_In in Hy. destruct Hy as [Hy Hsame].
  rewrite (traces_of_same x y Hsame).
  rewrite (list_index_of_nth (InternalTx.trace_address y) _ (Z.to_nat (i + 1))
             (traces_of_NoDup x)).
  2:{ rewrite nth_error_map, Ey. reflexivity. }
  replace (Z.of_nat (Z.to_nat (i + 1)) - 1) with i by lia.
  assert ((i <? 0) = false) as -> by (apply Z.ltb_ge; lia).
  now rewrite Ei.
Qed.

(** The trace before [y] has [y] as the trace after it. *)
Lemma get_next_trace_of_previous x y :
  In y objects ->
  InternalTxMethods.get_previous_trace objects y = Ok (Some x) ->
  InternalTxMethods.get_next_trace objects x = Ok (Some y).
Proof.
  intros Hy. unfold InternalTxMethods.get_next_trace, InternalTxMethods.get_previous_trace.
  fold (traces_of x). fold (traces_of y).
  destruct (list_index _ _) as [j|] eqn:Ej; [|discriminate].
  pose proof (list_index_range _ _ _ Ej) as Hj.
  apply list_index_nth in Ej. apply (traces_of_nth_self y _ Hy) in Ej.
  unfold qs_getitem. destruct (j - 1 <? 0) eqn:Eneg; [discriminate|].
  apply Z.ltb_ge in Eneg.
  destruct (nth_error (traces_of y) (Z.to_nat (j - 1))) as [x'|] eqn:Ex; [|discriminate].
  intros [= ->].
  assert (Hx : In x (traces_of y)) by (eapply nth_error_In; eauto).
  apply traces_of_In in Hx. destruct Hx as [Hx Hsame].
  rewrite (traces_of_same y x Hsame).
  rewrite (list_index_of_nth (InternalTx.trace_address x) _ (Z.to_nat (j - 1))
             (traces_of_NoDup y)).
  2:{ rewrite nth_error_map, Ex. reflexivity. }
  replace (Z.of_nat (Z.to_nat (j - 1)) + 1) with j by lia.
  assert ((j <? 0) = false) as -> by (apply Z.ltb_ge; lia).
  now rewrite Ej.
Qed.


End Neighbours.

(* ================================================================== *)
(** * Trace order *)

(** C6.  Sorting by the stored [trace_address] text does not give the
    component-wise numeric order of the paths: the trace at path [10] is
    put before the trace at path [2]. *)
Theorem trace_address_order_is_textual :
  compare_trace_path [2] [10] = Lt
  /\ map InternalTx.trace_address
       (InternalTxQuerySet.of_ethereum_tx_by_trace_address (sample_tx 1)
          [sample_trace 1 [2]; sample_trace 2 [10]])
     = [InternalTxManager._trace_address_to_str [10];
        InternalTxManager._trace_address_to_str [2]]
  /\ InternalTxMethods.get_next_trace
       [sample_trace 1 [2]; sample_trace 2 [10]] (sample_trace 2 [10])
     = Ok (Some (sample_trace 1 [2])).
Proof. repeat split. Qed.

(** ** Where the two orders agree *)

Lemma str_digit x :
  0 <= x <= 9 ->
  exists c, str x = String c "" /\ N_of_ascii c = Z.to_N (48 + x).
Proof.
  intros H.
  assert (Hx : x = 0 \/ x = 1 \/ x = 2 \/ x = 3 \/ x = 4 \/ x = 5 \/ x = 6 \/ x = 7
               \/ x = 8 \/ x = 9) by lia.
  repeat (destruct Hx as [->|Hx]; [eexists; split; reflexivity|]).
  subst. eexists; split; reflexivity.
Qed.

Lemma concat_cons sep (s : string) (l : list string) :
  String.concat sep (s :: l)
  = (s ++ match l with [] => "" | _ :: _ => sep ++ String.concat sep l end)%string.
Proof.
  destruct l; simpl; auto.
  clear. induction s; simpl; auto. now rewrite <- IHs.
Qed.

(** As long as every component of the paths is a single digit, the text
    order of the stored keys is the component-wise numeric order. *)
Lemma trace_address_order_single_digits (a b : list Z) :
  Forall (fun x => 0 <= x <= 9) a ->
  Forall (fun x => 0 <= x <= 9) b ->
  compare_text (InternalTxManager._trace_address_to_str a)
               (InternalTxManager._trace_address_to_str b)
  = compare_trace_path a b.
Proof.
  unfold InternalTxManager._trace_address_to_str, compare_text.
  intros Ha. revert b. induction Ha as [|x a Hx Ha IH]; intros b Hb.
  - destruct Hb as [|y b Hy Hb]; [reflexivity|].
    cbn [map]. rewrite concat_cons.
    destruct (str_digit y Hy) as (c & -> & _). reflexivity.
  - destruct Hb as [|y b Hy Hb].
    + cbn [map]. rewrite concat_cons.
      destruct (str_digit x Hx) as (c & -> & _). reflexivity.
    + cbn [map compare_trace_path]. rewrite !concat_cons.
      destruct (str_digit x Hx) as (cx & -> & Ex).
      destruct (str_digit y Hy) as (cy & -> & Ey).
      cbn [String.append String.compare].
      assert (Ecmp : Ascii.compare cx cy = Z.compare x y).
      { unfold Ascii.compare. rewrite Ex, Ey, Z2N.inj_compare by lia.
        apply Z.add_compare_mono_l. }
      rewrite Ecmp. unfold lex. destruct (x ?= y); auto.
      destruct Ha as [|x' a Hx' Ha], Hb as [|y' b Hy' Hb]; try reflexivity.
      rewrite <- (IH (y' :: b) (Forall_cons _ Hy' Hb)). reflexivity.
Qed.

(* ================================================================== *)
(** * Token balances *)

(** C9.  For a transfer from the holder to itself the balance reported by
    [erc20_tokens_with_balance] counts the value once, as sent: a holder
    that received 10 and then moved 10 to itself is reported with balance
    0, where sender and recipient roles together give 10. *)
Theorem erc20_balance_counts_self_transfer_as_sent :
  let events := [ sample_transfer 1 "0xToken" "0xB" "0xA" 10;
                  sample_transfer 2 "0xToken" "0xA" "0xA" 10 ] in
  EthereumEventManager.erc20_tokens_with_balance sample_topic "0xA" events
  = Ok [("0xToken", 0)]
  /\ fold_right Z.add 0 (map (signed_value_by_role "0xA") events) = 10
  /\ EthereumEventManager.erc20_tokens_with_balance sample_topic "0xA"
       [sample_transfer 2 "0xToken" "0xA" "0xA" 10]
     = Ok [("0xToken", -10)].
Proof. repeat split. Qed.

(** ** What the aggregation computes *)

Lemma group_add_keys k v g h :
  In h (map fst (group_add k v g)) <-> h = k \/ In h (map fst g).
Proof.
  induction g as [|[k' s] g IH]; simpl.
  - intuition.
  - destruct (k' =? k)%string eqn:E; simpl.
    + apply String.eqb_eq in E. subst k'. intuition.
    + rewrite IH. intuition.
Qed.

Lemma group_add_NoDup k v g :
  NoDup (map fst g) -> NoDup (map fst (group_add k v g)).
Proof.
  induction g as [|[k' s] g IH]; simpl; intros Hnd.
  - constructor; [intros []|constructor].
  - inversion Hnd as [|? ? Hk Hg]; subst.
    destruct (k' =? k)%string eqn:E; simpl.
    + now constructor.
    + constructor; auto. rewrite group_add_keys. intros [->|H]; auto.
      now rewrite String.eqb_refl in E.
Qed.

Lemma group_add_total k v g h :
  total_of h (group_add k v g)
  = if (k =? h)%string then total_of h g + v else total_of h g.
Proof.
  induction g as [|[k' s] g IH]; simpl.
  - destruct (k =? h)%string; lia.
  - destruct (k' =? k)%string eqn:E; simpl.
    + apply String.eqb_eq in E. subst k'. destruct (k =? h)%string; reflexivity.
    + rewrite IH. destruct (k' =? h)%string eqn:E'; auto.
      apply String.eqb_eq in E'. subst k'.
      rewrite String.eqb_sym in E. now rewrite E.
Qed.

Lemma total_of_In k s g :
  NoDup (map fst g) -> In (k, s) g -> total_of k g = s.
Proof.
  induction g as [|[k' s'] g IH]; simpl; intros Hnd Hin; [destruct Hin|].
  inversion Hnd as [|? ? Hk Hg]; subst.
  destruct Hin as [[= -> ->]|Hin].
  - now rewrite String.eqb_refl.
  - destruct (k' =? k)%string eqn:E; auto.
    apply String.eqb_eq in E. subst k'. exfalso. apply Hk.
    apply in_map_iff. now exists (k, s).
Qed.

Lemma group_sum_spec rows :
  NoDup (map fst (group_sum rows))
  /\ (forall h, In h (map fst (group_sum rows)) <-> In h (map fst rows))
  /\ (forall h, total_of h (group_sum rows) = sum_for h rows).
Proof.
  unfold group_sum.
  assert (H : forall g,
             NoDup (map fst g) ->
             let g' := fold_left (fun g kv => group_add (fst kv) (snd kv) g) rows g in
             NoDup (map fst g')
             /\ (forall h, In h (map fst g') <-> In h (map fst g) \/ In h (map fst rows))
             /\ (forall h, total_of h g' = total_of h g + sum_for h rows)).
  { induction rows as [|[k v] rows IH]; simpl; intros g Hnd.
    - repeat split; auto; try tauto. unfold sum_for. simpl. lia.
    - destruct (IH (group_add k v g) (group_add_NoDup k v g Hnd)) as (H1 & H2 & H3).
      split; [exact H1|]. split.
      + intros h. rewrite H2, group_add_keys. intuition.
      + intros h. rewrite H3, group_add_total. unfold sum_for. simpl.
        destruct (k =? h)%string; simpl; lia. }
  destruct (H [] (NoDup_nil _)) as (H1 & H2 & H3). split; [exact H1|]. split.
  - intros h. rewrite H2. simpl. tauto.
  - intros h. rewrite H3. simpl. lia.
Qed.

Lemma try_map_ok_map {A B} (f : A -> result B) (g : A -> B) l :
  (forall x, In x l -> f x = Ok (g x)) -> try_map f l = Ok (map g l).
Proof.
  induction l as [|x l IH]; simpl; intros H; auto.
  rewrite (H x (or_introl eq_refl)), IH; auto.
Qed.

Lemma try_map_ok_Forall2 {A B} (f : A -> result B) l bs :
  try_map f l = Ok bs -> Forall2 (fun x b => f x = Ok b) l bs.
Proof.
  revert bs. induction l as [|x l IH]; simpl; intros bs.
  - intros [= <-]. constructor.
  - destruct (f x) as [b|] eqn:E; [|discriminate].
    destruct (try_map f l) as [bs'|]; [|discriminate].
    intros [= <-]. constructor; auto.
Qed.

Section Balances.
Variable ERC20_721_TRANSFER_TOPIC : string.
Variable holder : string.
Variable events : list EthereumEvent.t.

Let selected :=
  EthereumEventQuerySet.erc20_events ERC20_721_TRANSFER_TOPIC None (Some holder) events.

(** The signed value the query gives an event: sent when the holder is
    the sender, received otherwise. *)
Let signed (e : EthereumEvent.t) : Z :=
  match arguments_value_field (EthereumEvent.arguments e) with
  | Ok v => if argument_is "from" holder (EthereumEvent.arguments e) then - v else v
  | Raise _ => 0
  end.

Lemma sum_for_signed rows token :
  Forall2 (fun e kv => EthereumEventManager.signed_value holder e = Ok kv) selected rows ->
  sum_for token rows
  = fold_right Z.add 0
      (map signed (filter (fun e => (EthereumEvent.address e =? token)%string) selected)).
Proof.
  unfold sum_for. induction 1 as [|e kv l rows He _ IH]; [reflexivity|].
  unfold EthereumEventManager.signed_value in He.
  destruct (arguments_value_field (EthereumEvent.arguments e)) as [v|] eqn:Ev;
    [|discriminate].
  injection He as <-. cbn [filter fst snd].
  destruct (EthereumEvent.address e =? token)%string; cbn [map fold_right snd];
    rewrite IH; [|reflexivity].
  f_equal. unfold signed. now rewrite Ev.
Qed.

(** The answer of [erc20_tokens_with_balance]: one entry per token
    contract of the selected transfer events, its balance the sum of their
    signed values, entries in descending order of balance. *)
Lemma erc20_tokens_with_balance_spec result :
  EthereumEventManager.erc20_tokens_with_balance ERC20_721_TRANSFER_TOPIC holder events
  = Ok result ->
  NoDup (map fst result)
  /\ (forall token,
         In token (map fst result)
         <-> exists e, In e selected /\ EthereumEvent.address e = token)
  /\ (forall token balance,
         In (token, balance) result ->
         balance
         = fold_right Z.add 0
             (map signed
                  (filter (fun e => (EthereumEvent.address e =? token)%string) selected)))
  /\ StronglySorted (fun a b => snd b <= snd a) result.
Proof.
  unfold EthereumEventManager.erc20_tokens_with_balance. fold selected.
  destruct (try_map (EthereumEventManager.signed_value holder) selected) as [rows|]
    eqn:Erows; [|discriminate].
  intros [= <-]. apply try_map_ok_Forall2 in Erows.
  destruct (group_sum_spec rows) as (Hnd & Hkeys & Htotal).
  set (leb := fun a b : string * Z => snd b <=? snd a).
  pose proof (order_by_perm leb (group_sum rows)) as Hperm.
  split; [|split; [|split]].
  - eapply Permutation_NoDup; [|exact Hnd]. apply Permutation_map. now symmetry.
  - intros token.
    assert (Hin : In token (map fst (order_by leb (group_sum rows)))
                  <-> In token (map fst (group_sum rows))).
    { split; apply Permutation_in, Permutation_map; [|symmetry]; exact Hperm. }
    rewrite Hin, Hkeys. clear - Erows. induction Erows as [|e kv l rows He _ IH]; simpl.
    + split; [intros []|intros (e & [] & _)].
    + unfold EthereumEventManager.signed_value in He.
      destruct (arguments_value_field _); [|discriminate]. injection He as <-. simpl.
      rewrite IH. split.
      * intros [<-|(e' & Hin & E)]; eauto.
      * intros (e' & [->|Hin] & E); eauto.
  - intros token balance Hin. apply (Permutation_in _ Hperm) in Hin.
    rewrite <- (total_of_In _ _ _ Hnd Hin), Htotal. now apply sum_for_signed.
  - assert (Htot : forall a b, leb a b = true \/ leb b a = true).
    { intros a b. unfold leb. rewrite !Z.leb_le. lia. }
    assert (Htr : forall a b c, leb a b = true -> leb b c = true -> leb a c = true).
    { intros a b c. unfold leb. rewrite !Z.leb_le. lia. }
    apply (StronglySorted_weaken (holds leb)); [|now apply order_by_sorted].
    unfold holds, leb. intros a b. now rewrite Z.leb_le.
Qed.

(** Without transfers from the holder to itself the balances are those
    of the specification. *)
Lemma erc20_tokens_with_balance_by_role result :
  EthereumEventManager.erc20_tokens_with_balance ERC20_721_TRANSFER_TOPIC holder events
  = Ok result ->
  holder <> "" ->
  Forall (fun e => is_self_transfer holder e = false) selected ->
  forall token balance,
    In (token, balance) result -> balance = balance_by_role holder token selected.
Proof.
  intros Hrun Hholder Hself token balance Hin.
  destruct (erc20_tokens_with_balance_spec result Hrun) as (_ & _ & Hbal & _).
  rewrite (Hbal token balance Hin). unfold balance_by_role. f_equal.
  apply map_ext_in. intros e He. apply filter_In in He. destruct He as [He _].
  rewrite Forall_forall in Hself. specialize (Hself e He).
  unfold selected, EthereumEventQuerySet.erc20_events,
    EthereumEventQuerySet.erc20_and_721_events in He.
  apply filter_In in He. destruct He as [He _].
  assert (Htruthy : truthy_str (Some holder) = true).
  { destruct holder; [congruence|reflexivity]. }
  rewrite Htruthy in He. simpl truthy_str in He. cbv iota in He.
  apply filter_In in He. destruct He as [_ Hrole].
  unfold signed, signed_value_by_role, is_self_transfer in *.
  destruct (arguments_value_field (EthereumEvent.arguments e)) as [v|]; auto.
  destruct (argument_is "from" holder (EthereumEvent.arguments e)),
           (argument_is "to" holder (EthereumEvent.arguments e));
    simpl in *; try discriminate; lia.
Qed.

End Balances.

(* ================================================================== *)
(** * Storing a transfer event *)

(** C10.  [get_or_create_erc20_or_721_event] raises [ValueError], and
    leaves the table as it is, for every decoded event whose arguments
    lack ['value'] or lack ['tokenId']; a call that returns has found both
    keys; with both keys the event goes on to [get_or_create]. *)
Theorem get_or_create_erc20_or_721_event_needs_both_keys :
  forall (decoded_event : Node.Event) (table : list EthereumEvent.t),
    let args := Node.args decoded_event in
    let run := EthereumEventManager.get_or_create_erc20_or_721_event decoded_event table in
    (has_key "value" args = false \/ has_key "tokenId" args = false ->
     run = (Raise ValueError, table))
    /\ (forall r table', run = (Ok r, table') ->
          has_key "value" args = true /\ has_key "tokenId" args = true)
    /\ (has_key "value" args = true -> has_key "tokenId" args = true ->
        run <> (Raise ValueError, table)
        /\ forall topic topics, Node.topics decoded_event = topic :: topics ->
             run = EthereumEventManager.get_or_create
                     (Node.transactionHash decoded_event) (Node.logIndex decoded_event)
                     (Node.address decoded_event) topic (Node.topics decoded_event)
                     args table).
Proof.
  intros decoded_event table args run. subst run args.
  unfold EthereumEventManager.get_or_create_erc20_or_721_event.
  destruct (has_key "value" (Node.args decoded_event)) eqn:Ev;
    destruct (has_key "tokenId" (Node.args decoded_event)) eqn:Et; simpl.
  - split; [intros [H|H]; discriminate|]. split; [auto|].
    intros _ _. split.
    + destruct (Node.topics decoded_event) as [|topic topics]; [discriminate|].
      unfold EthereumEventManager.get_or_create.
      destruct (filter _ table) as [|e [|e' l]]; discriminate.
    + intros topic topics ->. reflexivity.
  - split; [reflexivity|]. split; [discriminate|]. discriminate.
  - split; [reflexivity|]. split; [discriminate|]. discriminate.
  - split; [reflexivity|]. split; [discriminate|]. discriminate.
Qed.

Lemma get_or_create_erc20_or_721_event_needs_both_keys_witness :
  EthereumEventManager.get_or_create_erc20_or_721_event
    (sample_decoded_event [("from", JStr "0xA"); ("to", JStr "0xB"); ("value", JNum 5)]) []
  = (Raise ValueError, [])
  /\ EthereumEventManager.get_or_create_erc20_or_721_event
       (sample_decoded_event [("from", JStr "0xA"); ("to", JStr "0xB"); ("tokenId", JNum 7)]) []
     = (Raise ValueError, []).
Proof.
  split.
  - apply (proj1 (get_or_create_erc20_or_721_event_needs_both_keys
                    (sample_decoded_event
                       [("from", JStr "0xA"); ("to", JStr "0xB"); ("value", JNum 5)]) [])).
    right. reflexivity.
  - apply (proj1 (get_or_create_erc20_or_721_event_needs_both_keys
                    (sample_decoded_event
                       [("from", JStr "0xA"); ("to", JStr "0xB"); ("tokenId", JNum 7)]) [])).
    left. reflexivity.
Defined.

(* ================================================================== *)
(** * Batch resolution of transaction hashes *)

Section TryMap.
Context {A B : Type} (f : A -> result B).

Lemma try_map_first_failure before x after e :
  Forall (fun y => exists b, f y = Ok b) before ->
  f x = Raise e ->
  try_map f (before ++ x :: after) = Raise e.
Proof.
  intros Hb Hx. induction Hb as [|y l (b & Hy) Hl IH]; simpl.
  - now rewrite Hx.
  - now rewrite Hy, IH.
Qed.

Lemma try_map_raise_inv l e :
  try_map f l = Raise e ->
  exists before x after,
    l = (before ++ x :: after)%list
    /\ Forall (fun y => exists b, f y = Ok b) before
    /\ f x = Raise e.
Proof.
  induction l as [|y l IH]; simpl; [discriminate|].
  destruct (f y) as [b|e'] eqn:Ey.
  - destruct (try_map f l) as [bs|e'']; [discriminate|].
    intros [= ->]. destruct (IH eq_refl) as (before & x & after & -> & Hb & Hx).
    exists (y :: before), x, after. repeat split; eauto.
  - intros [= ->]. exists [], y, l. repeat split; auto.
Qed.

Lemma try_map_ok_inv l bs :
  try_map f l = Ok bs -> Forall (fun y => exists b, f y = Ok b) l.
Proof.
  revert bs. induction l as [|y l IH]; simpl; intros bs; [constructor|].
  destruct (f y) as [b|] eqn:Ey; [|discriminate].
  destruct (try_map f l) as [bs'|]; [|discriminate].
  intros _. constructor; eauto.
Qed.

Lemma try_map_total l :
  (exists bs, try_map f l = Ok bs)
  \/ (exists e, try_map f l = Raise e).
Proof. destruct (try_map f l); eauto. Qed.

Lemma try_map_ok_length l bs :
  try_map f l = Ok bs -> List.length bs = List.length l.
Proof.
  revert bs. induction l as [|y l IH]; simpl; intros bs.
  - now intros [= <-].
  - destruct (f y); [|discriminate]. destruct (try_map f l); [|discriminate].
    intros [= <-]. simpl. f_equal. now apply IH.
Qed.

End TryMap.

Section MonadFacts.
Context {S : Type}.

Lemma bind_raises {A B} (P : exn -> Prop) (m : M S A) (k : A -> M S B) s e s' :
  (forall e s', m s = (Raise e, s') -> P e) ->
  (forall a s1 e s', m s = (Ok a, s1) -> k a s1 = (Raise e, s') -> P e) ->
  bind m k s = (Raise e, s') -> P e.
Proof.
  unfold bind. intros Hm Hk. destruct (m s) as [[a|e1] s1] eqn:Em.
  - intros H. eapply Hk; eauto.
  - intros [= <- <-]. eapply Hm; eauto.
Qed.

Lemma for_fold_raises {A B} (P : exn -> Prop) (body : B -> A -> M S B) xs :
  (forall acc x s e s', body acc x s = (Raise e, s') -> P e) ->
  forall acc s e s', for_fold body xs acc s = (Raise e, s') -> P e.
Proof.
  intros Hbody. induction xs as [|x xs IH]; intros acc s e s'; simpl.
  - discriminate.
  - apply bind_raises; eauto.
Qed.

End MonadFacts.

Section BatchResolution.
Variable client : EthereumClient.
Variable clean_receipt_log : receipt_log -> receipt_log.

Lemma check_receipt_missing hr :
  EthereumTxManager.check_receipt client hr = Raise TransactionNotFoundException
  <-> receipt_missing client hr.
Proof.
  unfold EthereumTxManager.check_receipt, receipt_missing, fetched_receipt.
  destruct hr as [h r]. simpl.
  destruct (or_else r (get_transaction_receipt client h)) as [rc|];
    [|split; reflexivity].
  destruct (Node.blockNumber rc); split; discriminate.
Qed.

Lemma check_receipt_without_block hr :
  EthereumTxManager.check_receipt client hr = Raise TransactionWithoutBlockException
  <-> receipt_without_block client hr.
Proof.
  unfold EthereumTxManager.check_receipt, receipt_without_block, fetched_receipt.
  destruct hr as [h r]. simpl.
  destruct (or_else r (get_transaction_receipt client h)) as [rc|].
  - destruct (Node.blockNumber rc) eqn:E; split; try discriminate; eauto.
    intros (r' & [= <-] & H). congruence.
  - split; [discriminate|]. intros (r' & H & _). discriminate.
Qed.

Lemma check_receipt_good hr :
  (exists r, EthereumTxManager.check_receipt client hr = Ok r)
  <-> receipt_good client hr.
Proof.
  unfold EthereumTxManager.check_receipt, receipt_good, fetched_receipt.
  destruct hr as [h r]. simpl.
  destruct (or_else r (get_transaction_receipt client h)) as [rc|].
  - destruct (Node.blockNumber rc) eqn:E; split; eauto.
    + intros (r' & H). discriminate.
    + intros (r' & n & [= <-] & H). congruence.
  - split; [intros (r' & H)|intros (r' & n & H & _)]; discriminate.
Qed.

Lemma check_tx_missing ht :
  EthereumTxManager.check_tx client ht = Raise TransactionNotFoundException
  <-> tx_missing client ht.
Proof.
  unfold EthereumTxManager.check_tx, tx_missing, fetched_tx.
  destruct ht as [h t]. simpl.
  destruct (or_else t (get_transaction client h)) as [tx|];
    [|split; reflexivity].
  destruct (Node.tx_blockNumber tx); split; discriminate.
Qed.

Lemma check_tx_without_block ht :
  EthereumTxManager.check_tx client ht = Raise TransactionWithoutBlockException
  <-> tx_without_block client ht.
Proof.
  unfold EthereumTxManager.check_tx, tx_without_block, fetched_tx.
  destruct ht as [h t]. simpl.
  destruct (or_else t (get_transaction client h)) as [tx|].
  - destruct (Node.tx_blockNumber tx) eqn:E; split; try discriminate; eauto.
    intros (t' & [= <-] & H). congruence.
  - split; [discriminate|]. intros (t' & H & _). discriminate.
Qed.

Lemma check_tx_good ht :
  (exists n, EthereumTxManager.check_tx client ht = Ok n)
  <-> tx_good client ht.
Proof.
  unfold EthereumTxManager.check_tx, tx_good, fetched_tx.
  destruct ht as [h t]. simpl.
  destruct (or_else t (get_transaction client h)) as [tx|].
  - destruct (Node.tx_blockNumber tx) eqn:E; split; eauto.
    + intros (n & H). discriminate.
    + intros (t' & n & [= <-] & H). congruence.
  - split; [intros (n & H)|intros (t' & n & H & _)]; discriminate.
Qed.

Lemma check_receipt_raises hr e :
  EthereumTxManager.check_receipt client hr = Raise e ->
  (e = TransactionNotFoundException /\ receipt_missing client hr)
  \/ (e = TransactionWithoutBlockException /\ receipt_without_block client hr).
Proof.
  intros H.
  assert (He : e = TransactionNotFoundException \/ e = TransactionWithoutBlockException).
  { revert H. unfold EthereumTxManager.check_receipt. destruct hr as [h r].
    destruct (or_else r _) as [rc|]; [destruct (Node.blockNumber rc)|];
      intros [= <-]; auto. }
  destruct He as [-> | ->]; [left|right]; split; auto.
  - now apply check_receipt_missing.
  - now apply check_receipt_without_block.
Qed.

Lemma check_tx_raises ht e :
  EthereumTxManager.check_tx client ht = Raise e ->
  (e = TransactionNotFoundException /\ tx_missing client ht)
  \/ (e = TransactionWithoutBlockException /\ tx_without_block client ht).
Proof.
  intros H.
  assert (He : e = TransactionNotFoundException \/ e = TransactionWithoutBlockException).
  { revert H. unfold EthereumTxManager.check_tx. destruct ht as [h t].
    destruct (or_else t _) as [tx|]; [destruct (Node.tx_blockNumber tx)|];
      intros [= <-]; auto. }
  destruct He as [-> | ->]; [left|right]; split; auto.
  - now apply check_tx_missing.
  - now apply check_tx_without_block.
Qed.

(** The shape of a run: the early return, the two validation loops, then
    the loop that writes. *)
Lemma create_or_update_from_tx_hashes_eq tx_hashes db :
  let dict := EthereumTxManager.search_in_database tx_hashes db in
  let pending := EthereumTxManager.not_in_db dict in
  EthereumTxManager.create_or_update_from_tx_hashes client clean_receipt_log tx_hashes db
  = match pending with
    | [] => (Ok (dict_values dict), db)
    | _ :: _ =>
        match try_map (EthereumTxManager.check_receipt client)
                (combine pending (get_transaction_receipts client pending)) with
        | Raise e => (Raise e, db)
        | Ok tx_receipts =>
            match try_map (EthereumTxManager.check_tx client)
                    (combine pending (get_transactions client pending)) with
            | Raise e => (Raise e, db)
            | Ok block_numbers =>
                match for_fold
                        (EthereumTxManager.store_tx clean_receipt_log
                           (current_block_number client))
                        (zip3 (get_transactions client pending) tx_receipts
                              (get_blocks client block_numbers))
                        dict db with
                | (Ok d, db') => (Ok (dict_values d), db')
                | (Raise e, db') => (Raise e, db')
                end
            end
        end
    end.
Proof.
  intros dict pending. unfold EthereumTxManager.create_or_update_from_tx_hashes.
  fold dict. fold pending. destruct pending as [|h pending']; [reflexivity|].
  unfold bind, lift, ret.
  destruct (try_map (EthereumTxManager.check_receipt client) _); [|reflexivity].
  destruct (try_map (EthereumTxManager.check_tx client) _); [|reflexivity].
  destruct (for_fold _ _ _ _) as [[d|e] db']; reflexivity.
Qed.

End BatchResolution.

(* ================================================================== *)
(** * What the managers write *)

Section BlockManagerFacts.

Lemma block_get_frame number db r db' :
  EthereumBlockManager.get number db = (r, db') ->
  db' = db /\ (forall e, r = Raise e -> storage_exn e = true).
Proof.
  unfold EthereumBlockManager.get.
  destruct (filter _ _) as [|b [|b' l]]; intros [= <- <-]; split; auto;
    intros e [= <-]; reflexivity.
Qed.

Lemma block_create_frame b db r db' :
  EthereumBlockManager.create b db = (r, db') ->
  ethereum_txs db' = ethereum_txs db /\ (forall e, r = Raise e -> storage_exn e = true).
Proof.
  unfold EthereumBlockManager.create.
  destruct (existsb _ _); intros [= <- <-]; split; auto;
    intros e [= <-]; reflexivity.
Qed.

Lemma block_create_from_block_frame block current db r db' :
  EthereumBlockManager.create_from_block block current db = (r, db') ->
  ethereum_txs db' = ethereum_txs db /\ (forall e, r = Raise e -> storage_exn e = true).
Proof.
  unfold EthereumBlockManager.create_from_block, raise.
  destruct block as [b|].
  - apply block_create_frame.
  - intros [= <- <-]. split; auto. intros e [= <-]. reflexivity.
Qed.

Lemma get_or_create_from_block_frame block current db r db' :
  EthereumBlockManager.get_or_create_from_block block current db = (r, db') ->
  ethereum_txs db' = ethereum_txs db /\ (forall e, r = Raise e -> storage_exn e = true).
Proof.
  unfold EthereumBlockManager.get_or_create_from_block, try_except, raise.
  destruct block as [b|].
  - destruct (EthereumBlockManager.get _ db) as [[b'|e] db1] eqn:Eg;
      apply block_get_frame in Eg; destruct Eg as [-> He].
    + intros [= <- <-]. split; auto; discriminate.
    + destruct (exn_eqb e DoesNotExist).
      * apply block_create_from_block_frame.
      * intros [= <- <-]. split; auto.
  - simpl. intros [= <- <-]. split; auto. intros e [= <-]. reflexivity.
Qed.

Lemma get_or_create_from_block_number_frame client number db r db' :
  EthereumBlockManager.get_or_create_from_block_number client number db = (r, db') ->
  ethereum_txs db' = ethereum_txs db /\ (forall e, r = Raise e -> storage_exn e = true).
Proof.
  unfold EthereumBlockManager.get_or_create_from_block_number, try_except.
  destruct (EthereumBlockManager.get _ db) as [[b'|e] db1] eqn:Eg;
    apply block_get_frame in Eg; destruct Eg as [-> He].
  - intros [= <- <-]. split; auto; discriminate.
  - destruct (exn_eqb e DoesNotExist).
    + apply block_create_from_block_frame.
    + intros [= <- <-]. split; auto.
Qed.

End BlockManagerFacts.

Section TxManagerFacts.
Variable clean_receipt_log : receipt_log -> receipt_log.

Let assign := EthereumTxManager.assign_receipt_and_block clean_receipt_log.
Let has_hash (h : string) (t : EthereumTx.t) : bool := (EthereumTx.tx_hash t =? h)%string.

Lemma tx_get_spec h db r db' :
  EthereumTxManager.get h db = (r, db') ->
  db' = db
  /\ match r with
     | Ok t => filter (has_hash h) (ethereum_txs db) = [t]
     | Raise e =>
         (e = DoesNotExist /\ filter (has_hash h) (ethereum_txs db) = [])
         \/ e = MultipleObjectsReturned
     end.
Proof.
  unfold EthereumTxManager.get. fold (has_hash h).
  destruct (filter _ _) as [|t [|t' l]]; intros [= <- <-]; auto.
Qed.

(** The five receipt columns of the instance written over a row of the
    same primary key give the instance. *)
Lemma copy_receipt_fields t b r :
  fold_right (EthereumTx.copy_field (assign t b r)) t
    [EthereumTx.f_block; EthereumTx.f_gas_used; EthereumTx.f_logs;
     EthereumTx.f_status; EthereumTx.f_transaction_index]
  = assign t b r.
Proof. destruct t. reflexivity. Qed.

Lemma assign_tx_hash t b r : EthereumTx.tx_hash (assign t b r) = EthereumTx.tx_hash t.
Proof. reflexivity. Qed.

Lemma assign_block t b r :
  EthereumTx.block (assign t b r) = Some (EthereumBlock.number b).
Proof. reflexivity. Qed.

Lemma filter_singleton_In {A} (p : A -> bool) l x y :
  filter p l = [x] -> In y l -> p y = true -> y = x.
Proof.
  intros Hf Hy Hp.
  assert (H : In y (filter p l)) by (apply filter_In; auto).
  rewrite Hf in H. destruct H as [H|[]]. auto.
Qed.

Lemma update_with_receipt_and_block_spec t b r db :
  filter (has_hash (EthereumTx.tx_hash t)) (ethereum_txs db) = [t] ->
  EthereumTxManager.__update_with_receipt_and_block clean_receipt_log t b r db
  = match EthereumTx.block t with
    | None => (Ok (assign t b r),
               mkDatabase (ethereum_blocks db)
                 (map (upgrade_row clean_receipt_log (EthereumTx.tx_hash t) b r)
                      (ethereum_txs db)))
    | Some _ => (Ok t, db)
    end.
Proof.
  intros Hget. unfold EthereumTxManager.__update_with_receipt_and_block.
  destruct (EthereumTx.block t) eqn:Eb; [reflexivity|].
  unfold bind, EthereumTxManager.save, ret. fold assign.
  rewrite assign_tx_hash.
  assert (Hex : existsb (fun x => (EthereumTx.tx_hash x =? EthereumTx.tx_hash t)%string)
                  (ethereum_txs db) = true).
  { apply existsb_exists. exists t. split; [|apply String.eqb_refl].
    assert (H : In t (filter (has_hash (EthereumTx.tx_hash t)) (ethereum_txs db)))
      by (rewrite Hget; now left).
    now apply filter_In in H. }
  rewrite Hex. f_equal. f_equal.
  apply map_ext_in. intros x Hx. unfold upgrade_row.
  destruct (EthereumTx.tx_hash x =? EthereumTx.tx_hash t)%string eqn:Ex; [|reflexivity].
  assert (x = t) as -> by (eapply filter_singleton_In; eauto).
  rewrite Eb. simpl. apply copy_receipt_fields.
Qed.

Lemma tx_create_spec t db :
  EthereumTxManager.create t db
  = if existsb (has_hash (EthereumTx.tx_hash t)) (ethereum_txs db)
    then (Raise IntegrityError, db)
    else (Ok t, mkDatabase (ethereum_blocks db) (ethereum_txs db ++ [t])).
Proof. reflexivity. Qed.

Lemma filter_nil_existsb {A} (p : A -> bool) l :
  filter p l = [] -> existsb p l = false.
Proof.
  induction l as [|x l IH]; simpl; auto.
  destruct (p x); [discriminate|]. auto.
Qed.

Lemma create_from_tx_dict_spec tx tx_receipt ethereum_block db r db' :
  EthereumTxManager.create_from_tx_dict clean_receipt_log tx tx_receipt ethereum_block db
  = (r, db') ->
  match r with
  | Ok t =>
      exists txd, tx = Some txd
        /\ EthereumTx.tx_hash t = Node.tx_hash txd
        /\ EthereumTx.block t = option_map EthereumBlock.number ethereum_block
        /\ existsb (has_hash (Node.tx_hash txd)) (ethereum_txs db) = false
        /\ db' = mkDatabase (ethereum_blocks db) (ethereum_txs db ++ [t])
  | Raise e => db' = db /\ storage_exn e = true
  end.
Proof.
  unfold EthereumTxManager.create_from_tx_dict, raise, bind, lift.
  destruct tx as [txd|]; [|intros [= <- <-]; auto].
  destruct (EthereumTxManager.tx_payload txd) as [d|e] eqn:Ep.
  2:{ intros [= <- <-]. split; auto. revert Ep. unfold EthereumTxManager.tx_payload.
      destruct (Node.tx_data txd) as [[|? ?]|]; destruct (Node.input txd);
        intros [= <-]; reflexivity. }
  rewrite tx_create_spec. simpl EthereumTx.tx_hash.
  destruct (existsb _ _) eqn:Ex; intros [= <- <-]; auto.
  exists txd. repeat split; auto.
Qed.

End TxManagerFacts.

Section StoreTx.
Variable clean_receipt_log : receipt_log -> receipt_log.

Let assign := EthereumTxManager.assign_receipt_and_block clean_receipt_log.
Let has_hash (h : string) (t : EthereumTx.t) : bool := (EthereumTx.tx_hash t =? h)%string.

Lemma filter_singleton_hash h l t :
  filter (has_hash h) l = [t] -> EthereumTx.tx_hash t = h.
Proof.
  intros Hf. assert (H : In t (filter (has_hash h) l)) by (rewrite Hf; now left).
  apply filter_In in H. destruct H as [_ H]. now apply String.eqb_eq in H.
Qed.

(** One pass of the writing loop, case by case. *)
Lemma store_tx_eq current dict tx r block db :
  EthereumTxManager.store_tx clean_receipt_log current dict (tx, r, block) db
  = match EthereumBlockManager.get_or_create_from_block block (Some current) db with
    | (Raise e, db1) => (Raise e, db1)
    | (Ok b, db1) =>
        match tx with
        | None => (Raise TypeError, db1)
        | Some txd =>
            match filter (has_hash (Node.tx_hash txd)) (ethereum_txs db1) with
            | [] =>
                match EthereumTxManager.create_from_tx_dict clean_receipt_log
                        tx (Some r) (Some b) db1 with
                | (Ok t, db2) => (Ok (dict_set dict (EthereumTx.tx_hash t) (Some t)), db2)
                | (Raise e, db2) => (Raise e, db2)
                end
            | [t] =>
                match EthereumTx.block t with
                | None =>
                    (Ok (dict_set dict (EthereumTx.tx_hash t) (Some (assign t b r))),
                     mkDatabase (ethereum_blocks db1)
                       (map (upgrade_row clean_receipt_log (Node.tx_hash txd) b r)
                            (ethereum_txs db1)))
                | Some _ => (Ok (dict_set dict (EthereumTx.tx_hash t) (Some t)), db1)
                end
            | _ => (Raise MultipleObjectsReturned, db1)
            end
        end
    end.
Proof.
  unfold EthereumTxManager.store_tx, bind at 1.
  destruct (EthereumBlockManager.get_or_create_from_block _ _ db) as [[b|e] db1];
    [|reflexivity].
  unfold try_except, bind at 1. destruct tx as [txd|]; [|reflexivity].
  unfold EthereumTxManager.get. fold (has_hash (Node.tx_hash txd)).
  destruct (filter _ (ethereum_txs db1)) as [|t [|t' l]] eqn:Ef.
  - simpl exn_eqb. cbv iota. unfold bind, ret.
    destruct (EthereumTxManager.create_from_tx_dict _ _ _ _ db1) as [[t|e] db2];
      reflexivity.
  - pose proof (filter_singleton_hash _ _ _ Ef) as Eh.
    unfold bind. rewrite update_with_receipt_and_block_spec
      by (unfold has_hash in Ef; rewrite Eh; exact Ef).
    rewrite <- Eh. unfold ret. destruct (EthereumTx.block t); reflexivity.
  - reflexivity.
Qed.

Lemma row_evolves_refl t : row_evolves clean_receipt_log t t.
Proof. now left. Qed.

Lemma row_evolves_hash t t' :
  row_evolves clean_receipt_log t t' -> EthereumTx.tx_hash t' = EthereumTx.tx_hash t.
Proof. intros [->|(_ & b & r & ->)]; reflexivity. Qed.

Lemma row_evolves_trans t1 t2 t3 :
  row_evolves clean_receipt_log t1 t2 -> row_evolves clean_receipt_log t2 t3 ->
  row_evolves clean_receipt_log t1 t3.
Proof.
  intros [->|(Hb & b & r & ->)]; auto.
  intros [->|(Hb' & _)].
  - right. eauto.
  - discriminate.
Qed.

Lemma Forall2_row_evolves_refl T : Forall2 (row_evolves clean_receipt_log) T T.
Proof. induction T; constructor; auto using row_evolves_refl. Qed.

Lemma Forall2_row_evolves_hashes T T' :
  Forall2 (row_evolves clean_receipt_log) T T' ->
  map EthereumTx.tx_hash T' = map EthereumTx.tx_hash T.
Proof.
  induction 1 as [|t t' T T' Ht _ IH]; simpl; auto.
  now rewrite IH, (row_evolves_hash _ _ Ht).
Qed.

Lemma Forall2_row_evolves_trans T1 T2 T3 :
  Forall2 (row_evolves clean_receipt_log) T1 T2 ->
  Forall2 (row_evolves clean_receipt_log) T2 T3 ->
  Forall2 (row_evolves clean_receipt_log) T1 T3.
Proof.
  intros H. revert T3. induction H as [|a b T1 T2 Hab _ IH]; intros T3 H23.
  - inversion H23. constructor.
  - inversion H23 as [|? c ? T3' Hbc Hrest]; subst.
    constructor; eauto using row_evolves_trans.
Qed.

Lemma table_evolves_refl T : table_evolves clean_receipt_log T T.
Proof.
  exists T, []. rewrite app_nil_r. repeat split; auto using Forall2_row_evolves_refl.
  constructor.
Qed.

Lemma table_evolves_trans T1 T2 T3 :
  table_evolves clean_receipt_log T1 T2 -> table_evolves clean_receipt_log T2 T3 ->
  table_evolves clean_receipt_log T1 T3.
Proof.
  intros (K1 & C1 & -> & HK1 & HC1 & HN1) (K2 & C2 & -> & HK2 & HC2 & HN2).
  apply Forall2_app_inv_l in HK2. destruct HK2 as (K2a & K2b & Ha & Hb & ->).
  exists K2a, (K2b ++ C2)%list. rewrite app_assoc. split; [reflexivity|].
  pose proof (Forall2_row_evolves_hashes _ _ HK1) as EK1.
  pose proof (Forall2_row_evolves_hashes _ _ Ha) as EK2a.
  pose proof (Forall2_row_evolves_hashes _ _ Hb) as EK2b.
  rewrite map_app, EK1 in HC2.
  split; [eauto using Forall2_row_evolves_trans|]. split.
  - apply Forall_app. split.
    + rewrite Forall_forall in *. intros c Hc.
      assert (Hin : In (EthereumTx.tx_hash c) (map EthereumTx.tx_hash C1)).
      { rewrite <- EK2b. now apply in_map. }
      apply in_map_iff in Hin. destruct Hin as (c1 & E1 & Hc1).
      rewrite <- E1. now apply HC1.
    + rewrite Forall_forall in *. intros c Hc Hin. apply (HC2 c Hc).
      apply in_or_app. now left.
  - rewrite map_app, EK2b. apply NoDup_app; auto.
    intros h Hh1 Hh2. apply in_map_iff in Hh2. destruct Hh2 as (c & <- & Hc).
    rewrite Forall_forall in HC2. apply (HC2 c Hc). apply in_or_app. now right.
Qed.

Lemma upgrade_row_evolves h b r t :
  row_evolves clean_receipt_log t (upgrade_row clean_receipt_log h b r t).
Proof.
  unfold upgrade_row. destruct (_ && _) eqn:E; [|now left].
  apply andb_true_iff in E. destruct E as [_ E].
  right. split; [destruct (EthereumTx.block t); congruence|eauto].
Qed.

Lemma map_upgrade_row_evolves h b r T :
  Forall2 (row_evolves clean_receipt_log) T (map (upgrade_row clean_receipt_log h b r) T).
Proof. induction T; simpl; constructor; auto using upgrade_row_evolves. Qed.

Lemma existsb_has_hash_false h T :
  existsb (has_hash h) T = false -> ~ In h (map EthereumTx.tx_hash T).
Proof.
  intros Hex Hin. apply in_map_iff in Hin. destruct Hin as (t & <- & Ht).
  assert (existsb (has_hash (EthereumTx.tx_hash t)) T = true).
  { apply existsb_exists. exists t. split; auto. apply String.eqb_refl. }
  congruence.
Qed.

(** One pass of the writing loop keeps the stored rows in place and only
    upgrades placeholders or appends a row under a new hash; it raises
    neither of the two resolution errors. *)
Lemma store_tx_evolves current dict item db res db' :
  EthereumTxManager.store_tx clean_receipt_log current dict item db = (res, db') ->
  table_evolves clean_receipt_log (ethereum_txs db) (ethereum_txs db')
  /\ forall e, res = Raise e -> storage_exn e = true.
Proof.
  destruct item as [[tx r] block]. rewrite store_tx_eq.
  destruct (EthereumBlockManager.get_or_create_from_block _ _ db) as [[b|e] db1] eqn:Eb;
    apply get_or_create_from_block_frame in Eb; destruct Eb as [Etxs He].
  2:{ intros [= <- <-]. rewrite Etxs. split; [apply table_evolves_refl|].
      intros e' [= <-]. now apply He. }
  rewrite <- Etxs. destruct tx as [txd|].
  2:{ intros [= <- <-]. split; [apply table_evolves_refl|]. intros e' [= <-]. reflexivity. }
  destruct (filter _ (ethereum_txs db1)) as [|t [|t' l]] eqn:Ef.
  - destruct (EthereumTxManager.create_from_tx_dict _ _ _ _ db1) as [[t|e] db2] eqn:Ec;
      apply create_from_tx_dict_spec in Ec.
    + destruct Ec as (txd' & [= <-] & Eh & _ & Hex & ->). intros [= <- <-].
      split; [|discriminate]. simpl.
      exists (ethereum_txs db1), [t]. repeat split; auto using Forall2_row_evolves_refl.
      * constructor; [|constructor]. rewrite Eh. now apply existsb_has_hash_false.
      * simpl. constructor; [intros []|constructor].
    + destruct Ec as [-> He']. intros [= <- <-].
      split; [apply table_evolves_refl|]. now intros e' [= <-].
  - destruct (EthereumTx.block t); intros [= <- <-]; (split; [|discriminate]).
    + apply table_evolves_refl.
    + simpl. exists (map (upgrade_row clean_receipt_log (Node.tx_hash txd) b r)
                         (ethereum_txs db1)), [].
      rewrite app_nil_r. repeat split; auto using map_upgrade_row_evolves; constructor.
  - intros [= <- <-]. split; [apply table_evolves_refl|]. intros e' [= <-]. reflexivity.
Qed.

Lemma for_fold_store_tx_evolves current items dict db res db' :
  for_fold (EthereumTxManager.store_tx clean_receipt_log current) items dict db
  = (res, db') ->
  table_evolves clean_receipt_log (ethereum_txs db) (ethereum_txs db')
  /\ forall e, res = Raise e -> storage_exn e = true.
Proof.
  revert dict db. induction items as [|item items IH]; intros dict db; simpl.
  - intros [= <- <-]. split; [apply table_evolves_refl|discriminate].
  - unfold bind.
    destruct (EthereumTxManager.store_tx _ _ dict item db) as [[d|e] db1] eqn:Es;
      apply store_tx_evolves in Es; destruct Es as [Hev He].
    + intros Hrest. apply IH in Hrest. destruct Hrest as [Hev' He'].
      split; eauto using table_evolves_trans.
    + intros [= <- <-]. split; auto.
Qed.

End StoreTx.

Section BatchFailure.
Variable client : EthereumClient.
Variable clean_receipt_log : receipt_log -> receipt_log.
Variable tx_hashes : list string.
Variable db : Database.

Let pending := EthereumTxManager.not_in_db (EthereumTxManager.search_in_database tx_hashes db).
Let receipts := combine pending (get_transaction_receipts client pending).
Let txs := combine pending (get_transactions client pending).
Let run := EthereumTxManager.create_or_update_from_tx_hashes client clean_receipt_log
             tx_hashes db.

Lemma run_receipts_raise e :
  try_map (EthereumTxManager.check_receipt client) receipts = Raise e ->
  run = (Raise e, db).
Proof.
  unfold run. rewrite create_or_update_from_tx_hashes_eq.
  unfold receipts, pending. destruct (EthereumTxManager.not_in_db _) as [|h l].
  - discriminate.
  - now intros ->.
Qed.

Lemma run_txs_raise rs e :
  try_map (EthereumTxManager.check_receipt client) receipts = Ok rs ->
  try_map (EthereumTxManager.check_tx client) txs = Raise e ->
  run = (Raise e, db).
Proof.
  unfold run. rewrite create_or_update_from_tx_hashes_eq.
  unfold receipts, txs, pending. destruct (EthereumTxManager.not_in_db _) as [|h l].
  - discriminate.
  - now intros -> ->.
Qed.

Lemma run_raise_inv e db' :
  run = (Raise e, db') -> storage_exn e = false ->
  db' = db
  /\ (try_map (EthereumTxManager.check_receipt client) receipts = Raise e
      \/ (exists rs, try_map (EthereumTxManager.check_receipt client) receipts = Ok rs
                     /\ try_map (EthereumTxManager.check_tx client) txs = Raise e)).
Proof.
  unfold run. rewrite create_or_update_from_tx_hashes_eq.
  unfold receipts, txs, pending. destruct (EthereumTxManager.not_in_db _) as [|h l].
  - discriminate.
  - destruct (try_map (EthereumTxManager.check_receipt client) _) as [rs|e1].
    2:{ intros [= <- <-]. auto. }
    destruct (try_map (EthereumTxManager.check_tx client) _) as [ns|e2].
    2:{ intros [= <- <-]. eauto. }
    destruct (for_fold _ _ _ db) as [[d|e3] db3] eqn:Ef; [discriminate|].
    intros [= <- <-] Hs. apply for_fold_store_tx_evolves in Ef.
    destruct Ef as [_ He]. rewrite (He e3 eq_refl) in Hs. discriminate.
Qed.

Lemma receipts_good_ok before :
  Forall (receipt_good client) before ->
  Forall (fun y => exists b, EthereumTxManager.check_receipt client y = Ok b) before.
Proof. apply Forall_impl. intros hr. apply check_receipt_good. Qed.

Lemma txs_good_ok before :
  Forall (tx_good client) before ->
  Forall (fun y => exists b, EthereumTxManager.check_tx client y = Ok b) before.
Proof. apply Forall_impl. intros ht. apply check_tx_good. Qed.

Lemma receipts_all_good :
  Forall (receipt_good client) receipts ->
  exists rs, try_map (EthereumTxManager.check_receipt client) receipts = Ok rs.
Proof.
  intros Hall. destruct (try_map_total (EthereumTxManager.check_receipt client) receipts)
    as [H|(e & He)]; auto.
  apply try_map_raise_inv in He. destruct He as (before & x & after & E & _ & Hx).
  rewrite E in Hall. apply Forall_app in Hall. destruct Hall as [_ Hall].
  inversion Hall as [|? ? Hgood _]; subst.
  apply check_receipt_good in Hgood. destruct Hgood as (r & Hr). congruence.
Qed.

(** C8 (as amended).  The batch fails with the error of the first failing
    item, receipts being checked in request order before transactions:
    [TransactionNotFoundException] when the item is still missing after
    the single retry, [TransactionWithoutBlockException] when it was found
    without block number.  When some receipt or transaction to fetch is
    missing or lacks a block number, one of the two errors is raised; a
    raised [TransactionNotFoundException] comes from a missing item and a
    raised [TransactionWithoutBlockException] from an item without block
    number; in every such case the database is the one before the call. *)
Theorem batch_fails_with_first_bad_item :
  (forall before hr after,
      receipts = (before ++ hr :: after)%list ->
      Forall (receipt_good client) before ->
      (receipt_missing client hr -> run = (Raise TransactionNotFoundException, db))
      /\ (receipt_without_block client hr ->
          run = (Raise TransactionWithoutBlockException, db)))
  /\ (Forall (receipt_good client) receipts ->
      forall before ht after,
        txs = (before ++ ht :: after)%list ->
        Forall (tx_good client) before ->
        (tx_missing client ht -> run = (Raise TransactionNotFoundException, db))
        /\ (tx_without_block client ht ->
            run = (Raise TransactionWithoutBlockException, db)))
  /\ (Exists (fun hr => ~ receipt_good client hr) receipts
      \/ Exists (fun ht => ~ tx_good client ht) txs ->
      run = (Raise TransactionNotFoundException, db)
      \/ run = (Raise TransactionWithoutBlockException, db))
  /\ (forall db', run = (Raise TransactionNotFoundException, db') ->
        db' = db
        /\ (Exists (receipt_missing client) receipts \/ Exists (tx_missing client) txs))
  /\ (forall db', run = (Raise TransactionWithoutBlockException, db') ->
        db' = db
        /\ (Exists (receipt_without_block client) receipts
            \/ Exists (tx_without_block client) txs)).
Proof.
  split; [|split; [|split; [|split]]].
  - intros before hr after E Hgood. split; intros Hbad; apply run_receipts_raise;
      rewrite E; apply try_map_first_failure; auto using receipts_good_ok.
    + now apply check_receipt_missing.
    + now apply check_receipt_without_block.
  - intros Hall before ht after E Hgood.
    destruct (receipts_all_good Hall) as (rs & Hrs).
    split; intros Hbad; apply (run_txs_raise rs); auto;
      rewrite E; apply try_map_first_failure; auto using txs_good_ok.
    + now apply check_tx_missing.
    + now apply check_tx_without_block.
  - intros Hbad.
    destruct (try_map_total (EthereumTxManager.check_receipt client) receipts)
      as [(rs & Hrs)|(e & He)].
    + destruct (try_map_total (EthereumTxManager.check_tx client) txs)
        as [(ns & Hns)|(e & He)].
      * exfalso. destruct Hbad as [Hbad|Hbad]; apply Exists_exists in Hbad;
          destruct Hbad as (x & Hx & Hnot); apply Hnot.
        -- apply try_map_ok_inv in Hrs. rewrite Forall_forall in Hrs.
           apply check_receipt_good. now apply Hrs.
        -- apply try_map_ok_inv in Hns. rewrite Forall_forall in Hns.
           apply check_tx_good. now apply Hns.
      * pose proof (run_txs_raise rs e Hrs He) as Hrun.
        apply try_map_raise_inv in He. destruct He as (_ & x & _ & _ & _ & Hx).
        apply check_tx_raises in Hx. destruct Hx as [[-> _]|[-> _]]; auto.
    + pose proof (run_receipts_raise e He) as Hrun.
      apply try_map_raise_inv in He. destruct He as (_ & x & _ & _ & _ & Hx).
      apply check_receipt_raises in Hx. destruct Hx as [[-> _]|[-> _]]; auto.
  - intros db' Hrun. apply run_raise_inv in Hrun; [|reflexivity].
    destruct Hrun as [-> [He|(rs & _ & He)]]; split; auto;
      apply try_map_raise_inv in He; destruct He as (before & x & after & E & _ & Hx).
    + left. apply Exists_exists. exists x. split.
      * rewrite E. apply in_or_app. right. now left.
      * now apply check_receipt_missing.
    + right. apply Exists_exists. exists x. split.
      * rewrite E. apply in_or_app. right. now left.
      * now apply check_tx_missing.
  - intros db' Hrun. apply run_raise_inv in Hrun; [|reflexivity].
    destruct Hrun as [-> [He|(rs & _ & He)]]; split; auto;
      apply try_map_raise_inv in He; destruct He as (before & x & after & E & _ & Hx).
    + left. apply Exists_exists. exists x. split.
      * rewrite E. apply in_or_app. right. now left.
      * now apply check_receipt_without_block.
    + right. apply Exists_exists. exists x. split.
      * rewrite E. apply in_or_app. right. now left.
      * now apply check_tx_without_block.
Qed.

End BatchFailure.

Lemma batch_fails_with_first_bad_item_witness :
  EthereumTxManager.create_or_update_from_tx_hashes sample_client (fun l => l)
    ["0x02"; "0x01"] empty_database
  = (Raise TransactionWithoutBlockException, empty_database).
Proof.
  apply (proj1 (batch_fails_with_first_bad_item sample_client (fun l => l)
                  ["0x02"; "0x01"] empty_database)
           [] ("0x02", Some sample_pending_receipt) [("0x01", None)]).
  - reflexivity.
  - constructor.
  - exists sample_pending_receipt. split; reflexivity.
Defined.

(** As C8 is worded, a found receipt without block number would make the
    call raise [TransactionWithoutBlockException]; with a missing receipt
    earlier in the request the call raises
    [TransactionNotFoundException]. *)
Lemma batch_error_is_of_first_item :
  let pending := EthereumTxManager.not_in_db
                   (EthereumTxManager.search_in_database ["0x01"; "0x02"] empty_database) in
  let receipts := combine pending (get_transaction_receipts sample_client pending) in
  ~ (Exists (receipt_without_block sample_client) receipts ->
     fst (EthereumTxManager.create_or_update_from_tx_hashes sample_client (fun l => l)
            ["0x01"; "0x02"] empty_database)
     = Raise TransactionWithoutBlockException).
Proof.
  intros pending receipts H.
  assert (Hex : Exists (receipt_without_block sample_client) receipts).
  { apply Exists_exists. exists ("0x02", Some sample_pending_receipt). split.
    - right. left. reflexivity.
    - exists sample_pending_receipt. split; reflexivity. }
  specialize (H Hex). vm_compute in H. discriminate.
Qed.

(* ================================================================== *)
(** * Upgrade of a placeholder transaction *)

Lemma block_create_from_block_not_missing block current db db' :
  EthereumBlockManager.create_from_block block current db <> (Raise DoesNotExist, db').
Proof.
  unfold EthereumBlockManager.create_from_block, EthereumBlockManager.create, raise.
  destruct block as [b|]; [|discriminate].
  destruct (existsb _ _); discriminate.
Qed.

Lemma get_or_create_from_block_number_not_missing client number db db' :
  EthereumBlockManager.get_or_create_from_block_number client number db
  <> (Raise DoesNotExist, db').
Proof.
  unfold EthereumBlockManager.get_or_create_from_block_number, try_except.
  destruct (EthereumBlockManager.get _ db) as [[b|e] db1]; [discriminate|].
  destruct (exn_eqb e DoesNotExist) eqn:E.
  - apply block_create_from_block_not_missing.
  - intros [= -> _]. discriminate.
Qed.

Section SingleHash.
Variable client : EthereumClient.
Variable clean_receipt_log : receipt_log -> receipt_log.

Let assign := EthereumTxManager.assign_receipt_and_block clean_receipt_log.
Let has_hash (h : string) (t : EthereumTx.t) : bool := (EthereumTx.tx_hash t =? h)%string.

(** [create_or_update_from_tx_hash], case by case. *)
Lemma create_or_update_from_tx_hash_eq h db :
  EthereumTxManager.create_or_update_from_tx_hash client clean_receipt_log h db
  = match filter (has_hash h) (ethereum_txs db) with
    | [] =>
        match get_transaction_receipt client h with
        | None => (Raise TypeError, db)
        | Some r =>
            match EthereumBlockManager.get_or_create_from_block_number client
                    (Node.blockNumber r) db with
            | (Raise e, db1) => (Raise e, db1)
            | (Ok b, db1) =>
                EthereumTxManager.create_from_tx_dict clean_receipt_log
                  (get_transaction client h) (Some r) (Some b) db1
            end
        end
    | [t] =>
        match EthereumTx.block t with
        | None =>
            match get_transaction_receipt client h with
            | None => (Raise TypeError, db)
            | Some r =>
                match EthereumBlockManager.get_or_create_from_block_number client
                        (Node.blockNumber r) db with
                | (Raise e, db1) => (Raise e, db1)
                | (Ok b, db1) =>
                    (Ok (assign t b r),
                     mkDatabase (ethereum_blocks db1)
                       (map (upgrade_row clean_receipt_log h b r) (ethereum_txs db1)))
                end
            end
        | Some _ => (Ok t, db)
        end
    | _ => (Raise MultipleObjectsReturned, db)
    end.
Proof.
  unfold EthereumTxManager.create_or_update_from_tx_hash, try_except, bind at 1.
  unfold EthereumTxManager.get. fold (has_hash h).
  destruct (filter _ (ethereum_txs db)) as [|t [|t' l]] eqn:Ef.
  - simpl exn_eqb. cbv iota.
    destruct (get_transaction_receipt client h) as [r|]; [|reflexivity].
    unfold bind. reflexivity.
  - pose proof (filter_singleton_hash _ _ _ Ef) as Eh.
    destruct (EthereumTx.block t) eqn:Eb; [reflexivity|].
    destruct (get_transaction_receipt client h) as [r|]; [|reflexivity].
    unfold bind.
    destruct (EthereumBlockManager.get_or_create_from_block_number _ _ db)
      as [[b|e] db1] eqn:Eg.
    + pose proof (get_or_create_from_block_number_frame _ _ _ _ _ Eg) as [Etxs _].
      rewrite update_with_receipt_and_block_spec
        by (unfold has_hash in Ef; rewrite Etxs, Eh; exact Ef).
      rewrite Eb, Eh. reflexivity.
    + destruct (exn_eqb e DoesNotExist) eqn:Ee; [|reflexivity].
      exfalso. destruct e; try discriminate.
      eapply get_or_create_from_block_number_not_missing; eauto.
  - reflexivity.
Qed.

Lemma create_or_update_from_tx_hash_evolves h db res db' :
  EthereumTxManager.create_or_update_from_tx_hash client clean_receipt_log h db
  = (res, db') ->
  table_evolves clean_receipt_log (ethereum_txs db) (ethereum_txs db').
Proof.
  rewrite create_or_update_from_tx_hash_eq.
  destruct (filter _ (ethereum_txs db)) as [|t [|t' l]] eqn:Ef.
  - destruct (get_transaction_receipt client h) as [r|].
    2:{ intros [= <- <-]. apply table_evolves_refl. }
    destruct (EthereumBlockManager.get_or_create_from_block_number _ _ db)
      as [[b|e] db1] eqn:Eg;
      apply get_or_create_from_block_number_frame in Eg; destruct Eg as [Etxs _];
      rewrite <- Etxs.
    2:{ intros [= <- <-]. apply table_evolves_refl. }
    intros Hc. apply create_from_tx_dict_spec in Hc. destruct res as [t|e].
    + destruct Hc as (txd & _ & Eh & _ & Hex & ->). simpl.
      exists (ethereum_txs db1), [t].
      repeat split; auto using Forall2_row_evolves_refl.
      * constructor; [|constructor]. rewrite Eh. now apply existsb_has_hash_false.
      * simpl. constructor; [intros []|constructor].
    + destruct Hc as [-> _]. apply table_evolves_refl.
  - destruct (EthereumTx.block t).
    { intros [= <- <-]. apply table_evolves_refl. }
    destruct (get_transaction_receipt client h) as [r|].
    2:{ intros [= <- <-]. apply table_evolves_refl. }
    destruct (EthereumBlockManager.get_or_create_from_block_number _ _ db)
      as [[b|e] db1] eqn:Eg;
      apply get_or_create_from_block_number_frame in Eg; destruct Eg as [Etxs _];
      rewrite <- Etxs; intros [= <- <-].
    + simpl. exists (map (upgrade_row clean_receipt_log h b r) (ethereum_txs db1)), [].
      rewrite app_nil_r. repeat split; auto using map_upgrade_row_evolves; constructor.
    + apply table_evolves_refl.
  - intros [= <- <-]. apply table_evolves_refl.
Qed.

End SingleHash.

Section EvolutionFacts.
Variable clean_receipt_log : receipt_log -> receipt_log.

Let assign := EthereumTxManager.assign_receipt_and_block clean_receipt_log.
Let has_hash (h : string) (t : EthereumTx.t) : bool := (EthereumTx.tx_hash t =? h)%string.

(** What an evolved row keeps: every column but the five receipt columns,
    and all of them when the row already had a block. *)
Lemma row_evolves_frame t t' :
  row_evolves clean_receipt_log t t' ->
  EthereumTx.tx_hash t' = EthereumTx.tx_hash t
  /\ EthereumTx._from t' = EthereumTx._from t
  /\ EthereumTx.gas t' = EthereumTx.gas t
  /\ EthereumTx.gas_price t' = EthereumTx.gas_price t
  /\ EthereumTx.data t' = EthereumTx.data t
  /\ EthereumTx.nonce t' = EthereumTx.nonce t
  /\ EthereumTx.to t' = EthereumTx.to t
  /\ EthereumTx.value t' = EthereumTx.value t
  /\ (EthereumTx.block t <> None -> t' = t)
  /\ (t' <> t -> EthereumTx.block t = None /\ EthereumTx.block t' <> None).
Proof.
  intros [->|(Hb & b & r & ->)].
  - repeat split; auto; congruence.
  - repeat split; auto; try congruence.
    simpl. discriminate.
Qed.

Lemma table_evolves_NoDup T T' :
  table_evolves clean_receipt_log T T' ->
  NoDup (map EthereumTx.tx_hash T) -> NoDup (map EthereumTx.tx_hash T').
Proof.
  intros (K & C & -> & HK & HC & HN) HT.
  rewrite map_app, (Forall2_row_evolves_hashes _ _ _ HK).
  apply NoDup_app; auto.
  intros h Hh1 Hh2. apply in_map_iff in Hh2. destruct Hh2 as (c & <- & Hc).
  rewrite Forall_forall in HC. now apply (HC c Hc).
Qed.

Lemma table_evolves_nth T T' i t :
  table_evolves clean_receipt_log T T' ->
  nth_error T i = Some t ->
  exists t', nth_error T' i = Some t' /\ row_evolves clean_receipt_log t t'.
Proof.
  intros (K & C & -> & HK & _). revert i.
  induction HK as [|a b T K Hab _ IH]; intros i.
  - destruct i; discriminate.
  - destruct i as [|i]; simpl.
    + intros [= <-]. eauto.
    + apply IH.
Qed.

Lemma table_evolves_length T T' :
  table_evolves clean_receipt_log T T' -> (List.length T <= List.length T')%nat.
Proof.
  intros (K & C & -> & HK & _). rewrite length_app, <- (Forall2_length HK). lia.
Qed.

Lemma table_evolves_In T T' t :
  table_evolves clean_receipt_log T T' -> In t T ->
  exists t', In t' T' /\ row_evolves clean_receipt_log t t'.
Proof.
  intros Hev Hin. apply In_nth_error in Hin. destruct Hin as (i & Hi).
  destruct (table_evolves_nth _ _ _ _ Hev Hi) as (t' & Hi' & Hr).
  exists t'. split; auto. eapply nth_error_In; eauto.
Qed.

(** A row that has a block stays in the table as it is. *)
Lemma table_evolves_keeps_mined T T' t :
  table_evolves clean_receipt_log T T' -> In t T -> EthereumTx.block t <> None ->
  In t T'.
Proof.
  intros Hev Hin Hb. destruct (table_evolves_In _ _ _ Hev Hin) as (t' & Hin' & Hr).
  apply row_evolves_frame in Hr.
  destruct Hr as (_ & _ & _ & _ & _ & _ & _ & _ & Hsame & _).
  now rewrite (Hsame Hb) in Hin'.
Qed.

Lemma NoDup_filter_hash T t :
  NoDup (map EthereumTx.tx_hash T) -> In t T ->
  filter (has_hash (EthereumTx.tx_hash t)) T = [t].
Proof.
  induction T as [|x T IH]; simpl; intros Hnd Hin; [destruct Hin|].
  inversion Hnd as [|? ? Hx HT]; subst.
  destruct Hin as [->|Hin].
  - unfold has_hash at 1. rewrite String.eqb_refl. f_equal.
    clear IH Hnd HT. induction T as [|y T IH]; simpl; auto.
    destruct (has_hash (EthereumTx.tx_hash t) y) eqn:E.
    + exfalso. apply Hx. left. unfold has_hash in E. now apply String.eqb_eq in E.
    + apply IH. intros H. apply Hx. now right.
  - destruct (has_hash (EthereumTx.tx_hash t) x) eqn:E; [|auto].
    exfalso. apply Hx. unfold has_hash in E. apply String.eqb_eq in E. rewrite E.
    now apply in_map.
Qed.

(** The writing loop, when it ends well, has upgraded every placeholder
    whose transaction it was given. *)
Lemma for_fold_store_tx_upgrades current items :
  forall dict db d db',
    for_fold (EthereumTxManager.store_tx clean_receipt_log current) items dict db
    = (Ok d, db') ->
    NoDup (map EthereumTx.tx_hash (ethereum_txs db)) ->
    forall txd r block t,
      In (Some txd, r, block) items ->
      In t (ethereum_txs db) ->
      EthereumTx.tx_hash t = Node.tx_hash txd ->
      EthereumTx.block t = None ->
      exists b r', In (assign t b r') (ethereum_txs db').
Proof.
  induction items as [|item items IH]; intros dict db d db' Hrun Hnd txd r block t
    Hitem Ht Eh Eb; [destruct Hitem|].
  simpl in Hrun. unfold bind in Hrun.
  destruct (EthereumTxManager.store_tx _ _ dict item db) as [[d1|e] db1] eqn:Es;
    [|discriminate].
  pose proof (store_tx_evolves _ _ _ _ _ _ _ Es) as [Hev1 _].
  pose proof (for_fold_store_tx_evolves _ _ _ _ _ _ _ Hrun) as [Hev2 _].
  assert (Hkeep : forall b0 r0, In (assign t b0 r0) (ethereum_txs db1) ->
                   exists b r', In (assign t b r') (ethereum_txs db')).
  { intros b0 r0 Hin. exists b0, r0.
    apply (table_evolves_keeps_mined _ _ _ Hev2 Hin). discriminate. }
  destruct Hitem as [->|Hitem].
  - rewrite store_tx_eq in Es.
    destruct (EthereumBlockManager.get_or_create_from_block _ _ db) as [[b|e] db0] eqn:Eg;
      [|discriminate].
    apply get_or_create_from_block_frame in Eg. destruct Eg as [Etxs _].
    pose proof (NoDup_filter_hash _ _ Hnd Ht) as Ef. unfold has_hash in Ef.
    rewrite Etxs, <- Eh, Ef, Eb in Es. injection Es as _ <-. simpl in Hkeep.
    apply (Hkeep b r). apply in_map_iff. exists t. split; auto.
    unfold upgrade_row. now rewrite String.eqb_refl, Eb.
  - destruct (table_evolves_In _ _ _ Hev1 Ht) as (t1 & Ht1 & [->|(_ & b0 & r0 & ->)]).
    + apply (IH d1 db1 d db' Hrun (table_evolves_NoDup _ _ Hev1 Hnd) txd r block t);
        auto.
    + now apply (Hkeep b0 r0).
Qed.

End EvolutionFacts.

Section Dictionaries.
Context {V : Type}.

Lemma dict_set_In_other (d : list (string * V)) k v h x :
  k <> h -> In (h, x) (dict_set d k v) <-> In (h, x) d.
Proof.
  intros Hne. induction d as [|[k' v'] d IH]; simpl.
  - split; [intros [[= ? ?]|[]]; congruence|intros []].
  - destruct (k' =? k)%string eqn:E; simpl.
    + apply String.eqb_eq in E. subst k'.
      split; (intros [[= ? ?]|H]; [congruence|now right]).
    + rewrite IH. reflexivity.
Qed.

Lemma dict_set_In_new (d : list (string * V)) k v : In (k, v) (dict_set d k v).
Proof.
  induction d as [|[k' v'] d IH]; simpl; auto.
  destruct (k' =? k)%string eqn:E; simpl; auto.
  apply String.eqb_eq in E. subst. now left.
Qed.

Lemma dict_fromkeys_In (keys : list string) (v : V) h :
  In h keys -> In (h, v) (dict_fromkeys keys v).
Proof.
  unfold dict_fromkeys.
  assert (H : forall acc, In h keys \/ In (h, v) acc ->
                In (h, v) (fold_left (fun d k => dict_set d k v) keys acc)).
  { induction keys as [|k keys IH]; simpl; intros acc [Hin|Hacc]; auto.
    - destruct Hin.
    - apply IH. destruct (String.eqb_spec k h) as [->|Hne].
      + right. apply dict_set_In_new.
      + destruct Hin as [->|Hin]; [congruence|auto].
    - apply IH. right. destruct (String.eqb_spec k h) as [->|Hne].
      + apply dict_set_In_new.
      + now apply dict_set_In_other. }
  intros Hin. apply H. now left.
Qed.

End Dictionaries.

Lemma zip3_In_first {A B C} (xs : list A) (ys : list B) (zs : list C) x :
  In x xs ->
  (List.length xs <= List.length ys)%nat -> (List.length xs <= List.length zs)%nat ->
  exists y z, In (x, y, z) (zip3 xs ys zs).
Proof.
  revert ys zs. induction xs as [|a xs IH]; intros ys zs Hin Hy Hz; [destruct Hin|].
  destruct ys as [|y ys]; [simpl in Hy; lia|].
  destruct zs as [|z zs]; [simpl in Hz; lia|].
  simpl in *. destruct Hin as [->|Hin].
  - exists y, z. now left.
  - destruct (IH ys zs Hin) as (y' & z' & H); try lia. exists y', z'. now right.
Qed.

Section BatchUpgrade.
Variable client : EthereumClient.
Variable clean_receipt_log : receipt_log -> receipt_log.

Let assign := EthereumTxManager.assign_receipt_and_block clean_receipt_log.

Lemma create_or_update_from_tx_hashes_evolves tx_hashes db res db' :
  EthereumTxManager.create_or_update_from_tx_hashes client clean_receipt_log tx_hashes db
  = (res, db') ->
  table_evolves clean_receipt_log (ethereum_txs db) (ethereum_txs db').
Proof.
  rewrite create_or_update_from_tx_hashes_eq.
  destruct (EthereumTxManager.not_in_db _) as [|h l].
  { intros [= <- <-]. apply table_evolves_refl. }
  destruct (try_map (EthereumTxManager.check_receipt client) _) as [rs|e].
  2:{ intros [= <- <-]. apply table_evolves_refl. }
  destruct (try_map (EthereumTxManager.check_tx client) _) as [ns|e].
  2:{ intros [= <- <-]. apply table_evolves_refl. }
  destruct (for_fold _ _ _ db) as [[d|e] db1] eqn:Ef;
    apply for_fold_store_tx_evolves in Ef; destruct Ef as [Hev _];
    intros [= <- <-]; exact Hev.
Qed.

(** A requested hash stored without block is among the hashes to fetch. *)
Lemma placeholder_is_pending tx_hashes db h :
  In h tx_hashes ->
  (forall t, In t (ethereum_txs db) -> EthereumTx.tx_hash t = h ->
             EthereumTx.block t = None) ->
  In h (EthereumTxManager.not_in_db (EthereumTxManager.search_in_database tx_hashes db)).
Proof.
  intros Hin Hplace. unfold EthereumTxManager.not_in_db.
  apply in_map_iff. exists (h, None). split; [reflexivity|].
  apply filter_In. split; [|reflexivity].
  unfold EthereumTxManager.search_in_database.
  set (rows := filter _ (ethereum_txs db)).
  assert (Hrows : forall t, In t rows -> EthereumTx.tx_hash t <> h).
  { intros t Ht E. apply filter_In in Ht. destruct Ht as [Ht Hb].
    apply andb_true_iff in Hb. destruct Hb as [_ Hb].
    rewrite (Hplace t Ht E) in Hb. discriminate. }
  pose proof (dict_fromkeys_In tx_hashes (@None EthereumTx.t) h Hin) as Hd.
  revert Hd. generalize (dict_fromkeys tx_hashes (@None EthereumTx.t)).
  induction rows as [|t rows IH]; simpl; intros d Hd; auto.
  apply IH.
  - intros t' Ht'. apply Hrows. now right.
  - apply dict_set_In_other; auto. apply Hrows. now left.
Qed.

(** With a node whose batch answers line up with the requests, a batch
    that ends well has upgraded every requested placeholder. *)
Lemma create_or_update_from_tx_hashes_upgrades tx_hashes db res db' :
  let pending :=
    EthereumTxManager.not_in_db (EthereumTxManager.search_in_database tx_hashes db) in
  EthereumTxManager.create_or_update_from_tx_hashes client clean_receipt_log tx_hashes db
  = (Ok res, db') ->
  NoDup (map EthereumTx.tx_hash (ethereum_txs db)) ->
  List.length (get_transaction_receipts client pending) = List.length pending ->
  Forall2 (fun h tx => exists txd, tx = Some txd /\ Node.tx_hash txd = h)
          pending (get_transactions client pending) ->
  (forall numbers, List.length (get_blocks client numbers) = List.length numbers) ->
  forall t,
    In t (ethereum_txs db) -> EthereumTx.block t = None ->
    In (EthereumTx.tx_hash t) tx_hashes ->
    exists b r, In (assign t b r) (ethereum_txs db').
Proof.
  intros pending Hrun Hnd Hlen_r Htxs Hlen_b t Ht Eb Hreq.
  assert (Hpend : In (EthereumTx.tx_hash t) pending).
  { apply placeholder_is_pending; auto. intros t' Ht' E.
    pose proof (NoDup_filter_hash _ _ Hnd Ht) as Ef.
    assert (t' = t) as ->; auto.
    eapply filter_singleton_In; eauto. now apply String.eqb_eq. }
  rewrite create_or_update_from_tx_hashes_eq in Hrun. fold pending in Hrun.
  destruct pending as [|h0 l0] eqn:Epend; [destruct Hpend|]. rewrite <- Epend in *.
  destruct (try_map (EthereumTxManager.check_receipt client) _) as [rs|e] eqn:Er;
    [|discriminate].
  destruct (try_map (EthereumTxManager.check_tx client) _) as [ns|e] eqn:En;
    [|discriminate].
  destruct (for_fold _ _ _ db) as [[d|e] db1] eqn:Ef; [|discriminate].
  injection Hrun as _ <-.
  apply try_map_ok_length in Er, En. rewrite length_combine in Er, En.
  pose proof (Forall2_length Htxs) as Hlen_t.
  assert (Htx : exists txd, In (Some txd) (get_transactions client pending)
                            /\ Node.tx_hash txd = EthereumTx.tx_hash t).
  { clear - Htxs Hpend. induction Htxs as [|h tx l l' (txd & -> & Eh) _ IH];
      [destruct Hpend|].
    destruct Hpend as [->|Hpend].
    - exists txd. split; [now left|auto].
    - destruct (IH Hpend) as (txd' & Hin & E). exists txd'. split; [now right|auto]. }
  destruct Htx as (txd & Hin & Eh).
  destruct (zip3_In_first (get_transactions client pending) rs
              (get_blocks client ns) (Some txd) Hin) as (r & block & Hitem).
  - rewrite Er. lia.
  - rewrite Hlen_b, En. lia.
  - eapply for_fold_store_tx_upgrades; eauto.
Qed.

End BatchUpgrade.

(** C7.  On a transaction table keyed by [tx_hash]:
    - whatever its outcome, a call of [create_or_update_from_tx_hashes] or
      [create_or_update_from_tx_hash] leaves every stored row in its place
      with its [tx_hash], [_from], [gas], [gas_price], [data], [nonce],
      [to] and [value]; a row that has a block is left as it is, a row
      that changes was a placeholder and now has the block and the receipt
      columns; rows are only added under hashes that were not stored, so
      [tx_hash] stays a key;
    - [create_or_update_from_tx_hash] on a stored placeholder whose receipt
      and block are obtained answers the upgraded row and writes it over
      the placeholder, the number of rows unchanged; on a row that has a
      block it answers the row and writes nothing;
    - a batch that ends well, with a node whose batch answers line up with
      the requests, has upgraded every requested placeholder. *)
Theorem placeholder_upgraded_in_place :
  forall (client : EthereumClient) (clean_receipt_log : receipt_log -> receipt_log)
         (db : Database),
    NoDup (map EthereumTx.tx_hash (ethereum_txs db)) ->
    let assign := EthereumTxManager.assign_receipt_and_block clean_receipt_log in
    let evolved T' :=
      NoDup (map EthereumTx.tx_hash T')
      /\ forall i t,
           nth_error (ethereum_txs db) i = Some t ->
           exists t',
             nth_error T' i = Some t'
             /\ EthereumTx.tx_hash t' = EthereumTx.tx_hash t
             /\ EthereumTx._from t' = EthereumTx._from t
             /\ EthereumTx.gas t' = EthereumTx.gas t
             /\ EthereumTx.gas_price t' = EthereumTx.gas_price t
             /\ EthereumTx.data t' = EthereumTx.data t
             /\ EthereumTx.nonce t' = EthereumTx.nonce t
             /\ EthereumTx.to t' = EthereumTx.to t
             /\ EthereumTx.value t' = EthereumTx.value t
             /\ (EthereumTx.block t <> None -> t' = t)
             /\ (t' <> t ->
                 EthereumTx.block t = None /\ exists b r, t' = assign t b r) in
    (forall tx_hashes res db',
        EthereumTxManager.create_or_update_from_tx_hashes client clean_receipt_log
          tx_hashes db = (res, db') ->
        evolved (ethereum_txs db'))
    /\ (forall tx_hash res db',
          EthereumTxManager.create_or_update_from_tx_hash client clean_receipt_log
            tx_hash db = (res, db') ->
          evolved (ethereum_txs db'))
    /\ (forall t r b db1,
          In t (ethereum_txs db) ->
          EthereumTx.block t = None ->
          get_transaction_receipt client (EthereumTx.tx_hash t) = Some r ->
          EthereumBlockManager.get_or_create_from_block_number client
            (Node.blockNumber r) db = (Ok b, db1) ->
          exists db',
            EthereumTxManager.create_or_update_from_tx_hash client clean_receipt_log
              (EthereumTx.tx_hash t) db = (Ok (assign t b r), db')
            /\ In (assign t b r) (ethereum_txs db')
            /\ List.length (ethereum_txs db') = List.length (ethereum_txs db)
            /\ EthereumTx.block (assign t b r) = Some (EthereumBlock.number b)
            /\ EthereumTx.gas_used (assign t b r) = Some (Node.receipt_gasUsed r)
            /\ EthereumTx.logs (assign t b r)
               = Some (map clean_receipt_log (Node.logs r))
            /\ EthereumTx.status (assign t b r) = Node.status r
            /\ EthereumTx.transaction_index (assign t b r)
               = Some (Node.transactionIndex r))
    /\ (forall t,
          In t (ethereum_txs db) ->
          EthereumTx.block t <> None ->
          EthereumTxManager.create_or_update_from_tx_hash client clean_receipt_log
            (EthereumTx.tx_hash t) db = (Ok t, db))
    /\ (forall tx_hashes res db',
          let pending :=
            EthereumTxManager.not_in_db
              (EthereumTxManager.search_in_database tx_hashes db) in
          EthereumTxManager.create_or_update_from_tx_hashes client clean_receipt_log
            tx_hashes db = (Ok res, db') ->
          List.length (get_transaction_receipts client pending) = List.length pending ->
          Forall2 (fun h tx => exists txd, tx = Some txd /\ Node.tx_hash txd = h)
                  pending (get_transactions client pending) ->
          (forall numbers,
              List.length (get_blocks client numbers) = List.length numbers) ->
          forall t,
            In t (ethereum_txs db) -> EthereumTx.block t = None ->
            In (EthereumTx.tx_hash t) tx_hashes ->
            exists b r, In (assign t b r) (ethereum_txs db')).
Proof.
  intros client clean_receipt_log db Hnd assign evolved.
  assert (Hev : forall T', table_evolves clean_receipt_log (ethereum_txs db) T' ->
                  evolved T').
  { intros T' H. split; [eapply table_evolves_NoDup; eauto|].
    intros i t Hi. destruct (table_evolves_nth _ _ _ _ _ H Hi) as (t' & Hi' & Hr).
    exists t'. split; [exact Hi'|].
    pose proof (row_evolves_frame _ _ _ Hr)
      as (H1 & H2 & H3 & H4 & H5 & H6 & H7 & H8 & H9 & H10).
    repeat (split; [assumption|]).
    intros Hne. destruct Hr as [->|(Hb & b & r & ->)]; [congruence|eauto]. }
  split; [|split; [|split; [|split]]].
  - intros tx_hashes res db' Hrun. apply Hev.
    eapply create_or_update_from_tx_hashes_evolves; eauto.
  - intros tx_hash res db' Hrun. apply Hev.
    eapply create_or_update_from_tx_hash_evolves; eauto.
  - intros t r b db1 Ht Eb Hr Hg.
    rewrite create_or_update_from_tx_hash_eq.
    rewrite (NoDup_filter_hash _ _ Hnd Ht), Eb, Hr, Hg.
    eexists. split; [reflexivity|].
    apply get_or_create_from_block_number_frame in Hg. destruct Hg as [-> _].
    simpl. rewrite length_map. repeat split; auto.
    apply in_map_iff. exists t. split; auto.
    unfold upgrade_row. now rewrite String.eqb_refl, Eb.
  - intros t Ht Hb. rewrite create_or_update_from_tx_hash_eq.
    rewrite (NoDup_filter_hash _ _ Hnd Ht).
    destruct (EthereumTx.block t); [reflexivity|congruence].
  - intros tx_hashes res db' pending Hrun Hlen Htxs Hblocks t Ht Eb Hreq.
    eapply create_or_update_from_tx_hashes_upgrades; eauto.
Qed.

Lemma placeholder_upgraded_in_place_witness :
  EthereumTxManager.create_or_update_from_tx_hash sample_mined_client (fun l => l)
    "0xaa" sample_placeholder_db
  = (Ok (EthereumTx.mk (Some 5) "0xaa" (Some 21000) (Some 1) (Some []) (Some 3)
           (Some "0xSender") 100000 1 (Some []) 2 (Some "0xSafe") 7),
     mkDatabase
       [EthereumBlock.mk 5 8000000 21000 1600000000 "0xb5" "0xb4" true]
       [EthereumTx.mk (Some 5) "0xaa" (Some 21000) (Some 1) (Some []) (Some 3)
          (Some "0xSender") 100000 1 (Some []) 2 (Some "0xSafe") 7])
  /\ exists b r,
       In (EthereumTxManager.assign_receipt_and_block (fun l => l) sample_placeholder b r)
          (ethereum_txs
             (snd (EthereumTxManager.create_or_update_from_tx_hashes sample_mined_client
                     (fun l => l) ["0xaa"] sample_placeholder_db))).
Proof.
  assert (Hnd : NoDup (map EthereumTx.tx_hash (ethereum_txs sample_placeholder_db))).
  { simpl. constructor; [intros []|constructor]. }
  destruct (placeholder_upgraded_in_place sample_mined_client (fun l => l)
              sample_placeholder_db Hnd) as (_ & _ & Hsingle & _ & Hbatch).
  split.
  - destruct (Hsingle sample_placeholder sample_receipt
                (EthereumBlock.mk 5 8000000 21000 1600000000 "0xb5" "0xb4" true)
                (mkDatabase
                   [EthereumBlock.mk 5 8000000 21000 1600000000 "0xb5" "0xb4" true]
                   [sample_placeholder]))
      as (db' & Hrun & _).
    + left. reflexivity.
    + reflexivity.
    + reflexivity.
    + reflexivity.
    + simpl EthereumTx.tx_hash in Hrun. rewrite Hrun. vm_compute in Hrun.
      injection Hrun as <-. reflexivity.
  - destruct (EthereumTxManager.create_or_update_from_tx_hashes sample_mined_client
                (fun l => l) ["0xaa"] sample_placeholder_db) as [res db'] eqn:Hrun.
    assert (Hres : exists txs, res = Ok txs).
    { vm_compute in Hrun. injection Hrun as <- _. eauto. }
    destruct Hres as (txs & ->).
    apply (Hbatch ["0xaa"] txs db' Hrun); try reflexivity.
    + repeat constructor. exists sample_node_tx. split; reflexivity.
    + intros numbers. simpl. apply length_map.
    + left. reflexivity.
    + left. reflexivity.
Defined.

(** The writing loop takes the transactions from the batch answer: one
    that only the single retry found passes the checks and then stops the
    loop. *)
Remark transaction_found_by_retry_is_not_stored :
  EthereumTxManager.create_or_update_from_tx_hashes sample_retry_client (fun l => l)
    ["0xaa"] sample_placeholder_db
  = (Raise TypeError,
     mkDatabase [EthereumBlock.mk 5 8000000 21000 1600000000 "0xb5" "0xb4" true]
                [sample_placeholder]).
Proof. reflexivity. Qed.

(* ================================================================== *)
(** * Block store: get or create, confirmation *)

Section BlockStore.

Let with_number (n : Z) (b : EthereumBlock.t) : bool := EthereumBlock.number b =? n.

Lemma block_get_spec number db r db' :
  EthereumBlockManager.get number db = (r, db') ->
  db' = db
  /\ match r with
     | Ok b => exists n, number = Some n
                         /\ filter (with_number n) (ethereum_blocks db) = [b]
     | Raise e =>
         (e = DoesNotExist
          /\ match number with
             | Some n => filter (with_number n) (ethereum_blocks db) = []
             | None => True
             end)
         \/ e = MultipleObjectsReturned
     end.
Proof.
  unfold EthereumBlockManager.get. destruct number as [n|].
  - fold (with_number n).
    destruct (filter _ _) as [|b [|b' l]] eqn:Ef; intros [= <- <-]; eauto.
  - assert (E : filter (fun _ : EthereumBlock.t => false) (ethereum_blocks db) = []).
    { induction (ethereum_blocks db); auto. }
    rewrite E. intros [= <- <-]. auto.
Qed.

Lemma filter_app_singleton {A} (p : A -> bool) l x :
  filter p l = [] -> p x = true -> filter p (l ++ [x]) = [x].
Proof. intros Hl Hx. rewrite filter_app, Hl. simpl. now rewrite Hx. Qed.

(** What a successful [get_or_create_from_block] leaves: the block is the
    one stored under the number, and the table is the old one or the old
    one with the block at its end. *)
Lemma get_or_create_from_block_ok block current db b db' :
  EthereumBlockManager.get_or_create_from_block block current db = (Ok b, db') ->
  exists blk,
    block = Some blk
    /\ EthereumBlock.number b = Node.number blk
    /\ filter (with_number (Node.number blk)) (ethereum_blocks db') = [b]
    /\ ethereum_txs db' = ethereum_txs db
    /\ ((db' = db /\ filter (with_number (Node.number blk)) (ethereum_blocks db) = [b])
        \/ (ethereum_blocks db' = (ethereum_blocks db ++ [b])%list
            /\ filter (with_number (Node.number blk)) (ethereum_blocks db) = []
            /\ b = EthereumBlock.mk (Node.number blk) (Node.gasLimit blk)
                     (Node.gasUsed blk) (Node.timestamp blk) (Node.hash blk)
                     (Node.parentHash blk)
                     match current with
                     | Some c => c - Node.number blk >=? 6
                     | None => false
                     end
            /\ Forall (fun b' => EthereumBlock.block_hash b' <> Node.hash blk
                                 /\ EthereumBlock.parent_hash b' <> Node.parentHash blk)
                      (ethereum_blocks db))).
Proof.
  unfold EthereumBlockManager.get_or_create_from_block, try_except, raise.
  destruct block as [blk|]; [|discriminate].
  destruct (EthereumBlockManager.get _ db) as [[b0|e] db1] eqn:Eg;
    apply block_get_spec in Eg; destruct Eg as [-> Hg].
  - intros [= <- <-]. destruct Hg as (n & [= <-] & Hf).
    exists blk. repeat split; auto.
    assert (H : In b0 (filter (with_number (Node.number blk)) (ethereum_blocks db)))
      by (rewrite Hf; now left).
    apply filter_In in H. destruct H as [_ H]. now apply Z.eqb_eq in H.
  - destruct Hg as [[-> Hf] | ->]; [|discriminate]. simpl exn_eqb. cbv iota.
    unfold EthereumBlockManager.create_from_block, EthereumBlockManager.create.
    destruct (existsb _ (ethereum_blocks db)) eqn:Ex; [discriminate|].
    intros [= <- <-]. exists blk. simpl. repeat split; auto.
    + apply filter_app_singleton; auto. unfold with_number. simpl. apply Z.eqb_refl.
    + right. repeat split; auto.
      apply Forall_forall. intros b' Hb'.
      assert (Hn : forall p, existsb p (ethereum_blocks db) = false -> p b' = false).
      { intros p Hp. destruct (p b') eqn:E; auto.
        assert (existsb p (ethereum_blocks db) = true)
          by (apply existsb_exists; eauto). congruence. }
      specialize (Hn _ Ex). simpl in Hn.
      apply orb_false_iff in Hn. destruct Hn as [Hn Hp].
      apply orb_false_iff in Hn. destruct Hn as [_ Hh].
      apply String.eqb_neq in Hh, Hp. auto.
Qed.

Lemma get_or_create_from_block_hit blk current db b :
  filter (with_number (Node.number blk)) (ethereum_blocks db) = [b] ->
  EthereumBlockManager.get_or_create_from_block (Some blk) current db = (Ok b, db).
Proof.
  intros Hf. unfold EthereumBlockManager.get_or_create_from_block, try_except,
    EthereumBlockManager.get.
  fold (with_number (Node.number blk)). now rewrite Hf.
Qed.

End BlockStore.

(** X1.  [get_or_create_from_block] is idempotent: after a call that
    answered a block, a call for the same node block answers the same
    stored block and writes nothing, whatever head it is given; the
    [confirmed] flag of a stored block is not computed again. *)
Theorem get_or_create_from_block_idempotent :
  forall block current db b db',
    EthereumBlockManager.get_or_create_from_block block current db = (Ok b, db') ->
    forall current',
      EthereumBlockManager.get_or_create_from_block block current' db' = (Ok b, db').
Proof.
  intros block current db b db' Hrun current'.
  destruct (get_or_create_from_block_ok _ _ _ _ _ Hrun) as (blk & -> & _ & Hf & _).
  now apply get_or_create_from_block_hit.
Qed.

Lemma get_or_create_from_block_idempotent_witness :
  EthereumBlockManager.get_or_create_from_block (Some sample_block) (Some 200)
    (mkDatabase [EthereumBlock.mk 5 8000000 21000 1600000000 "0xb5" "0xb4" false] [])
  = (Ok (EthereumBlock.mk 5 8000000 21000 1600000000 "0xb5" "0xb4" false),
     mkDatabase [EthereumBlock.mk 5 8000000 21000 1600000000 "0xb5" "0xb4" false] []).
Proof.
  apply (get_or_create_from_block_idempotent (Some sample_block) (Some 8) empty_database).
  reflexivity.
Defined.

Lemma NoDup_map_app_fresh {A B} (f : A -> B) l x :
  NoDup (map f l) -> Forall (fun y => f y <> f x) l -> NoDup (map f (l ++ [x])).
Proof.
  intros Hnd Hall. rewrite map_app. apply NoDup_app; auto.
  - simpl. constructor; [intros []|constructor].
  - intros y Hy [<-|[]]. apply in_map_iff in Hy. destruct Hy as (z & E & Hz).
    rewrite Forall_forall in Hall. now apply (Hall z Hz).
Qed.

Lemma filter_nil_Forall {A} (p : A -> bool) l :
  filter p l = [] -> Forall (fun y => p y = false) l.
Proof.
  induction l as [|x l IH]; simpl; [constructor|].
  destruct (p x) eqn:E; [discriminate|]. intros H. constructor; auto.
Qed.

(** X2.  [get_or_create_from_block] keeps the block table keyed: numbers,
    block hashes and parent hashes stay unique; the stored blocks stay as
    they are and in place, and at most one block is added, at the end. *)
Theorem get_or_create_from_block_keeps_blocks_unique :
  forall block current db r db',
    blocks_unique (ethereum_blocks db) ->
    EthereumBlockManager.get_or_create_from_block block current db = (r, db') ->
    blocks_unique (ethereum_blocks db')
    /\ ethereum_txs db' = ethereum_txs db
    /\ (ethereum_blocks db' = ethereum_blocks db
        \/ exists b, r = Ok b /\ ethereum_blocks db' = (ethereum_blocks db ++ [b])%list).
Proof.
  intros block current db r db' Huniq Hrun.
  destruct r as [b|e].
  - destruct (get_or_create_from_block_ok _ _ _ _ _ Hrun)
      as (blk & -> & _ & _ & Htxs & [[-> _]|(Hb & Hf & -> & Hfresh)]).
    + auto.
    + split; [|split; [exact Htxs|right; eauto]].
      rewrite Hb. destruct Huniq as (Hn & Hh & Hp). unfold blocks_unique.
      rewrite Forall_forall in Hfresh.
      repeat split; apply NoDup_map_app_fresh; auto; apply Forall_forall;
        intros y Hy; simpl.
      * apply filter_nil_Forall in Hf. rewrite Forall_forall in Hf.
        specialize (Hf y Hy). now apply Z.eqb_neq in Hf.
      * now apply Hfresh.
      * now apply Hfresh.
  - assert (Hsame : db' = db).
    { revert Hrun. unfold EthereumBlockManager.get_or_create_from_block, try_except, raise.
      destruct block as [blk|]; [|now intros [= _ <-]].
      destruct (EthereumBlockManager.get _ db) as [[b0|e0] db1] eqn:Eg;
        apply block_get_spec in Eg; destruct Eg as [-> _]; [discriminate|].
      destruct (exn_eqb e0 DoesNotExist); [|now intros [= _ <-]].
      unfold EthereumBlockManager.create_from_block, EthereumBlockManager.create.
      destruct (existsb _ _); [now intros [= _ <-]|discriminate]. }
    subst db'. auto.
Qed.

Lemma get_or_create_from_block_keeps_blocks_unique_witness :
  blocks_unique
    (ethereum_blocks
       (snd (EthereumBlockManager.get_or_create_from_block (Some sample_block) (Some 8)
               (mkDatabase
                  [EthereumBlock.mk 6 8000000 21000 1600000015 "0xb6" "0xb5x" true] [])))).
Proof.
  destruct (EthereumBlockManager.get_or_create_from_block _ _ _) as [r db'] eqn:Hrun.
  apply (get_or_create_from_block_keeps_blocks_unique _ _ _ _ _) in Hrun.
  - exact (proj1 Hrun).
  - unfold blocks_unique. simpl.
    repeat split; (constructor; [intros []|constructor]).
Defined.



Lemma number_leb_total (a b : EthereumBlock.t) :
  (EthereumBlock.number a <=? EthereumBlock.number b) = true
  \/ (EthereumBlock.number b <=? EthereumBlock.number a) = true.
Proof. rewrite !Z.leb_le. lia. Qed.

Lemma number_leb_trans (a b c : EthereumBlock.t) :
  (EthereumBlock.number a <=? EthereumBlock.number b) = true ->
  (EthereumBlock.number b <=? EthereumBlock.number c) = true ->
  (EthereumBlock.number a <=? EthereumBlock.number c) = true.
Proof. rewrite !Z.leb_le. lia. Qed.

Lemma not_confirmed_eq to_block_number self :
  EthereumBlockQuerySet.not_confirmed to_block_number self
  = order_by (fun a b => EthereumBlock.number a <=? EthereumBlock.number b)
      (filter (fun b => negb (EthereumBlock.confirmed b)
                        && match to_block_number with
                           | Some n => EthereumBlock.number b <=? n
                           | None => true
                           end) self).
Proof.
  unfold EthereumBlockQuerySet.not_confirmed. f_equal.
  destruct to_block_number as [n|].
  - induction self as [|b l IH]; simpl; auto.
    destruct (EthereumBlock.confirmed b); simpl; auto.
    destruct (EthereumBlock.number b <=? n); simpl; now rewrite IH.
  - apply filter_ext. intros b. now rewrite andb_true_r.
Qed.

(** X4.  [not_confirmed] answers exactly the stored blocks that are not
    confirmed and, when a bound is given, whose number is at most the
    bound, each as often as it is stored, in ascending order of number. *)
Theorem not_confirmed_exact_and_sorted :
  forall (to_block_number : option Z) (self : list EthereumBlock.t),
    let found := EthereumBlockQuerySet.not_confirmed to_block_number self in
    (forall b,
        In b found
        <-> In b self
            /\ EthereumBlock.confirmed b = false
            /\ match to_block_number with
               | Some n => EthereumBlock.number b <= n
               | None => True
               end)
    /\ Permutation found
         (filter (fun b => negb (EthereumBlock.confirmed b)
                           && match to_block_number with
                              | Some n => EthereumBlock.number b <=? n
                              | None => true
                              end) self)
    /\ StronglySorted (fun a b => EthereumBlock.number a <= EthereumBlock.number b) found.
Proof.
  intros to_block_number self found. subst found. rewrite not_confirmed_eq.
  split; [|split].
  - intros b. rewrite order_by_In, filter_In, andb_true_iff, negb_true_iff.
    destruct to_block_number as [n|]; [rewrite Z.leb_le|]; tauto.
  - apply order_by_perm.
  - apply (StronglySorted_weaken
             (holds (fun a b => EthereumBlock.number a <=? EthereumBlock.number b))).
    + unfold holds. intros a b. now rewrite Z.leb_le.
    + apply order_by_sorted; [exact number_leb_total|exact number_leb_trans].
Qed.

Lemma filter_map_replace {A} (p q : A -> bool) (c : A) (l : list A) :
  p c = false ->
  filter p (map (fun x => if q x then c else x) l)
  = filter (fun x => negb (q x)) (filter p l).
Proof.
  intros Hc. induction l as [|x l IH]; simpl; auto.
  destruct (q x) eqn:Eq.
  - rewrite Hc, IH. destruct (p x); simpl; auto. now rewrite Eq.
  - rewrite IH. destruct (p x); simpl; auto. now rewrite Eq.
Qed.

Lemma filter_comm {A} (p q : A -> bool) (l : list A) :
  filter p (filter q l) = filter q (filter p l).
Proof.
  induction l as [|x l IH]; simpl; auto.
  destruct (p x) eqn:Ep, (q x) eqn:Eq; simpl; rewrite ?Ep, ?Eq, IH; reflexivity.
Qed.

(** X5.  [set_confirmed] on a stored block of a keyed table writes the
    flag over that block only, and from then on [not_confirmed] leaves the
    block out and answers the other blocks as before. *)
Theorem set_confirmed_leaves_not_confirmed :
  forall (self : EthereumBlock.t) (db : Database),
    blocks_unique (ethereum_blocks db) ->
    In self (ethereum_blocks db) ->
    exists self' db',
      EthereumBlockMethods.set_confirmed self db = (Ok self', db')
      /\ EthereumBlock.confirmed self' = true
      /\ EthereumBlock.number self' = EthereumBlock.number self
      /\ ethereum_txs db' = ethereum_txs db
      /\ ethereum_blocks db'
         = map (fun b => if EthereumBlock.number b =? EthereumBlock.number self
                         then self' else b) (ethereum_blocks db)
      /\ forall to_block_number,
           EthereumBlockQuerySet.not_confirmed to_block_number (ethereum_blocks db')
           = filter (fun b => negb (EthereumBlock.number b =? EthereumBlock.number self))
               (EthereumBlockQuerySet.not_confirmed to_block_number (ethereum_blocks db)).
Proof.
  intros self db (Hn & Hh & Hp) Hin.
  unfold EthereumBlockMethods.set_confirmed, bind, EthereumBlockMethods.save, ret.
  simpl EthereumBlock.number. simpl EthereumBlock.block_hash.
  simpl EthereumBlock.parent_hash.
  assert (Hfree : existsb
            (fun b => negb (EthereumBlock.number b =? EthereumBlock.number self)
                      && ((EthereumBlock.block_hash b =? EthereumBlock.block_hash self)%string
                          || (EthereumBlock.parent_hash b
                              =? EthereumBlock.parent_hash self)%string))
            (ethereum_blocks db) = false).
  { destruct (existsb _ _) eqn:Ex; auto. exfalso.
    apply existsb_exists in Ex. destruct Ex as (b & Hb & Hc).
    apply andb_true_iff in Hc. destruct Hc as [Hne Hc].
    apply negb_true_iff, Z.eqb_neq in Hne. apply Hne.
    apply orb_true_iff in Hc. destruct Hc as [Hc|Hc]; apply String.eqb_eq in Hc.
    - now rewrite (NoDup_map_eq EthereumBlock.block_hash _ b self Hh Hb Hin Hc).
    - now rewrite (NoDup_map_eq EthereumBlock.parent_hash _ b self Hp Hb Hin Hc). }
  rewrite Hfree.
  assert (Hex : existsb (fun b => EthereumBlock.number b =? EthereumBlock.number self)
                  (ethereum_blocks db) = true).
  { apply existsb_exists. exists self. split; auto. apply Z.eqb_refl. }
  rewrite Hex. eexists. eexists. split; [reflexivity|]. simpl.
  repeat split; auto.
  intros to_block_number. rewrite !not_confirmed_eq.
  rewrite (order_by_filter _ number_leb_total number_leb_trans). f_equal.
  apply filter_map_replace. reflexivity.
Qed.

Lemma set_confirmed_leaves_not_confirmed_witness :
  EthereumBlockQuerySet.not_confirmed (Some 6)
    (ethereum_blocks
       (snd (EthereumBlockMethods.set_confirmed
               (EthereumBlock.mk 5 8000000 21000 1600000000 "0xb5" "0xb4" false)
               (mkDatabase sample_blocks []))))
  = [].
Proof.
  destruct (set_confirmed_leaves_not_confirmed
              (EthereumBlock.mk 5 8000000 21000 1600000000 "0xb5" "0xb4" false)
              (mkDatabase sample_blocks []))
    as (self' & db' & Hrun & _ & _ & _ & _ & Hq).
  - unfold blocks_unique. simpl.
    repeat split; repeat (constructor; [simpl; intuition discriminate|]); constructor.
  - right. left. reflexivity.
  - rewrite Hrun. simpl snd. rewrite Hq. reflexivity.
Defined.

(* ================================================================== *)
(** * Decoding queue: an operation marked as processed *)

Lemma filter_map_update {A} (p q : A -> bool) (h : A -> A) (l : list A) :
  (forall x, q x = true -> p (h x) = false) ->
  filter p (map (fun x => if q x then h x else x) l)
  = filter (fun x => negb (q x)) (filter p l).
Proof.
  intros Hh. induction l as [|x l IH]; simpl; auto.
  destruct (q x) eqn:Eq.
  - rewrite (Hh x Eq), IH. destruct (p x); simpl; auto. now rewrite Eq.
  - rewrite IH. destruct (p x); simpl; auto. now rewrite Eq.
Qed.

(** X6.  [set_processed] on a stored operation writes the flag and nothing
    else, and from then on [pending_for_safes] leaves the operation out
    and answers the other operations in the order they had. *)
Theorem set_processed_leaves_queue :
  forall (safe_contracts : list SafeContract.t) (self : InternalTxDecoded.t)
         (table : list InternalTxDecoded.t),
    In (decoded_pk self) (map decoded_pk table) ->
    exists self' table',
      InternalTxDecodedMethods.set_processed self table = (Ok self', table')
      /\ InternalTxDecoded.processed self' = true
      /\ decoded_pk self' = decoded_pk self
      /\ map (fun d => (InternalTxDecoded.internal_tx d,
                        InternalTxDecoded.function_name d,
                        InternalTxDecoded.arguments d)) table'
         = map (fun d => (InternalTxDecoded.internal_tx d,
                          InternalTxDecoded.function_name d,
                          InternalTxDecoded.arguments d)) table
      /\ InternalTxDecodedQuerySet.pending_for_safes safe_contracts table'
         = filter (fun d => negb (decoded_pk d =? decoded_pk self))
             (InternalTxDecodedQuerySet.pending_for_safes safe_contracts table).
Proof.
  intros safe_contracts self table Hin.
  unfold InternalTxDecodedMethods.set_processed, bind,
    InternalTxDecodedMethods.save_processed, ret.
  cbn [InternalTxDecoded.internal_tx InternalTxDecoded.processed].
  assert (Hex : existsb (fun d => InternalTx.id (InternalTxDecoded.internal_tx d)
                                  =? InternalTx.id (InternalTxDecoded.internal_tx self))
                  table = true).
  { apply in_map_iff in Hin. destruct Hin as (d & Hd & Hin).
    apply existsb_exists. exists d. split; auto. apply Z.eqb_eq. exact Hd. }
  rewrite Hex. eexists. eexists. split; [reflexivity|].
  split; [reflexivity|]. split; [reflexivity|]. split.
  - rewrite map_map. apply map_ext. intros d.
    destruct (_ =? _); reflexivity.
  - unfold InternalTxDecodedQuerySet.pending_for_safes,
      InternalTxDecodedQuerySet.not_processed.
    rewrite (order_by_filter _ pending_leb_total pending_leb_trans).
    f_equal.
    rewrite (filter_comm (fun d => negb (decoded_pk d =? decoded_pk self))).
    f_equal.
    apply (filter_map_update
             (fun d => negb (InternalTxDecoded.processed d))
             (fun d => decoded_pk d =? decoded_pk self)).
    reflexivity.
Qed.

Lemma set_processed_leaves_queue_witness :
  InternalTxDecodedQuerySet.pending_for_safes []
    (snd (InternalTxDecodedMethods.set_processed (sample_decoded 2 "setup" false)
            [sample_decoded 1 "setup" false; sample_decoded 2 "setup" false]))
  = [sample_decoded 1 "setup" false].
Proof.
  destruct (set_processed_leaves_queue []
              (sample_decoded 2 "setup" false)
              [sample_decoded 1 "setup" false; sample_decoded 2 "setup" false])
    as (self' & table' & Hrun & _ & _ & _ & Hq).
  - right. left. reflexivity.
  - rewrite Hrun. simpl snd. rewrite Hq. reflexivity.
Defined.

(* ================================================================== *)
(** * Scan cursors: the addresses still to scan *)

Lemma Forall_filter_nil {A} (p : A -> bool) l :
  Forall (fun y => p y = false) l -> filter p l = [].
Proof.
  induction 1 as [|x l Hx _ IH]; simpl; auto. now rewrite Hx.
Qed.

Section Cursors.
Context {R : Type} `{Monitored R}.

Lemma filter_andb {A} (p q : A -> bool) (l : list A) :
  filter (fun x => p x && q x) l = filter q (filter p l).
Proof.
  induction l as [|x l IH]; simpl; auto.
  destruct (p x); simpl; rewrite IH; auto.
Qed.

Lemma update_addresses_ok addresses from_block_number block_number database_field
    (table : list R) n table' :
  MonitoredAddressManager.update_addresses addresses from_block_number block_number
    database_field table = (Ok n, table') ->
  In database_field integer_columns
  /\ n = Z.of_nat (List.length
                     (filter (MonitoredAddressManager.selected addresses database_field
                                (from_block_number - 1)) table))
  /\ table' = map (fun r => if MonitoredAddressManager.selected addresses database_field
                                 (from_block_number - 1) r
                            then column_set database_field block_number r else r) table.
Proof.
  unfold MonitoredAddressManager.update_addresses.
  destruct (mem_string database_field integer_columns) eqn:Ef; [|discriminate].
  intros Hrun. inversion Hrun. apply mem_string_In in Ef. auto.
Qed.

End Cursors.

(** X7.  The rows of [almost_updated] are rows of [not_updated] (those
    whose cursor is above the lower bound), a row whose cursor is [NULL] is
    in neither, and the window is empty when [updated_blocks_behind] is at
    most [confirmations + 1]. *)
Theorem almost_updated_within_not_updated :
  forall (R : Type) (M : Monitored R) (database_field : string)
         (current_block_number updated_blocks_behind confirmations : Z)
         (self rows : list R),
    MonitoredAddressQuerySet.almost_updated database_field current_block_number
      updated_blocks_behind confirmations self = Ok rows ->
    exists late,
      MonitoredAddressQuerySet.not_updated database_field current_block_number
        confirmations self = Ok late
      /\ rows = filter (MonitoredAddressQuerySet.column_gt database_field
                          (current_block_number - updated_blocks_behind)) late
      /\ (forall r, In r late -> column_get database_field r <> None)
      /\ (updated_blocks_behind <= confirmations + 1 -> rows = []).
Proof.
  intros R M database_field cur behind conf self rows.
  unfold MonitoredAddressQuerySet.almost_updated, MonitoredAddressQuerySet.not_updated.
  destruct (mem_string database_field integer_columns); [|discriminate].
  intros Hrows. inversion Hrows as [Hr]. clear Hrows.
  eexists. split; [reflexivity|]. split; [apply filter_andb|]. split.
  - intros r Hin. apply filter_In in Hin. destruct Hin as [_ Hlt].
    unfold MonitoredAddressQuerySet.column_lt in Hlt.
    destruct (column_get database_field r); [discriminate|discriminate].
  - intros Hwindow. subst rows. apply Forall_filter_nil. apply Forall_forall. intros r _.
    unfold MonitoredAddressQuerySet.column_lt, MonitoredAddressQuerySet.column_gt.
    destruct (column_get database_field r) as [c|]; auto.
    destruct (c <? cur - conf) eqn:E1; auto.
    destruct (c >? cur - behind) eqn:E2; auto.
    apply Z.ltb_lt in E1. apply Z.gtb_lt in E2. lia.
Qed.

Lemma almost_updated_within_not_updated_witness :
  exists late,
    MonitoredAddressQuerySet.not_updated "tx_block_number" 100 6 sample_monitored = Ok late
    /\ forall r, In r late -> column_get "tx_block_number" r <> None.
Proof.
  assert (Hrun : MonitoredAddressQuerySet.almost_updated "tx_block_number" 100 7 6
                   sample_monitored = Ok []) by (vm_compute; reflexivity).
  destruct (almost_updated_within_not_updated MonitoredAddress.t _ "tx_block_number"
              100 7 6 sample_monitored [] Hrun)
    as (late & Hlate & _ & Hnull & _).
  exists late. split; assumption.
Defined.

Lemma monitored_address_cursor_laws : cursor_laws MonitoredAddress.t.
Proof.
  intros f v r Hf. simpl in Hf.
  destruct Hf as [<-|[<-|[]]]; repeat split; reflexivity.
Qed.

Lemma safe_contract_cursor_laws : cursor_laws SafeContract.t.
Proof.
  intros f v r Hf. simpl in Hf.
  destruct Hf as [<-|[]]; repeat split; reflexivity.
Qed.

(** X8.  After [update_addresses] has moved cursors to a block that is
    confirmed (at least [current_block_number - confirmations]), the rows
    it has written are no longer [not_updated]; the other rows of
    [not_updated] are answered as before. *)
Theorem update_addresses_then_not_updated :
  forall (R : Type) (M : Monitored R),
    cursor_laws R ->
    forall (addresses : list string) (from_block_number block_number : Z)
           (database_field : string) (current_block_number confirmations : Z)
           (table table' : list R) (n : Z),
      MonitoredAddressManager.update_addresses addresses from_block_number block_number
        database_field table = (Ok n, table') ->
      current_block_number - confirmations <= block_number ->
      exists before,
        MonitoredAddressQuerySet.not_updated database_field current_block_number
          confirmations table = Ok before
        /\ MonitoredAddressQuerySet.not_updated database_field current_block_number
             confirmations table'
           = Ok (filter (fun r => negb (MonitoredAddressManager.selected addresses
                                          database_field (from_block_number - 1) r))
                        before).
Proof.
  intros R M laws addresses from_block_number block_number database_field cur conf
    table table' n Hrun Hconfirmed.
  apply update_addresses_ok in Hrun. destruct Hrun as (Hf & _ & ->).
  unfold MonitoredAddressQuerySet.not_updated.
  apply mem_string_In in Hf. rewrite Hf.
  eexists. split; [reflexivity|]. f_equal.
  apply (filter_map_update
           (MonitoredAddressQuerySet.column_lt database_field (cur - conf))
           (MonitoredAddressManager.selected addresses database_field
              (from_block_number - 1))).
  intros r _. unfold MonitoredAddressQuerySet.column_lt.
  apply mem_string_In in Hf.
  destruct (laws database_field block_number r Hf) as (-> & _).
  apply Z.ltb_ge. lia.
Qed.

Lemma update_addresses_then_not_updated_witness :
  MonitoredAddressQuerySet.not_updated "tx_block_number" 106 6
    (snd (MonitoredAddressManager.update_addresses ["0xA"; "0xB"] 51 100
            "tx_block_number" sample_monitored))
  = Ok [MonitoredAddress.mk "0xD" 0 (Some 99)].
Proof.
  assert (Hrun : MonitoredAddressManager.update_addresses ["0xA"; "0xB"] 51 100
                   "tx_block_number" sample_monitored
                 = (Ok 2,
                    snd (MonitoredAddressManager.update_addresses ["0xA"; "0xB"] 51 100
                           "tx_block_number" sample_monitored)))
    by (vm_compute; reflexivity).
  destruct (update_addresses_then_not_updated MonitoredAddress.t _
              monitored_address_cursor_laws ["0xA"; "0xB"] 51 100 "tx_block_number"
              106 6 sample_monitored _ 2 Hrun)
    as (before & Hbefore & ->).
  - lia.
  - inversion Hbefore. reflexivity.
Defined.

(** X9.  [update_addresses] may be run again: when the block written is
    not below the reorg bound [from_block_number - 1], a second call with
    the same arguments counts the same rows and leaves the table as the
    first call left it. *)
Theorem update_addresses_idempotent :
  forall (R : Type) (M : Monitored R),
    cursor_laws R ->
    forall (addresses : list string) (from_block_number block_number : Z)
           (database_field : string) (table table' : list R) (n : Z),
      MonitoredAddressManager.update_addresses addresses from_block_number block_number
        database_field table = (Ok n, table') ->
      from_block_number - 1 <= block_number ->
      MonitoredAddressManager.update_addresses addresses from_block_number block_number
        database_field table' = (Ok n, table').
Proof.
  intros R M laws addresses from_block_number block_number database_field
    table table' n Hrun Hbound.
  apply update_addresses_ok in Hrun. destruct Hrun as (Hf & -> & ->).
  unfold MonitoredAddressManager.update_addresses.
  pose proof Hf as Hmem. apply mem_string_In in Hmem. rewrite Hmem.
  set (hit := MonitoredAddressManager.selected addresses database_field
                (from_block_number - 1)).
  set (g := fun r => if hit r then column_set database_field block_number r else r).
  assert (Hhit : forall r, hit (g r) = hit r).
  { intros r. unfold g. destruct (hit r) eqn:E; auto.
    unfold hit, MonitoredAddressManager.selected in *.
    destruct (laws database_field block_number r Hf) as (-> & -> & _).
    apply andb_true_iff in E. destruct E as [-> _]. simpl.
    apply Z.geb_le. lia. }
  assert (Hg : forall r, g (g r) = g r).
  { intros r. unfold g at 1. rewrite Hhit. unfold g. destruct (hit r); auto.
    now destruct (laws database_field block_number r Hf) as (_ & _ & ->). }
  f_equal.
  - f_equal. f_equal. induction table as [|r l IH]; simpl; auto.
    rewrite Hhit. destruct (hit r); simpl; now rewrite IH.
  - rewrite map_map. apply map_ext. exact Hg.
Qed.

Lemma update_addresses_idempotent_witness :
  MonitoredAddressManager.update_addresses ["0xA"; "0xB"] 51 100 "tx_block_number"
    (snd (MonitoredAddressManager.update_addresses ["0xA"; "0xB"] 51 100
            "tx_block_number" sample_monitored))
  = (Ok 2,
     snd (MonitoredAddressManager.update_addresses ["0xA"; "0xB"] 51 100
            "tx_block_number" sample_monitored)).
Proof.
  apply (update_addresses_idempotent MonitoredAddress.t _ monitored_address_cursor_laws
           ["0xA"; "0xB"] 51 100 "tx_block_number" sample_monitored).
  - vm_compute. reflexivity.
  - lia.
Defined.

(* ================================================================== *)
(** * Events: classes, tokens in use, stored once *)

(** X10.  An argument that is absent or the empty string is no filter:
    [erc20_events] and [erc721_events] then answer exactly the events that
    [is_erc20] and [is_erc721] accept, in the order they are stored. *)
Theorem event_queries_agree_with_methods :
  forall (ERC20_721_TRANSFER_TOPIC : string) (token_address address : option string)
         (self : list EthereumEvent.t),
    truthy_str token_address = false ->
    truthy_str address = false ->
    EthereumEventQuerySet.erc20_events ERC20_721_TRANSFER_TOPIC token_address address self
    = filter (is_erc20 ERC20_721_TRANSFER_TOPIC) self
    /\ EthereumEventQuerySet.erc721_events ERC20_721_TRANSFER_TOPIC token_address address
         self
       = filter (is_erc721 ERC20_721_TRANSFER_TOPIC) self.
Proof.
  intros T token_address address self Ht Ha.
  unfold EthereumEventQuerySet.erc20_events, EthereumEventQuerySet.erc721_events,
    EthereumEventQuerySet.erc20_and_721_events, is_erc20, is_erc721.
  rewrite Ht, Ha. split; symmetry; apply filter_andb.
Qed.

Lemma event_queries_agree_with_methods_witness :
  EthereumEventQuerySet.erc20_events sample_topic (Some "") None
    [sample_transfer 1 "0xT" "0xA" "0xB" 5]
  = [sample_transfer 1 "0xT" "0xA" "0xB" 5].
Proof.
  rewrite (proj1 (event_queries_agree_with_methods sample_topic (Some "") None
                    [sample_transfer 1 "0xT" "0xA" "0xB" 5] eq_refl eq_refl)).
  reflexivity.
Defined.

Lemma filter_split_perm {A} (p : A -> bool) (l : list A) :
  Permutation l (filter p l ++ filter (fun x => negb (p x)) l).
Proof.
  induction l as [|x l IH]; simpl; auto.
  destruct (p x); simpl.
  - now constructor.
  - now apply Permutation_cons_app.
Qed.

Lemma erc20_and_721_events_topic T token_address address self e :
  In e (EthereumEventQuerySet.erc20_and_721_events T token_address address self) ->
  In e self /\ (EthereumEvent.topic e =? T)%string = true.
Proof.
  unfold EthereumEventQuerySet.erc20_and_721_events. intros Hin.
  destruct (truthy_str address); [apply filter_In in Hin; destruct Hin as [Hin _]|];
    (destruct (truthy_str token_address);
     [apply filter_In in Hin; destruct Hin as [Hin _]|]);
    apply filter_In in Hin; exact Hin.
Qed.

(** X11.  The topic splits the event table in two: every stored event is
    either answered by [erc20_and_721_events] without arguments or by
    [not_erc_20_721_events], as often as it is stored, and whatever
    [erc20_and_721_events], [erc20_events] or [erc721_events] answer, with
    any arguments, [not_erc_20_721_events] does not. *)
Theorem events_split_by_topic :
  forall (ERC20_721_TRANSFER_TOPIC : string) (self : list EthereumEvent.t),
    Permutation self
      (EthereumEventQuerySet.erc20_and_721_events ERC20_721_TRANSFER_TOPIC None None self
       ++ EthereumEventQuerySet.not_erc_20_721_events ERC20_721_TRANSFER_TOPIC self)
    /\ forall token_address address e,
         In e (EthereumEventQuerySet.erc20_and_721_events ERC20_721_TRANSFER_TOPIC
                 token_address address self)
         \/ In e (EthereumEventQuerySet.erc20_events ERC20_721_TRANSFER_TOPIC
                    token_address address self)
         \/ In e (EthereumEventQuerySet.erc721_events ERC20_721_TRANSFER_TOPIC
                    token_address address self) ->
         ~ In e (EthereumEventQuerySet.not_erc_20_721_events ERC20_721_TRANSFER_TOPIC
                   self).
Proof.
  intros T self. split.
  - apply (filter_split_perm (fun e => (EthereumEvent.topic e =? T)%string)).
  - intros token_address address e Hin Hnot.
    unfold EthereumEventQuerySet.not_erc_20_721_events in Hnot.
    apply filter_In in Hnot. destruct Hnot as [_ Hnot].
    apply negb_true_iff in Hnot.
    assert (Ht : (EthereumEvent.topic e =? T)%string = true).
    { destruct Hin as [Hin|[Hin|Hin]].
      - now apply erc20_and_721_events_topic in Hin.
      - apply filter_In in Hin. destruct Hin as [Hin _].
        now apply erc20_and_721_events_topic in Hin.
      - apply filter_In in Hin. destruct Hin as [Hin _].
        now apply erc20_and_721_events_topic in Hin. }
    congruence.
Qed.

(** X12.  The tokens [erc20_tokens_used_by_address] lists for an address
    are the tokens [erc20_tokens_with_balance] gives a balance for, each
    listed once. *)
Theorem erc20_tokens_used_are_tokens_with_balance :
  forall (ERC20_721_TRANSFER_TOPIC address : string) (self : list EthereumEvent.t)
         (balances : list (string * Z)),
    EthereumEventManager.erc20_tokens_with_balance ERC20_721_TRANSFER_TOPIC address self
    = Ok balances ->
    let used := EthereumEventManager.erc20_tokens_used_by_address
                  ERC20_721_TRANSFER_TOPIC address self in
    NoDup used
    /\ NoDup (map fst balances)
    /\ (forall token, In token used <-> In token (map fst balances))
    /\ List.length used = List.length balances.
Proof.
  intros T address self balances Hb used.
  destruct (erc20_tokens_with_balance_spec T address self balances Hb)
    as (Hnd & Hkeys & _).
  assert (Hused : NoDup used) by apply NoDup_nodup.
  assert (Hsame : forall token, In token used <-> In token (map fst balances)).
  { intros token. unfold used, EthereumEventManager.erc20_tokens_used_by_address.
    rewrite nodup_In, in_map_iff, Hkeys.
    split; intros (e & H1 & H2); exists e; auto. }
  repeat split; auto; try apply Hsame.
  rewrite <- (length_map fst balances).
  apply Permutation_length. apply NoDup_Permutation; auto.
Qed.

Lemma erc20_tokens_used_are_tokens_with_balance_witness :
  List.length (EthereumEventManager.erc20_tokens_used_by_address sample_topic "0xA"
                 [sample_transfer 1 "0xT" "0xA" "0xB" 5;
                  sample_transfer 2 "0xT" "0xB" "0xA" 7])
  = 1%nat.
Proof.
  destruct (erc20_tokens_used_are_tokens_with_balance sample_topic "0xA"
              [sample_transfer 1 "0xT" "0xA" "0xB" 5;
               sample_transfer 2 "0xT" "0xB" "0xA" 7]
              [("0xT", 2)])
    as (_ & _ & _ & Hlen).
  - vm_compute. reflexivity.
  - rewrite Hlen. reflexivity.
Defined.

Lemma event_get_or_create_inv tx_id log_index address topic topics arguments
    table e created table' :
  EthereumEventManager.get_or_create tx_id log_index address topic topics arguments table
  = (Ok (e, created), table') ->
  event_key e = (tx_id, log_index)
  /\ ((created = false /\ table' = table
       /\ filter (fun x => (EthereumEvent.ethereum_tx_id x =? tx_id)%string
                           && (EthereumEvent.log_index x =? log_index)) table = [e])
      \/ (created = true /\ table' = (table ++ [e])%list
          /\ filter (fun x => (EthereumEvent.ethereum_tx_id x =? tx_id)%string
                              && (EthereumEvent.log_index x =? log_index)) table = []
          /\ e = EthereumEvent.mk (Some (EthereumEventManager.next_id table)) tx_id
                   log_index address topic topics arguments)).
Proof.
  unfold EthereumEventManager.get_or_create.
  destruct (filter _ table) as [|x [|y l]] eqn:Ef; intros Hrun; inversion Hrun;
    subst e created table'.
  - split; [reflexivity|]. right. auto.
  - split.
    + assert (Hx : In x (filter (fun x => (EthereumEvent.ethereum_tx_id x =? tx_id)%string
                                          && (EthereumEvent.log_index x =? log_index))
                           table)) by (rewrite Ef; now left).
      apply filter_In in Hx. destruct Hx as [_ Hx].
      apply andb_true_iff in Hx. destruct Hx as [H1 H2].
      apply String.eqb_eq in H1. apply Z.eqb_eq in H2.
      unfold event_key. now rewrite H1, H2.
    + left. auto.
Qed.

Lemma event_erc20_or_721_inv decoded_event table e created table' :
  EthereumEventManager.get_or_create_erc20_or_721_event decoded_event table
  = (Ok (e, created), table') ->
  has_key "value" (Node.args decoded_event) = true
  /\ has_key "tokenId" (Node.args decoded_event) = true
  /\ exists topic rest,
       Node.topics decoded_event = topic :: rest
       /\ EthereumEventManager.get_or_create (Node.transactionHash decoded_event)
            (Node.logIndex decoded_event) (Node.address decoded_event) topic
            (Node.topics decoded_event) (Node.args decoded_event) table
          = (Ok (e, created), table').
Proof.
  unfold EthereumEventManager.get_or_create_erc20_or_721_event.
  destruct (has_key "value" (Node.args decoded_event)); [|discriminate].
  destruct (has_key "tokenId" (Node.args decoded_event)); [|discriminate].
  simpl. destruct (Node.topics decoded_event) as [|topic rest] eqn:Et; [discriminate|].
  intros Hrun. split; [reflexivity|]. split; [reflexivity|].
  exists topic, rest. split; [reflexivity|]. exact Hrun.
Qed.

(** X13.  [get_or_create_erc20_or_721_event] is idempotent: after a call
    that answered an event, a second call for the same decoded event
    answers that event as found, not created, and writes nothing. *)
Theorem get_or_create_erc20_or_721_event_idempotent :
  forall (decoded_event : Node.Event) (table table' : list EthereumEvent.t)
         (e : EthereumEvent.t) (created : bool),
    EthereumEventManager.get_or_create_erc20_or_721_event decoded_event table
    = (Ok (e, created), table') ->
    EthereumEventManager.get_or_create_erc20_or_721_event decoded_event table'
    = (Ok (e, false), table').
Proof.
  intros decoded_event table table' e created Hrun.
  apply event_erc20_or_721_inv in Hrun.
  destruct Hrun as (Hv & Ht & topic & rest & Etopics & Hrun).
  unfold EthereumEventManager.get_or_create_erc20_or_721_event.
  rewrite Hv, Ht, Etopics. simpl. rewrite <- Etopics.
  apply event_get_or_create_inv in Hrun.
  destruct Hrun as (Hkey & [(_ & -> & Hf)|(_ & -> & Hf & He)]);
    unfold EthereumEventManager.get_or_create.
  - now rewrite Hf.
  - rewrite filter_app, Hf. simpl.
    unfold event_key in Hkey. inversion Hkey as [[H1 H2]].
    rewrite H1, H2, String.eqb_refl, Z.eqb_refl. reflexivity.
Qed.

Lemma get_or_create_erc20_or_721_event_idempotent_witness :
  EthereumEventManager.get_or_create_erc20_or_721_event
    (sample_decoded_event [("value", JNum 1); ("tokenId", JNum 2)])
    [EthereumEvent.mk (Some 1) "0xaa" 0 "0xToken" sample_topic [sample_topic]
       [("value", JNum 1); ("tokenId", JNum 2)]]
  = (Ok (EthereumEvent.mk (Some 1) "0xaa" 0 "0xToken" sample_topic [sample_topic]
           [("value", JNum 1); ("tokenId", JNum 2)], false),
     [EthereumEvent.mk (Some 1) "0xaa" 0 "0xToken" sample_topic [sample_topic]
        [("value", JNum 1); ("tokenId", JNum 2)]]).
Proof.
  apply (get_or_create_erc20_or_721_event_idempotent
           (sample_decoded_event [("value", JNum 1); ("tokenId", JNum 2)])
           [] _ _ true).
  vm_compute. reflexivity.
Defined.

Lemma next_id_above table e i :
  In e table -> EthereumEvent.id e = Some i -> i < EthereumEventManager.next_id table.
Proof.
  unfold EthereumEventManager.next_id. intros Hin Hi.
  enough (i <= fold_right (fun e m => match EthereumEvent.id e with
                                      | Some i => Z.max i m
                                      | None => m
                                      end) 0 table) by lia.
  induction table as [|x l IH]; [destruct Hin|].
  cbn [fold_right]. destruct Hin as [->|Hin].
  - rewrite Hi. lia.
  - specialize (IH Hin). destruct (EthereumEvent.id x); lia.
Qed.

(** X14.  [get_or_create_erc20_or_721_event] never writes over a stored
    event and keeps the event table keyed: whatever the outcome, the
    stored events stay as they are and in place, at most one event is
    added, at the end, and (transaction, log index) pairs and ids stay
    unique. *)
Theorem get_or_create_erc20_or_721_event_keeps_events_unique :
  forall (decoded_event : Node.Event) (table table' : list EthereumEvent.t)
         (r : result (EthereumEvent.t * bool)),
    events_unique table ->
    EthereumEventManager.get_or_create_erc20_or_721_event decoded_event table
    = (r, table') ->
    events_unique table'
    /\ (table' = table
        \/ exists e, r = Ok (e, true) /\ table' = (table ++ [e])%list).
Proof.
  intros decoded_event table table' r [Hkeys Hids] Hrun.
  destruct r as [[e created]|err].
  - apply event_erc20_or_721_inv in Hrun.
    destruct Hrun as (_ & _ & topic & rest & _ & Hrun).
    apply event_get_or_create_inv in Hrun.
    destruct Hrun as (Hkey & [(_ & -> & _)|(-> & -> & Hf & He)]).
    + split; [split|]; auto.
    + split; [|right; eauto]. split.
      * apply NoDup_map_app_fresh; auto. apply Forall_forall. intros x Hx Hsame.
        apply filter_nil_Forall in Hf. rewrite Forall_forall in Hf.
        specialize (Hf x Hx). unfold event_key in Hsame, Hkey.
        rewrite Hkey in Hsame. inversion Hsame as [[H1 H2]].
        rewrite H1, H2, String.eqb_refl, Z.eqb_refl in Hf. discriminate.
      * apply NoDup_map_app_fresh; auto. apply Forall_forall. intros x Hx Hsame.
        rewrite He in Hsame. simpl in Hsame.
        pose proof (next_id_above table x _ Hx Hsame). lia.
  - assert (table' = table) as ->.
    { unfold EthereumEventManager.get_or_create_erc20_or_721_event in Hrun.
      destruct (negb _ || negb _); [inversion Hrun; auto|].
      destruct (Node.topics decoded_event); [inversion Hrun; auto|].
      unfold EthereumEventManager.get_or_create in Hrun.
      destruct (filter _ table) as [|x [|y found]]; inversion Hrun; auto. }
    split; [split|]; auto.
Qed.

Lemma get_or_create_erc20_or_721_event_keeps_events_unique_witness :
  events_unique
    (snd (EthereumEventManager.get_or_create_erc20_or_721_event
            (sample_decoded_event [("value", JNum 1); ("tokenId", JNum 2)]) [])).
Proof.
  apply (get_or_create_erc20_or_721_event_keeps_events_unique
           (sample_decoded_event [("value", JNum 1); ("tokenId", JNum 2)]) [] _
           (fst (EthereumEventManager.get_or_create_erc20_or_721_event
                   (sample_decoded_event [("value", JNum 1); ("tokenId", JNum 2)]) []))).
  - split; constructor.
  - reflexivity.
Defined.

(* ================================================================== *)
(** * Safe status: owners and new statuses *)

Lemma distinct_run_In {R} (same : R -> R -> bool) prev l x :
  In x (distinct_run same prev l) -> In x l.
Proof.
  revert prev. induction l as [|y l IH]; simpl; [tauto|].
  intros prev. destruct (same prev y).
  - intros Hin. right. eapply IH. exact Hin.
  - intros [->|Hin]; [now left|]. right. eapply IH. exact Hin.
Qed.

Lemma distinct_on_In {R} (same : R -> R -> bool) l x :
  In x (distinct_on same l) -> In x l.
Proof.
  destruct l as [|y l]; simpl; [tauto|].
  intros [->|Hin]; [now left|]. right. eapply distinct_run_In. exact Hin.
Qed.

Lemma last_for_every_address_In self s :
  In s (SafeStatusQuerySet.last_for_every_address self) -> In s self.
Proof.
  unfold SafeStatusQuerySet.last_for_every_address,
    SafeStatusQuerySet.sorted_by_internal_tx.
  intros Hin. apply distinct_on_In in Hin. now apply order_by_In in Hin.
Qed.

Lemma last_for_address_In address self s :
  SafeStatusQuerySet.last_for_address address self = Some s ->
  In s (SafeStatusQuerySet.last_for_every_address self)
  /\ In s self /\ SafeStatus.address s = address.
Proof.
  intros Hlast. pose proof (last_for_every_address_at address self) as Hat.
  rewrite Hlast in Hat.
  assert (Hin : In s (filter (fun x => (SafeStatus.address x =? address)%string)
                        (SafeStatusQuerySet.last_for_every_address self)))
    by (rewrite Hat; now left).
  apply filter_In in Hin. destruct Hin as [Hin Ha]. apply String.eqb_eq in Ha.
  split; auto. split; auto. now apply last_for_every_address_In.
Qed.

(** X15.  In a status table keyed by internal transaction,
    [addresses_for_owner] lists exactly the Safes whose current status,
    as [last_for_address] answers it, has the owner among its owners; a
    Safe that the owner has left is not listed. *)
Theorem addresses_for_owner_reads_current_status :
  forall (owner_address : string) (self : list SafeStatus.t),
    statuses_unique self ->
    forall address,
      In address (SafeStatusQuerySet.addresses_for_owner owner_address self)
      <-> exists s,
            SafeStatusQuerySet.last_for_address address self = Some s
            /\ In owner_address (SafeStatus.owners s).
Proof.
  intros owner_address self Hunique address.
  unfold SafeStatusQuerySet.addresses_for_owner. rewrite in_map_iff. split.
  - intros (s & Ha & Hin). apply filter_In in Hin. destruct Hin as [Hin Hs].
    apply andb_true_iff in Hs. destruct Hs as [Howner Hlast].
    apply mem_string_In in Howner.
    apply existsb_exists in Hlast. destruct Hlast as (l & Hl & Hpk).
    apply Z.eqb_eq in Hpk.
    assert (l = s) as ->.
    { apply (NoDup_map_eq status_pk self); auto.
      now apply last_for_every_address_In. }
    exists s. split; auto.
    pose proof (last_for_every_address_at address self) as Hat.
    assert (Hf : In s (filter (fun x => (SafeStatus.address x =? address)%string)
                         (SafeStatusQuerySet.last_for_every_address self))).
    { apply filter_In. split; auto. now apply String.eqb_eq. }
    rewrite Hat in Hf.
    destruct (SafeStatusQuerySet.last_for_address address self) as [c|];
      [|destruct Hf].
    destruct Hf as [->|[]]. reflexivity.
  - intros (s & Hlast & Howner).
    apply last_for_address_In in Hlast. destruct Hlast as (Hl & Hin & Ha).
    exists s. split; auto. apply filter_In. split; auto.
    apply andb_true_iff. split; [now apply mem_string_In|].
    apply existsb_exists. exists s. split; auto. apply Z.eqb_refl.
Qed.

Lemma addresses_for_owner_reads_current_status_witness :
  In "0xSafe" (SafeStatusQuerySet.addresses_for_owner "0xB" status_rows)
  /\ ~ In "0xOther" (SafeStatusQuerySet.addresses_for_owner "0xB" status_rows).
Proof.
  assert (Hunique : statuses_unique status_rows).
  { unfold statuses_unique. simpl.
    repeat (constructor; [simpl; intuition discriminate|]). constructor. }
  split.
  - apply (addresses_for_owner_reads_current_status "0xB" status_rows Hunique "0xSafe").
    eexists. split; [reflexivity|]. simpl. auto.
  - intros Hin.
    apply (addresses_for_owner_reads_current_status "0xB" status_rows Hunique "0xOther")
      in Hin.
    destruct Hin as (s & Hs & Howner). vm_compute in Hs. inversion Hs. subst s.
    simpl in Howner. intuition discriminate.
Defined.

(* ================================================================== *)
(** * Transaction store: calls that find their work done *)

Section Resolved.
Variable clean_receipt_log : receipt_log -> receipt_log.

Let assign := EthereumTxManager.assign_receipt_and_block clean_receipt_log.
Let has_hash (h : string) (t : EthereumTx.t) : bool := (EthereumTx.tx_hash t =? h)%string.

Lemma filter_hash_map_upgrade h b r T :
  filter (has_hash h) (map (upgrade_row clean_receipt_log h b r) T)
  = map (upgrade_row clean_receipt_log h b r) (filter (has_hash h) T).
Proof.
  induction T as [|t T IH]; simpl; auto.
  assert (Eh : has_hash h (upgrade_row clean_receipt_log h b r t) = has_hash h t).
  { unfold has_hash. now rewrite (row_evolves_hash _ _ _ (upgrade_row_evolves _ h b r t)). }
  rewrite Eh. destruct (has_hash h t); simpl; now rewrite IH.
Qed.

Lemma dict_set_In_inv {V} (d : list (string * V)) k v h x :
  In (h, x) (dict_set d k v) -> In (h, x) d \/ (h = k /\ x = v).
Proof.
  induction d as [|[k' v'] d IH]; simpl.
  - intros [[= <- <-]|[]]. auto.
  - destruct (k' =? k)%string eqn:E; simpl.
    + apply String.eqb_eq in E. subst k'.
      intros [[= <- <-]|H]; auto.
    + intros [H|H]; auto. destruct (IH H); auto.
Qed.

Lemma dict_set_keys {V} (d : list (string * V)) k v :
  map fst (dict_set d k v)
  = if mem_string k (map fst d) then map fst d else (map fst d ++ [k])%list.
Proof.
  unfold mem_string. induction d as [|[k' v'] d IH]; simpl; auto.
  destruct (k' =? k)%string eqn:E; simpl; auto.
  rewrite IH. destruct (existsb _ (map fst d)); reflexivity.
Qed.

Lemma dict_set_NoDup {V} (d : list (string * V)) k v :
  NoDup (map fst d) -> NoDup (map fst (dict_set d k v)).
Proof.
  intros Hnd. rewrite dict_set_keys.
  destruct (mem_string k (map fst d)) eqn:E; auto.
  apply NoDup_app; auto.
  - constructor; [intros []|constructor].
  - intros h Hh [<-|[]].
    apply mem_string_In in Hh. congruence.
Qed.

Lemma dict_set_In_key {V} (d : list (string * V)) k v x :
  NoDup (map fst d) -> In (k, x) (dict_set d k v) -> x = v.
Proof.
  induction d as [|[k' v'] d IH]; simpl.
  - intros _ [[= <-]|[]]. reflexivity.
  - intros Hnd. inversion Hnd as [|? ? Hk Hd]. subst.
    destruct (k' =? k)%string eqn:E; simpl.
    + apply String.eqb_eq in E. subst k'.
      intros [[= <-]|H]; auto.
      exfalso. apply Hk. apply in_map_iff. exists (k, x). auto.
    + intros [[= -> _]|H]; [rewrite String.eqb_refl in E; discriminate|auto].
Qed.

Lemma dict_set_has_key {V} (d : list (string * V)) k v h :
  In h (map fst d) -> In h (map fst (dict_set d k v)).
Proof.
  rewrite dict_set_keys. destruct (mem_string k (map fst d)); auto.
  intros H. apply in_or_app. now left.
Qed.

Lemma dict_fromkeys_spec {V} (keys : list string) (v : V) :
  NoDup (map fst (dict_fromkeys keys v))
  /\ forall h x, In (h, x) (dict_fromkeys keys v) -> In h keys /\ x = v.
Proof.
  unfold dict_fromkeys.
  assert (H : forall acc : list (string * V),
             NoDup (map fst acc) ->
             NoDup (map fst (fold_left (fun d k => dict_set d k v) keys acc))
             /\ forall h x, In (h, x) (fold_left (fun d k => dict_set d k v) keys acc) ->
                            In (h, x) acc \/ (In h keys /\ x = v)).
  { induction keys as [|k keys IH]; simpl; intros acc Hnd; [auto|].
    destruct (IH (dict_set acc k v) (dict_set_NoDup acc k v Hnd)) as [Hnd' Hin].
    split; auto. intros h x Hx.
    destruct (Hin h x Hx) as [Hacc|[Hk ->]]; auto.
    destruct (dict_set_In_inv _ _ _ _ _ Hacc) as [?|[-> ->]]; auto. }
  destruct (H [] (NoDup_nil _)) as [Hnd Hin]. split; auto.
  intros h x Hx. destruct (Hin h x Hx) as [[]|]; auto.
Qed.

Lemma fold_dict_set_spec (rows : list EthereumTx.t) :
  forall d : list (string * option EthereumTx.t),
    NoDup (map fst d) ->
    let d' := fold_left (fun d t => dict_set d (EthereumTx.tx_hash t) (Some t)) rows d in
    (forall h, In h (map fst d) -> In h (map fst d'))
    /\ (forall h, In (h, None) d' ->
                  In (h, None) d /\ ~ In h (map EthereumTx.tx_hash rows))
    /\ (forall h t, In (h, Some t) d' ->
                    In (h, Some t) d \/ (In t rows /\ EthereumTx.tx_hash t = h)).
Proof.
  induction rows as [|t rows IH]; intros d Hnd; simpl.
  - repeat split; auto.
  - destruct (IH (dict_set d (EthereumTx.tx_hash t) (Some t))
                (dict_set_NoDup _ _ _ Hnd)) as (Hk & Hnone & Hsome).
    split; [|split].
    + intros h Hh. apply Hk. now apply dict_set_has_key.
    + intros h Hin. destruct (Hnone h Hin) as [Hd Hnot].
      destruct (String.eqb_spec h (EthereumTx.tx_hash t)) as [->|Hne].
      * apply (dict_set_In_key d _ (Some t)) in Hd; auto. discriminate.
      * split; [apply dict_set_In_other in Hd; auto|].
        intros [Heq|Hin']; [congruence|auto].
    + intros h t' Hin. destruct (Hsome h t' Hin) as [Hd|[Hr Hh]]; auto.
      destruct (dict_set_In_inv _ _ _ _ _ Hd) as [?|[-> [= <-]]]; auto.
Qed.

Lemma search_in_database_spec tx_hashes db :
  let dict := EthereumTxManager.search_in_database tx_hashes db in
  let stored := filter (fun t => mem_string (EthereumTx.tx_hash t) tx_hashes
                                 && match EthereumTx.block t with
                                    | Some _ => true
                                    | None => false
                                    end) (ethereum_txs db) in
  (forall h, In h tx_hashes -> In h (map fst dict))
  /\ (forall h, In (h, None) dict -> In h tx_hashes /\ ~ In h (map EthereumTx.tx_hash stored))
  /\ (forall h t, In (h, Some t) dict -> In t stored /\ EthereumTx.tx_hash t = h).
Proof.
  intros dict stored. subst dict. unfold EthereumTxManager.search_in_database.
  fold stored.
  destruct (dict_fromkeys_spec tx_hashes (@None EthereumTx.t)) as [Hnd Hvalues].
  destruct (fold_dict_set_spec stored _ Hnd) as (Hk & Hnone & Hsome).
  split; [|split].
  - intros h Hh. apply Hk. apply in_map_iff. exists (h, None). split; auto.
    now apply dict_fromkeys_In.
  - intros h Hin. destruct (Hnone h Hin) as [Hd Hnot]. split; auto.
    now destruct (Hvalues _ _ Hd).
  - intros h t Hin. destruct (Hsome h t Hin) as [Hd|]; auto.
    now destruct (Hvalues _ _ Hd).
Qed.

Lemma not_in_db_nil (d : list (string * option EthereumTx.t)) :
  (forall h, ~ In (h, None) d) -> EthereumTxManager.not_in_db d = [].
Proof.
  intros Hall. unfold EthereumTxManager.not_in_db.
  rewrite Forall_filter_nil; auto.
  apply Forall_forall. intros [h [t|]] Hin; auto.
  exfalso. exact (Hall h Hin).
Qed.

(** X17.  When every requested hash is stored with a block,
    [create_or_update_from_tx_hashes] answers from the database alone:
    whatever the node would say, the call succeeds, writes nothing, and
    answers stored mined transactions only, one at least for every
    requested hash. *)
Theorem create_or_update_from_tx_hashes_all_stored :
  forall (tx_hashes : list string) (db : Database),
    (forall h, In h tx_hashes ->
               exists t, In t (ethereum_txs db)
                         /\ EthereumTx.tx_hash t = h
                         /\ EthereumTx.block t <> None) ->
    exists rows,
      (forall client,
          EthereumTxManager.create_or_update_from_tx_hashes client clean_receipt_log
            tx_hashes db = (Ok rows, db))
      /\ (forall row, In row rows ->
                      exists t, row = Some t
                                /\ In t (ethereum_txs db)
                                /\ In (EthereumTx.tx_hash t) tx_hashes
                                /\ EthereumTx.block t <> None)
      /\ (forall h, In h tx_hashes ->
                    exists t, In (Some t) rows /\ EthereumTx.tx_hash t = h).
Proof.
  intros tx_hashes db Hstored.
  destruct (search_in_database_spec tx_hashes db) as (Hkeys & Hnone & Hsome).
  assert (Hfull : forall h, ~ In (h, None)
                              (EthereumTxManager.search_in_database tx_hashes db)).
  { intros h Hin. destruct (Hnone h Hin) as [Hh Hnot]. apply Hnot.
    destruct (Hstored h Hh) as (t & Ht & Eh & Hb).
    apply in_map_iff. exists t. split; auto. apply filter_In. split; auto.
    apply andb_true_iff. split.
    - rewrite Eh. now apply mem_string_In.
    - destruct (EthereumTx.block t); [reflexivity|congruence]. }
  exists (dict_values (EthereumTxManager.search_in_database tx_hashes db)).
  split; [|split].
  - intros client. unfold EthereumTxManager.create_or_update_from_tx_hashes.
    now rewrite (not_in_db_nil _ Hfull).
  - intros row Hrow. unfold dict_values in Hrow. apply in_map_iff in Hrow.
    destruct Hrow as ([h v] & <- & Hin). simpl.
    destruct v as [t|]; [|destruct (Hfull h Hin)].
    destruct (Hsome h t Hin) as [Ht Eh]. apply filter_In in Ht.
    destruct Ht as [Ht Hc]. apply andb_true_iff in Hc. destruct Hc as [Hm Hb].
    exists t. repeat split; auto.
    + now apply mem_string_In.
    + destruct (EthereumTx.block t); [discriminate|discriminate].
  - intros h Hh. specialize (Hkeys h Hh). apply in_map_iff in Hkeys.
    destruct Hkeys as ([h' v] & Eh & Hin). simpl in Eh. subst h'.
    destruct v as [t|]; [|destruct (Hfull h Hin)].
    exists t. split.
    + unfold dict_values. apply in_map_iff. exists (h, Some t). auto.
    + now destruct (Hsome h t Hin).
Qed.

(** X18.  [create_or_update_from_tx_hash] is idempotent: after a call that
    answered a transaction stored under the requested hash, a second call
    answers the same transaction and leaves the database as the first call
    left it, whatever the node says then. *)
Theorem create_or_update_from_tx_hash_idempotent :
  forall (client client' : EthereumClient) (tx_hash : string) (db db' : Database)
         (t : EthereumTx.t),
    EthereumTxManager.create_or_update_from_tx_hash client clean_receipt_log tx_hash db
    = (Ok t, db') ->
    EthereumTx.tx_hash t = tx_hash ->
    EthereumTxManager.create_or_update_from_tx_hash client' clean_receipt_log tx_hash db'
    = (Ok t, db').
Proof.
  intros client client' h db db' t Hrun Hhash.
  rewrite create_or_update_from_tx_hash_eq in Hrun.
  rewrite create_or_update_from_tx_hash_eq.
  destruct (filter _ (ethereum_txs db)) as [|t0 [|t1 l]] eqn:Ef.
  - destruct (get_transaction_receipt client h) as [r|]; [|discriminate].
    destruct (EthereumBlockManager.get_or_create_from_block_number _ _ db)
      as [[b|e] db1] eqn:Eg; [|discriminate].
    apply get_or_create_from_block_number_frame in Eg. destruct Eg as [Etxs _].
    apply create_from_tx_dict_spec in Hrun.
    destruct Hrun as (txd & _ & _ & Hb & _ & ->). simpl ethereum_txs.
    rewrite filter_app, Etxs, Ef. simpl. rewrite Hhash, String.eqb_refl.
    simpl. now rewrite Hb.
  - pose proof (filter_singleton_hash _ _ _ Ef) as Eh.
    destruct (EthereumTx.block t0) eqn:Eb.
    + inversion Hrun. subst t0 db'. now rewrite Ef, Eb.
    + destruct (get_transaction_receipt client h) as [r|]; [|discriminate].
      destruct (EthereumBlockManager.get_or_create_from_block_number _ _ db)
        as [[b|e] db1] eqn:Eg; [|discriminate].
      apply get_or_create_from_block_number_frame in Eg. destruct Eg as [Etxs _].
      inversion Hrun. subst t db'. simpl ethereum_txs.
      pose proof (filter_hash_map_upgrade h b r (ethereum_txs db1)) as Hf.
      unfold has_hash in Hf. rewrite Hf, Etxs, Ef.
      simpl map. unfold upgrade_row at 1. rewrite Eh, String.eqb_refl, Eb. simpl.
      reflexivity.
  - discriminate.
Qed.

End Resolved.

Lemma create_or_update_from_tx_hashes_all_stored_witness :
  EthereumTxManager.create_or_update_from_tx_hashes sample_client (fun log => log)
    ["0xaa"; "0xaa"] (mkDatabase [] [sample_tx 1])
  = (Ok [Some (sample_tx 1)], mkDatabase [] [sample_tx 1]).
Proof.
  destruct (create_or_update_from_tx_hashes_all_stored (fun log => log)
              ["0xaa"; "0xaa"] (mkDatabase [] [sample_tx 1]))
    as (rows & Hrun & _ & _).
  - intros h [<-|[<-|[]]]; exists (sample_tx 1); repeat split;
      try (now left); discriminate.
  - rewrite (Hrun sample_client). f_equal.
    specialize (Hrun sample_client). vm_compute in Hrun. inversion Hrun. reflexivity.
Defined.

Lemma create_or_update_from_tx_hash_idempotent_witness :
  EthereumTxManager.create_or_update_from_tx_hash sample_client (fun log => log) "0xaa"
    (snd (EthereumTxManager.create_or_update_from_tx_hash sample_mined_client
            (fun log => log) "0xaa" sample_placeholder_db))
  = EthereumTxManager.create_or_update_from_tx_hash sample_mined_client
      (fun log => log) "0xaa" sample_placeholder_db.
Proof.
  assert (Hrun : exists t db',
             EthereumTxManager.create_or_update_from_tx_hash sample_mined_client
               (fun log => log) "0xaa" sample_placeholder_db = (Ok t, db')
             /\ EthereumTx.tx_hash t = "0xaa").
  { eexists. eexists. split; [vm_compute; reflexivity|reflexivity]. }
  destruct Hrun as (t & db' & Hrun & Hhash).
  rewrite Hrun. simpl snd.
  exact (create_or_update_from_tx_hash_idempotent (fun log => log) sample_mined_client
           sample_client "0xaa" sample_placeholder_db db' t Hrun Hhash).
Defined.

(* ================================================================== *)
(** * Internal transactions: stored trace addresses, incoming ether *)

Lemma str_inj a b : str a = str b -> a = b.
Proof.
  unfold str. intros H.
  apply (f_equal NilEmpty.int_of_string) in H. rewrite !NilEmpty.isi in H.
  inversion H as [H']. apply (f_equal Z.of_int) in H'.
  now rewrite !DecimalZ.of_to in H'.
Qed.

Lemma string_of_uint_no_comma d : has_comma (NilEmpty.string_of_uint d) = false.
Proof. induction d; simpl; auto. Qed.

Lemma str_no_comma z : has_comma (str z) = false.
Proof.
  unfold str. destruct z; simpl; auto using string_of_uint_no_comma.
Qed.

Lemma str_not_empty z : str z <> "".
Proof.
  unfold str. destruct z as [|p|p]; simpl; try discriminate.
  pose proof (DecimalPos.Unsigned.to_uint_nonnil p) as Hp.
  destruct (Pos.to_uint p); simpl; try discriminate. congruence.
Qed.

(** Two texts without comma, each followed by nothing or by a comma and
    more text: equal wholes have equal parts. *)
Lemma split_at_comma s1 s2 r1 r2 :
  has_comma s1 = false -> has_comma s2 = false ->
  (r1 = "" \/ exists r, r1 = String "," r) ->
  (r2 = "" \/ exists r, r2 = String "," r) ->
  (s1 ++ r1 = s2 ++ r2)%string ->
  s1 = s2 /\ r1 = r2.
Proof.
  revert s2. induction s1 as [|c s1 IH]; intros [|c' s2] H1 H2 Hr1 Hr2 E; simpl in *.
  - auto.
  - exfalso. apply orb_false_iff in H2. destruct H2 as [Hc _].
    destruct Hr1 as [->|(r & ->)]; [discriminate|].
    inversion E. subst c'. discriminate.
  - exfalso. apply orb_false_iff in H1. destruct H1 as [Hc _].
    destruct Hr2 as [->|(r & ->)]; [discriminate|].
    inversion E. subst c. discriminate.
  - apply orb_false_iff in H1. apply orb_false_iff in H2.
    inversion E as [[Hc Hs]].
    destruct (IH s2 (proj2 H1) (proj2 H2) Hr1 Hr2 Hs) as [-> ->]. auto.
Qed.

(** X19.  [_trace_address_to_str] loses nothing: two trace addresses have
    the same stored text exactly when they are the same path, whatever
    integers they hold. *)
Theorem trace_address_to_str_injective :
  forall a b : list Z,
    InternalTxManager._trace_address_to_str a = InternalTxManager._trace_address_to_str b
    <-> a = b.
Proof.
  intros a b. split; [|now intros ->].
  unfold InternalTxManager._trace_address_to_str.
  revert b. induction a as [|x a IH]; intros [|y b] E.
  - reflexivity.
  - exfalso. rewrite map_cons, concat_cons in E. simpl String.concat in E.
    apply (str_not_empty y).
    destruct (str y); [reflexivity|discriminate].
  - exfalso. rewrite map_cons, concat_cons in E. simpl String.concat in E.
    apply (str_not_empty x).
    destruct (str x); [reflexivity|discriminate].
  - rewrite !map_cons, !concat_cons in E.
    apply split_at_comma in E; auto using str_no_comma.
    + destruct E as [Hx Hrest]. apply str_inj in Hx. subst y. f_equal.
      destruct a as [|x' a], b as [|y' b]; try discriminate; auto.
      apply IH. simpl map in Hrest. cbn [append] in Hrest.
      inversion Hrest as [Hr]. exact Hr.
    + destruct (map str a); [now left|right; eexists; reflexivity].
    + destruct (map str b); [now left|right; eexists; reflexivity].
Qed.

Lemma incoming_leb_total (a b : InternalTx.t) :
  not_gt (compare_nulls_last (EthereumTx.block (InternalTx.ethereum_tx b))
                             (EthereumTx.block (InternalTx.ethereum_tx a))) = true
  \/ not_gt (compare_nulls_last (EthereumTx.block (InternalTx.ethereum_tx a))
                                (EthereumTx.block (InternalTx.ethereum_tx b))) = true.
Proof.
  apply (not_gt_total _ (laws_flip _ (laws_on _ compare_nulls_last_laws
                                        (fun it => EthereumTx.block
                                                     (InternalTx.ethereum_tx it))))).
Qed.

Lemma incoming_leb_trans (a b c : InternalTx.t) :
  not_gt (compare_nulls_last (EthereumTx.block (InternalTx.ethereum_tx b))
                             (EthereumTx.block (InternalTx.ethereum_tx a))) = true ->
  not_gt (compare_nulls_last (EthereumTx.block (InternalTx.ethereum_tx c))
                             (EthereumTx.block (InternalTx.ethereum_tx b))) = true ->
  not_gt (compare_nulls_last (EthereumTx.block (InternalTx.ethereum_tx c))
                             (EthereumTx.block (InternalTx.ethereum_tx a))) = true.
Proof.
  apply (not_gt_trans _ (laws_flip _ (laws_on _ compare_nulls_last_laws
                                        (fun it => EthereumTx.block
                                                     (InternalTx.ethereum_tx it))))).
Qed.

Lemma StronglySorted_map {A B} (f : A -> B) (P : B -> B -> Prop) (l : list A) :
  StronglySorted (fun a b => P (f a) (f b)) l -> StronglySorted P (map f l).
Proof.
  induction 1 as [|a l Hs IH Ha]; simpl; constructor; auto.
  apply Forall_map. exact Ha.
Qed.

(** X20.  Read with [values], [incoming_txs] answers one row for every
    stored internal transaction sent to the address for which
    [is_ether_transfer] holds, and no other row: the row carries the
    block number and hash of its transaction, recipient, sender and value,
    and no token address; the rows come newest block first, those of
    transactions without block before all others. *)
Theorem incoming_txs_exact_and_sorted :
  forall (blocks : list EthereumBlock.t) (address : string) (self : list InternalTx.t),
    let found := InternalTxQuerySet.incoming_txs blocks address self in
    (forall row,
        In row found
        <-> exists it,
              In it self
              /\ InternalTx.to it = Some address
              /\ InternalTxMethods.is_ether_transfer it = true
              /\ row = InternalTxQuerySet.incoming_row blocks it)
    /\ Permutation found
         (map (InternalTxQuerySet.incoming_row blocks)
            (filter (fun it => match InternalTx.to it with
                               | Some a => (a =? address)%string
                               | None => false
                               end
                               && InternalTxMethods.is_ether_transfer it) self))
    /\ Forall (fun row => IncomingRow.to row = Some address
                          /\ 0 < IncomingRow.value row
                          /\ IncomingRow.token_address row = None) found
    /\ StronglySorted
         (fun a b => match IncomingRow.block_number a, IncomingRow.block_number b with
                     | Some x, Some y => y <= x
                     | None, _ => True
                     | Some _, None => False
                     end)
         found.
Proof.
  intros blocks address self found. subst found. unfold InternalTxQuerySet.incoming_txs.
  assert (Hsel : forall it,
             In it (filter (fun it =>
                              match InternalTx.to it with
                              | Some a => (a =? address)%string
                              | None => false
                              end
                              && match InternalTx.call_type it with
                                 | Some c => c =? EthereumTxCallType.value
                                                    EthereumTxCallType.CALL
                                 | None => false
                                 end
                              && (InternalTx.value it >? 0)) self)
             <-> In it self
                 /\ InternalTx.to it = Some address
                 /\ InternalTxMethods.is_ether_transfer it = true).
  { intros it. rewrite filter_In.
    unfold InternalTxMethods.is_ether_transfer. rewrite !andb_true_iff.
    destruct (InternalTx.to it) as [a|].
    - rewrite String.eqb_eq. split.
      + intros (Hin & (-> & Hc) & Hv). repeat split; auto.
      + intros (Hin & [= ->] & Hc & Hv). repeat split; auto.
    - split.
      + intros (_ & ([=] & _) & _).
      + intros (_ & [=] & _). }
  split; [|split; [|split]].
  - intros row. rewrite in_map_iff. split.
    + intros (it & <- & Hin). apply order_by_In, Hsel in Hin.
      exists it. tauto.
    + intros (it & Hin & Hto & He & ->). exists it. split; auto.
      apply order_by_In, Hsel. auto.
  - apply Permutation_map. rewrite order_by_perm.
    unfold InternalTxMethods.is_ether_transfer.
    erewrite filter_ext; [reflexivity|].
    intros it. cbv beta. symmetry. apply andb_assoc.
  - apply Forall_forall. intros row Hrow. apply in_map_iff in Hrow.
    destruct Hrow as (it & <- & Hin). apply order_by_In, Hsel in Hin.
    destruct Hin as (_ & Hto & He).
    unfold InternalTxMethods.is_ether_transfer in He.
    apply andb_true_iff in He. destruct He as [_ Hv]. apply Z.gtb_lt in Hv.
    simpl. auto.
  - apply StronglySorted_map. simpl.
    eapply StronglySorted_weaken;
      [|apply (order_by_sorted _ incoming_leb_total incoming_leb_trans)].
    unfold holds. intros a b.
    destruct (EthereumTx.block (InternalTx.ethereum_tx a)) as [x|],
             (EthereumTx.block (InternalTx.ethereum_tx b)) as [y|]; simpl; auto.
    + destruct (Z.compare_spec y x); simpl; intros; try lia; discriminate.
    + discriminate.
Qed.

(* ================================================================== *)
(** * Multisig transactions: executed or not *)

(** X21.  [executed] and [not_executed] split the multisig transactions:
    every stored one is answered by exactly one of them, as often as it is
    stored; and for a transaction whose Ethereum transaction, if any, has
    a hash that is not empty, [executed] answers it exactly when its
    [executed] property holds. *)
Theorem multisig_executed_splits :
  forall (self : list MultisigTransaction.t),
    Permutation self
      (MultisigTransactionQuerySet.executed self
       ++ MultisigTransactionQuerySet.not_executed self)
    /\ (forall m, In m (MultisigTransactionQuerySet.executed self) ->
                  ~ In m (MultisigTransactionQuerySet.not_executed self))
    /\ (forall m,
           In m self ->
           MultisigTransaction.ethereum_tx_id m <> Some "" ->
           (In m (MultisigTransactionQuerySet.executed self)
            <-> MultisigTransaction.executed m = true)).
Proof.
  intros self. split; [|split].
  - unfold MultisigTransactionQuerySet.executed,
      MultisigTransactionQuerySet.not_executed.
    rewrite Permutation_app_comm.
    erewrite (filter_ext (fun m => negb (MultisigTransactionQuerySet.block_is_null m))).
    + apply (filter_split_perm MultisigTransactionQuerySet.block_is_null).
    + reflexivity.
  - intros m H1 H2. apply filter_In in H1. apply filter_In in H2.
    destruct H1 as [_ H1]. destruct H2 as [_ H2]. rewrite H2 in H1. discriminate.
  - intros m Hin Hhash. unfold MultisigTransactionQuerySet.executed.
    rewrite filter_In.
    unfold MultisigTransactionQuerySet.block_is_null, MultisigTransaction.executed,
      MultisigTransaction.ethereum_tx_id in *.
    destruct (MultisigTransaction.ethereum_tx m) as [tx|]; simpl in *.
    + destruct (EthereumTx.tx_hash tx) eqn:Eh; [congruence|].
      destruct (EthereumTx.block tx); simpl; intuition discriminate.
    + intuition discriminate.
Qed.

Lemma multisig_executed_splits_witness :
  In (sample_multisig (Some (sample_tx 1)))
     (MultisigTransactionQuerySet.executed
        [sample_multisig None; sample_multisig (Some (sample_tx 1))]).
Proof.
  apply (proj2 (proj2 (multisig_executed_splits
                         [sample_multisig None; sample_multisig (Some (sample_tx 1))]))
           (sample_multisig (Some (sample_tx 1)))).
  - right. left. reflexivity.
  - discriminate.
  - reflexivity.
Defined.

(* ================================================================== *)
(** * Internal transactions built from traces *)

Section Traces.
Variables upper lower : string -> string.

Lemma parse_raises tx_type e :
  EthereumTxType.parse upper tx_type = Raise e -> e = ValueError.
Proof.
  unfold EthereumTxType.parse.
  repeat (destruct (_ =? _)%string; [discriminate|]). now intros [= <-].
Qed.

Lemma internal_get_or_create_inv ethereum_tx trace_address _from gas data to value
    gas_used contract_address code output refund_address tx_type call_type error
    table it created table' :
  InternalTxManager.get_or_create ethereum_tx trace_address _from gas data to value
    gas_used contract_address code output refund_address tx_type call_type error table
  = (Ok (it, created), table') ->
  trace_key it = (EthereumTx.tx_hash ethereum_tx, trace_address)
  /\ ((created = false /\ table' = table
       /\ filter (fun x => (EthereumTx.tx_hash (InternalTx.ethereum_tx x)
                            =? EthereumTx.tx_hash ethereum_tx)%string
                           && (InternalTx.trace_address x =? trace_address)%string)
            table = [it])
      \/ (created = true /\ table' = (table ++ [it])%list
          /\ filter (fun x => (EthereumTx.tx_hash (InternalTx.ethereum_tx x)
                               =? EthereumTx.tx_hash ethereum_tx)%string
                              && (InternalTx.trace_address x =? trace_address)%string)
               table = []
          /\ it = InternalTx.mk (InternalTxManager.next_id table) ethereum_tx _from gas
                    data to value gas_used contract_address code output refund_address
                    tx_type call_type trace_address error)).
Proof.
  unfold InternalTxManager.get_or_create.
  destruct (filter _ table) as [|x [|y found]] eqn:Ef; intros Hrun; inversion Hrun;
    subst it created table'.
  - split; [reflexivity|]. right. auto.
  - split; [|left; auto].
    assert (Hx : In x (filter (fun x => (EthereumTx.tx_hash (InternalTx.ethereum_tx x)
                                         =? EthereumTx.tx_hash ethereum_tx)%string
                                        && (InternalTx.trace_address x
                                            =? trace_address)%string) table))
      by (rewrite Ef; now left).
    apply filter_In in Hx. destruct Hx as [_ Hx].
    apply andb_true_iff in Hx. destruct Hx as [H1 H2].
    apply String.eqb_eq in H1, H2. unfold trace_key. now rewrite H1, H2.
Qed.

Lemma internal_next_id_above table it :
  In it table -> InternalTx.id it < InternalTxManager.next_id table.
Proof.
  unfold InternalTxManager.next_id. intros Hin.
  enough (InternalTx.id it
          <= fold_right (fun it m => Z.max (InternalTx.id it) m) 0 table) by lia.
  induction table as [|x l IH]; [destruct Hin|].
  cbn [fold_right]. destruct Hin as [->|Hin]; [lia|]. specialize (IH Hin). lia.
Qed.

(** X22.  [get_or_create_from_trace] stores what [build_from_trace]
    builds: a trace type that [build_from_trace] refuses is refused with
    the same [ValueError] before anything is written, and a row that is
    created is the row [build_from_trace] answers, under a fresh id, added
    at the end of the table. *)
Theorem get_or_create_from_trace_stores_built_row :
  forall (trace : Trace.t) (ethereum_tx : EthereumTx.t) (table : list InternalTx.t),
    (forall e,
        InternalTxManager.build_from_trace upper lower trace ethereum_tx = Raise e ->
        e = ValueError
        /\ InternalTxManager.get_or_create_from_trace upper lower trace ethereum_tx table
           = (Raise e, table))
    /\ (forall it table',
           InternalTxManager.get_or_create_from_trace upper lower trace ethereum_tx table
           = (Ok (it, true), table') ->
           exists row,
             InternalTxManager.build_from_trace upper lower trace ethereum_tx = Ok row
             /\ it = row (InternalTx.id it)
             /\ table' = (table ++ [it])%list
             /\ ~ In (InternalTx.id it) (map InternalTx.id table)).
Proof.
  intros trace ethereum_tx table.
  unfold InternalTxManager.build_from_trace, InternalTxManager.get_or_create_from_trace.
  destruct (EthereumTxType.parse upper (Trace.type trace)) as [tx_type|e0] eqn:Ep.
  - split; [discriminate|]. intros it table' Hrun.
    apply internal_get_or_create_inv in Hrun.
    destruct Hrun as (_ & [([=] & _)|(_ & -> & _ & ->)]).
    eexists. split; [reflexivity|]. cbn [InternalTx.id]. repeat split.
    intros Hin. apply in_map_iff in Hin. destruct Hin as (x & Hid & Hx).
    pose proof (internal_next_id_above table x Hx). lia.
  - split; [|discriminate]. intros e [= <-]. split; [|reflexivity].
    now apply parse_raises in Ep.
Qed.

Lemma get_or_create_from_trace_inv trace ethereum_tx table it created table' :
  InternalTxManager.get_or_create_from_trace upper lower trace ethereum_tx table
  = (Ok (it, created), table') ->
  exists tx_type,
    EthereumTxType.parse upper (Trace.type trace) = Ok tx_type
    /\ trace_key it
       = (EthereumTx.tx_hash ethereum_tx,
          InternalTxManager._trace_address_to_str (Trace.traceAddress trace))
    /\ ((created = false /\ table' = table
         /\ filter (fun x => (EthereumTx.tx_hash (InternalTx.ethereum_tx x)
                              =? EthereumTx.tx_hash ethereum_tx)%string
                             && (InternalTx.trace_address x
                                 =? InternalTxManager._trace_address_to_str
                                      (Trace.traceAddress trace))%string)
              table = [it])
        \/ (created = true /\ table' = (table ++ [it])%list
            /\ filter (fun x => (EthereumTx.tx_hash (InternalTx.ethereum_tx x)
                                 =? EthereumTx.tx_hash ethereum_tx)%string
                                && (InternalTx.trace_address x
                                    =? InternalTxManager._trace_address_to_str
                                         (Trace.traceAddress trace))%string)
                 table = []
            /\ InternalTx.id it = InternalTxManager.next_id table
            /\ InternalTx.tx_type it = EthereumTxType.value tx_type
            /\ InternalTx.call_type it
               = match EthereumTxCallType.parse_call_type lower
                         (Trace.callType (Trace.action trace)) with
                 | Some c => Some (EthereumTxCallType.value c)
                 | None => None
                 end)).
Proof.
  unfold InternalTxManager.get_or_create_from_trace.
  destruct (EthereumTxType.parse upper (Trace.type trace)) as [tx_type|e0];
    [|discriminate].
  intros Hrun. apply internal_get_or_create_inv in Hrun.
  destruct Hrun as (Hkey & [(-> & -> & Hf)|(-> & -> & Hf & ->)]);
    exists tx_type; split; auto; split; auto.
  right. repeat split; auto.
Qed.

(** X23.  [get_or_create_from_trace] is idempotent and keeps the table
    keyed: after a call that answered a row, a second call for the same
    trace answers that row as found and writes nothing; and whatever the
    outcome of a call, the stored rows stay as they are and in place, at
    most one row is added, at the end, and ids and (transaction, trace
    address) pairs stay unique. *)
Theorem get_or_create_from_trace_idempotent :
  forall (trace : Trace.t) (ethereum_tx : EthereumTx.t) (table table' : list InternalTx.t)
         (r : result (InternalTx.t * bool)),
    internal_txs_unique table ->
    InternalTxManager.get_or_create_from_trace upper lower trace ethereum_tx table
    = (r, table') ->
    internal_txs_unique table'
    /\ (table' = table \/ exists it, r = Ok (it, true) /\ table' = (table ++ [it])%list)
    /\ forall it created,
         r = Ok (it, created) ->
         InternalTxManager.get_or_create_from_trace upper lower trace ethereum_tx table'
         = (Ok (it, false), table').
Proof.
  intros trace ethereum_tx table table' r [Hkeys Hids] Hrun.
  destruct r as [[it created]|err].
  - pose proof Hrun as Hinv. apply get_or_create_from_trace_inv in Hinv.
    destruct Hinv as (tx_type & Hp & Hkey & [(-> & -> & Hf)|(-> & -> & Hf & Hid & _)]).
    + split; [split; auto|]. split; [now left|].
      intros it' created' [= <- <-]. exact Hrun.
    + split; [split|split].
      * unfold unique_traces. apply NoDup_map_app_fresh; auto.
        apply Forall_forall. intros x Hx Hsame.
        apply filter_nil_Forall in Hf. rewrite Forall_forall in Hf.
        specialize (Hf x Hx). rewrite Hkey in Hsame. unfold trace_key in Hsame.
        inversion Hsame as [[H1 H2]].
        rewrite H1, H2, !String.eqb_refl in Hf. discriminate.
      * apply NoDup_map_app_fresh; auto.
        apply Forall_forall. intros x Hx Hsame.
        pose proof (internal_next_id_above table x Hx). lia.
      * right. eauto.
      * intros it' created' [= <- <-].
        unfold InternalTxManager.get_or_create_from_trace. rewrite Hp.
        unfold InternalTxManager.get_or_create.
        rewrite filter_app, Hf. cbn [filter app].
        unfold trace_key in Hkey. inversion Hkey as [[H1 H2]].
        rewrite H1, H2, !String.eqb_refl. reflexivity.
  - assert (table' = table) as ->.
    { unfold InternalTxManager.get_or_create_from_trace in Hrun.
      destruct (EthereumTxType.parse upper (Trace.type trace));
        [|inversion Hrun; auto].
      unfold InternalTxManager.get_or_create in Hrun.
      destruct (filter _ table) as [|x [|y found]]; inversion Hrun; auto. }
    split; [split; auto|]. split; [now left|]. discriminate.
Qed.

(** X24.  A row that [get_or_create_from_trace] creates carries codes of
    the two enumerations: [is_call] and [is_delegate_call] answer for it
    without raising, [is_call] holds exactly when the upper-cased trace
    type is [CALL], and [is_delegate_call] holds exactly when the trace
    has a call type whose lower-cased text is [delegatecall]. *)
Theorem created_internal_tx_has_enum_codes :
  forall (trace : Trace.t) (ethereum_tx : EthereumTx.t) (table table' : list InternalTx.t)
         (it : InternalTx.t),
    InternalTxManager.get_or_create_from_trace upper lower trace ethereum_tx table
    = (Ok (it, true), table') ->
    InternalTxMethods.is_call it = Ok (upper (Trace.type trace) =? "CALL")%string
    /\ InternalTxMethods.is_delegate_call it
       = Ok match Trace.callType (Trace.action trace) with
            | None | Some EmptyString => false
            | Some call_type => (lower call_type =? "delegatecall")%string
            end.
Proof.
  intros trace ethereum_tx table table' it Hrun.
  apply get_or_create_from_trace_inv in Hrun.
  destruct Hrun as (tx_type & Hp & _ & [([=] & _)|(_ & _ & _ & _ & Ht & Hc)]).
  unfold InternalTxMethods.is_call, InternalTxMethods.is_delegate_call.
  rewrite Ht, Hc. split.
  - unfold EthereumTxType.parse in Hp.
    destruct (upper (Trace.type trace) =? "CALL")%string eqn:E1.
    { inversion Hp. reflexivity. }
    destruct (upper (Trace.type trace) =? "CREATE")%string.
    { inversion Hp. reflexivity. }
    destruct (upper (Trace.type trace) =? "SUICIDE")%string; [|discriminate].
    inversion Hp. reflexivity.
  - unfold EthereumTxCallType.parse_call_type.
    destruct (Trace.callType (Trace.action trace)) as [[|c s]|]; try reflexivity.
    destruct (lower (String c s) =? "call")%string eqn:E.
    { apply String.eqb_eq in E. rewrite E. reflexivity. }
    destruct (lower (String c s) =? "delegatecall")%string; reflexivity.
Qed.

End Traces.

Lemma get_or_create_from_trace_stores_built_row_witness :
  exists row,
    InternalTxManager.build_from_trace (map_string ascii_upper) (map_string ascii_lower)
      (sample_call_trace [0; 1]) (sample_tx 1) = Ok row
    /\ InternalTx.trace_address (row 1) = "0,1".
Proof.
  assert (Hrun : exists it table',
             InternalTxManager.get_or_create_from_trace (map_string ascii_upper)
               (map_string ascii_lower) (sample_call_trace [0; 1]) (sample_tx 1) []
             = (Ok (it, true), table')).
  { eexists. eexists. vm_compute. reflexivity. }
  destruct Hrun as (it & table' & Hrun).
  destruct (proj2 (get_or_create_from_trace_stores_built_row (map_string ascii_upper)
                     (map_string ascii_lower) (sample_call_trace [0; 1]) (sample_tx 1) [])
              it table' Hrun)
    as (row & Hbuild & _).
  exists row. split; [exact Hbuild|].
  vm_compute in Hbuild. inversion Hbuild. reflexivity.
Defined.

Lemma get_or_create_from_trace_idempotent_witness :
  internal_txs_unique
    (snd (InternalTxManager.get_or_create_from_trace (map_string ascii_upper)
            (map_string ascii_lower) (sample_call_trace [0; 1]) (sample_tx 1) [])).
Proof.
  apply (get_or_create_from_trace_idempotent (map_string ascii_upper)
           (map_string ascii_lower) (sample_call_trace [0; 1]) (sample_tx 1) [] _
           (fst (InternalTxManager.get_or_create_from_trace (map_string ascii_upper)
                   (map_string ascii_lower) (sample_call_trace [0; 1]) (sample_tx 1) []))).
  - split; constructor.
  - reflexivity.
Defined.

Lemma created_internal_tx_has_enum_codes_witness :
  exists it,
    InternalTxMethods.is_call it = Ok true
    /\ InternalTxMethods.is_delegate_call it = Ok true.
Proof.
  assert (Hrun : exists it table',
             InternalTxManager.get_or_create_from_trace (map_string ascii_upper)
               (map_string ascii_lower) (sample_call_trace [0; 1]) (sample_tx 1) []
             = (Ok (it, true), table')).
  { eexists. eexists. vm_compute. reflexivity. }
  destruct Hrun as (it & table' & Hrun). exists it.
  exact (created_internal_tx_has_enum_codes (map_string ascii_upper)
           (map_string ascii_lower) (sample_call_trace [0; 1]) (sample_tx 1) [] table'
           it Hrun).
Defined.

(* ================================================================== *)
(** * Neighbouring traces, again *)

(** X25.  In a table where (transaction, trace address) pairs are unique,
    [get_next_trace] and [get_previous_trace] undo each other: one trace
    is answered as the next of another exactly when the other is answered
    as its previous. *)
Theorem trace_neighbours_round_trip :
  forall (objects : list InternalTx.t) (x y : InternalTx.t),
    unique_traces objects ->
    In x objects ->
    In y objects ->
    (InternalTxMethods.get_next_trace objects x = Ok (Some y)
     <-> InternalTxMethods.get_previous_trace objects y = Ok (Some x)).
Proof.
  intros objects x y Hunique Hx Hy. split.
  - now apply get_previous_trace_of_next.
  - now apply get_next_trace_of_previous.
Qed.

Lemma trace_neighbours_round_trip_witness :
  InternalTxMethods.get_previous_trace [sample_trace 1 [0]; sample_trace 2 [1]]
    (sample_trace 2 [1])
  = Ok (Some (sample_trace 1 [0])).
Proof.
  apply (trace_neighbours_round_trip [sample_trace 1 [0]; sample_trace 2 [1]]
           (sample_trace 1 [0]) (sample_trace 2 [1])).
  - unfold unique_traces. simpl.
    repeat (constructor; [simpl; intuition discriminate|]). constructor.
  - now left.
  - right. now left.
  - reflexivity.
Defined.

Lemma StronglySorted_weaken_In {A} (P Q : A -> A -> Prop) (l : list A) :
  (forall a b, In a l -> In b l -> P a b -> Q a b) ->
  StronglySorted P l -> StronglySorted Q l.
Proof.
  intros HPQ Hs. induction Hs as [|a l Hs IH Ha]; constructor.
  - apply IH. intros x y Hx Hy. apply HPQ; now right.
  - rewrite Forall_forall in *. intros b Hb.
    apply HPQ; [now left|now right|auto].
Qed.

(** X26.  As long as no trace address of the table has a component above
    9, the traces of a transaction are answered in the call-tree order of
    their paths: component by component, a path before its extensions. *)
Theorem traces_in_path_order_up_to_nine :
  forall (tx : EthereumTx.t) (objects : list InternalTx.t)
         (path : InternalTx.t -> list Z),
    (forall it, In it objects ->
                InternalTx.trace_address it
                = InternalTxManager._trace_address_to_str (path it)
                /\ Forall (fun x => 0 <= x <= 9) (path it)) ->
    StronglySorted (fun a b => compare_trace_path (path a) (path b) <> Gt)
      (InternalTxQuerySet.of_ethereum_tx_by_trace_address tx objects).
Proof.
  intros tx objects path Hpaths.
  unfold InternalTxQuerySet.of_ethereum_tx_by_trace_address.
  eapply StronglySorted_weaken_In;
    [|apply order_by_sorted;
      [apply (not_gt_total _ (laws_on _ compare_text_laws InternalTx.trace_address))
      |apply (not_gt_trans _ (laws_on _ compare_text_laws InternalTx.trace_address))]].
  intros a b Ha Hb. apply order_by_In, filter_In in Ha, Hb.
  destruct (Hpaths a (proj1 Ha)) as [Ea Fa]. destruct (Hpaths b (proj1 Hb)) as [Eb Fb].
  unfold holds. rewrite Ea, Eb, (trace_address_order_single_digits _ _ Fa Fb).
  destruct (compare_trace_path (path a) (path b)); simpl; congruence.
Qed.

Lemma traces_in_path_order_up_to_nine_witness :
  StronglySorted
    (fun a b => compare_trace_path (if InternalTx.id a =? 1 then [2] else [1; 0])
                                   (if InternalTx.id b =? 1 then [2] else [1; 0]) <> Gt)
    (InternalTxQuerySet.of_ethereum_tx_by_trace_address (sample_tx 1)
       [sample_trace 1 [2]; sample_trace 2 [1; 0]]).
Proof.
  apply (traces_in_path_order_up_to_nine (sample_tx 1)
           [sample_trace 1 [2]; sample_trace 2 [1; 0]]
           (fun it => if InternalTx.id it =? 1 then [2] else [1; 0])).
  intros it [<-|[<-|[]]]; split; try reflexivity;
    repeat (constructor; try lia).
Defined.



(* ================================================================== *)
(** * Transaction store: what a single request answers *)

Section Answered.
Variable clean_receipt_log : receipt_log -> receipt_log.

Let has_hash (h : string) (t : EthereumTx.t) : bool := (EthereumTx.tx_hash t =? h)%string.

(** X28.  A transaction that [create_or_update_from_tx_hash] answers is
    mined and stored: it has a block, and the table the call leaves holds
    it, and nothing else, under its hash. *)
Theorem create_or_update_from_tx_hash_answers_mined :
  forall (client : EthereumClient) (tx_hash : string) (db db' : Database)
         (t : EthereumTx.t),
    EthereumTxManager.create_or_update_from_tx_hash client clean_receipt_log tx_hash db
    = (Ok t, db') ->
    EthereumTx.block t <> None
    /\ filter (fun x => (EthereumTx.tx_hash x =? EthereumTx.tx_hash t)%string)
         (ethereum_txs db') = [t].
Proof.
  intros client h db db' t Hrun.
  rewrite create_or_update_from_tx_hash_eq in Hrun.
  destruct (filter _ (ethereum_txs db)) as [|t0 [|t1 l]] eqn:Ef.
  - destruct (get_transaction_receipt client h) as [r|]; [|discriminate].
    destruct (EthereumBlockManager.get_or_create_from_block_number _ _ db)
      as [[b|e] db1] eqn:Eg; [|discriminate].
    apply create_from_tx_dict_spec in Hrun.
    destruct Hrun as (txd & _ & Hh & Hb & Hex & ->). split.
    + rewrite Hb. discriminate.
    + simpl ethereum_txs. rewrite filter_app. cbn [filter].
      rewrite String.eqb_refl, Hh.
      destruct (filter _ (ethereum_txs db1)) as [|x found] eqn:Efound; [reflexivity|].
      exfalso. assert (Hx : In x (x :: found)) by now left.
      rewrite <- Efound in Hx. apply filter_In in Hx. destruct Hx as [Hx Hhash].
      assert (Htrue : existsb (fun t => (EthereumTx.tx_hash t =? Node.tx_hash txd)%string)
                        (ethereum_txs db1) = true)
        by (apply existsb_exists; eauto).
      congruence.
  - pose proof (filter_singleton_hash _ _ _ Ef) as Eh.
    destruct (EthereumTx.block t0) eqn:Eb.
    + inversion Hrun. subst t0 db'. split; [congruence|]. now rewrite Eh.
    + destruct (get_transaction_receipt client h) as [r|]; [|discriminate].
      destruct (EthereumBlockManager.get_or_create_from_block_number _ _ db)
        as [[b|e] db1] eqn:Eg; [|discriminate].
      apply get_or_create_from_block_number_frame in Eg. destruct Eg as [Etxs _].
      inversion Hrun. subst t db'. split; [discriminate|].
      simpl ethereum_txs.
      pose proof (filter_hash_map_upgrade clean_receipt_log h b r (ethereum_txs db1))
        as Hf.
      change (EthereumTx.tx_hash
                (EthereumTxManager.assign_receipt_and_block clean_receipt_log t0 b r))
        with (EthereumTx.tx_hash t0).
      rewrite Eh, Hf, Etxs, Ef.
      simpl map. unfold upgrade_row. now rewrite Eh, String.eqb_refl, Eb.
  - discriminate.
Qed.

End Answered.

Lemma create_or_update_from_tx_hash_answers_mined_witness :
  exists t,
    fst (EthereumTxManager.create_or_update_from_tx_hash sample_mined_client
           (fun log => log) "0xaa" sample_placeholder_db) = Ok t
    /\ EthereumTx.block t <> None.
Proof.
  assert (Hrun : exists t db',
             EthereumTxManager.create_or_update_from_tx_hash sample_mined_client
               (fun log => log) "0xaa" sample_placeholder_db = (Ok t, db')).
  { eexists. eexists. vm_compute. reflexivity. }
  destruct Hrun as (t & db' & Hrun). exists t. split; [now rewrite Hrun|].
  exact (proj1 (create_or_update_from_tx_hash_answers_mined (fun log => log)
                  sample_mined_client "0xaa" sample_placeholder_db db' t Hrun)).
Defined.

(* ================================================================== *)
(** * Multisig transactions: confirmations required *)



(* ================================================================== *)
(** * The key order of the specification *)

(** Where no trace address has a component of more than one digit, what
    comes before in the key order of the specification comes before in the
    order the queries sort by. *)
Lemma key_before_compare path a b :
  path_up_to_nine path a -> path_up_to_nine path b ->
  key_before path a b -> compare_internal_tx a b = Lt.
Proof.
  intros [Ea Fa] [Eb Fb] (ba & ia & bb & ib & Hba & Hia & Hbb & Hib & Hlt).
  unfold compare_internal_tx. rewrite Hba, Hia, Hbb, Hib, Ea, Eb.
  rewrite (trace_address_order_single_digits _ _ Fa Fb). simpl.
  destruct Hlt as [Hlt|[[-> Hlt]|(-> & -> & Hlt)]].
  - apply Z.compare_lt_iff in Hlt. now rewrite Hlt.
  - apply Z.compare_lt_iff in Hlt. now rewrite Z.compare_refl, Hlt.
  - now rewrite !Z.compare_refl.
Qed.

(** C1.  The current status is not the snapshot with the maximal key
    (block number, transaction index, trace address).  Of two snapshots of
    one Safe written by one transaction at the trace addresses [9] and
    [10], the snapshot at [10] has the maximal key, and both queries answer
    the snapshot at [9]: the stored trace addresses are compared as text.
    And inserting the snapshot at [9], whose key is strictly smaller,
    changes the current status of a Safe that had the snapshot at [10]
    only. *)
Theorem current_status_follows_text_order :
  compare_trace_path [9] [10] = Lt
  /\ SafeStatusQuerySet.last_for_address "0xSafe" [status_at 1 [9] 0; status_at 2 [10] 1]
     = Some (status_at 1 [9] 0)
  /\ SafeStatusQuerySet.last_for_every_address [status_at 1 [9] 0; status_at 2 [10] 1]
     = [status_at 1 [9] 0]
  /\ SafeStatusQuerySet.last_for_address "0xSafe" [status_at 2 [10] 1]
     = Some (status_at 2 [10] 1)
  /\ SafeStatusQuerySet.last_for_address "0xSafe" [status_at 2 [10] 1; status_at 1 [9] 0]
     = Some (status_at 1 [9] 0).
Proof. repeat split. Qed.

(** Where no trace address of the Safe has a component of more than one
    digit, the answer has the maximal key: the current status is a stored
    snapshot of the Safe, and no snapshot of the Safe has a key above its
    key. *)
Lemma current_status_is_max_key_up_to_nine path (self : list SafeStatus.t) s :
  In s self ->
  (forall r, In r self -> SafeStatus.address r = SafeStatus.address s ->
             path_up_to_nine path (SafeStatus.internal_tx r)) ->
  exists current,
    SafeStatusQuerySet.last_for_address (SafeStatus.address s) self = Some current
    /\ In current self
    /\ SafeStatus.address current = SafeStatus.address s
    /\ forall r, In r self -> SafeStatus.address r = SafeStatus.address s ->
                 ~ key_before path (SafeStatus.internal_tx current)
                     (SafeStatus.internal_tx r).
Proof.
  intros Hs Hpaths.
  pose proof (current_status_is_last_in_query_order self s Hs) as H. cbv zeta in H.
  destruct H as (current & Hcur & _ & Hin & Ha & Hmax & _).
  exists current. repeat split; auto. intros r Hr Har Hkey.
  apply (Hmax r Hr Har).
  rewrite (cmp_antisym _ compare_internal_tx_laws).
  rewrite (key_before_compare path _ _ (Hpaths current Hin Ha) (Hpaths r Hr Har) Hkey).
  reflexivity.
Qed.

(** C3.  The queue is not in ascending order of (block number,
    transaction index, trace address).  Of three pending [setup]
    operations of one transaction at the trace addresses [2], [9] and
    [10], the queue hands out the one at [10] first, before those at [2]
    and [9] that come before it: the stored trace addresses are compared
    as text. *)
Theorem pending_for_safes_order_is_textual :
  compare_trace_path [2] [10] = Lt
  /\ compare_trace_path [9] [10] = Lt
  /\ map (fun d => InternalTx.trace_address (InternalTxDecoded.internal_tx d))
       (InternalTxDecodedQuerySet.pending_for_safes []
          [sample_decoded 2 "setup" false; sample_decoded 9 "setup" false;
           sample_decoded 10 "setup" false])
     = [InternalTxManager._trace_address_to_str [10];
        InternalTxManager._trace_address_to_str [2];
        InternalTxManager._trace_address_to_str [9]]
  /\ map decoded_pk
       (InternalTxDecodedQuerySet.pending_for_safes []
          [sample_decoded 2 "setup" false; sample_decoded 9 "setup" false;
           sample_decoded 10 "setup" false])
     = [10; 2; 9].
Proof. repeat split. Qed.

(** Where no trace address of the table has a component of more than one
    digit, the queue is in ascending key order: no operation of it comes
    after one whose key is above its key. *)
Lemma pending_for_safes_sorted_up_to_nine path safe_contracts
    (self : list InternalTxDecoded.t) :
  (forall d, In d self -> path_up_to_nine path (InternalTxDecoded.internal_tx d)) ->
  StronglySorted
    (fun a b => ~ key_before path (InternalTxDecoded.internal_tx b)
                    (InternalTxDecoded.internal_tx a))
    (InternalTxDecodedQuerySet.pending_for_safes safe_contracts self).
Proof.
  intros Hpaths.
  destruct (pending_for_safes_exact_in_query_order safe_contracts self)
    as (Hmem & _ & Hsorted).
  eapply StronglySorted_weaken_In; [|exact Hsorted].
  intros a b Ha Hb Hle Hkey. apply Hle.
  apply Hmem in Ha. apply Hmem in Hb.
  rewrite (cmp_antisym _ compare_internal_tx_laws).
  rewrite (key_before_compare path _ _ (Hpaths b (proj1 Hb)) (Hpaths a (proj1 Ha)) Hkey).
  reflexivity.
Qed.

(* ================================================================== *)
(** * Safe status: a new status *)

Lemma hd_error_order_by_strict_least {R} (leb : R -> R -> bool)
    (leb_total : forall a b, leb a b = true \/ leb b a = true)
    (leb_trans : forall a b c, leb a b = true -> leb b c = true -> leb a c = true)
    (l : list R) (n : R) :
  In n l ->
  (forall x, In x l -> x = n \/ leb x n = false) ->
  hd_error (order_by leb l) = Some n.
Proof.
  intros Hin Hleast.
  destruct (hd_error (order_by leb l)) as [h|] eqn:Eh.
  - destruct (hd_error_order_by_least leb leb_total leb_trans l h Eh) as [Hh Hall].
    destruct (Hleast h Hh) as [->|Hfalse]; auto.
    rewrite (Hall n Hin) in Hfalse. discriminate.
  - exfalso. apply (order_by_In leb n l) in Hin.
    destruct (order_by leb l); [destruct Hin|discriminate].
Qed.

(** X16.  [store_new] adds to the history and never writes over it.  With
    an internal transaction that no status has yet, in a later block than
    the Safe's stored statuses, or later in their block, or later in their
    transaction by its trace path, and as long as no trace address
    involved has a component of more than one digit, the new status is
    appended, becomes the Safe's current status, and the current status of
    every other Safe stays what it was. *)
Theorem store_new_becomes_current :
  forall (path : InternalTx.t -> list Z) (self : SafeStatus.t)
         (internal_tx : InternalTx.t) (table : list SafeStatus.t),
    ~ In (InternalTx.id internal_tx) (map status_pk table) ->
    path_up_to_nine path internal_tx ->
    (forall s, In s table ->
               SafeStatus.address s = SafeStatus.address self ->
               path_up_to_nine path (SafeStatus.internal_tx s)
               /\ key_before path (SafeStatus.internal_tx s) internal_tx) ->
    exists self',
      SafeStatusMethods.store_new self internal_tx table = (Ok self', (table ++ [self'])%list)
      /\ self' = SafeStatus.mk internal_tx (SafeStatus.address self)
                   (SafeStatus.owners self) (SafeStatus.threshold self)
                   (SafeStatus.nonce self) (SafeStatus.master_copy self)
      /\ SafeStatusQuerySet.last_for_address (SafeStatus.address self)
           (table ++ [self'])%list = Some self'
      /\ forall address,
           address <> SafeStatus.address self ->
           SafeStatusQuerySet.last_for_address address (table ++ [self'])%list
           = SafeStatusQuerySet.last_for_address address table.
Proof.
  intros path self internal_tx table Hfresh Hpath Hnewest.
  unfold SafeStatusMethods.store_new, bind, SafeStatusMethods.save, ret.
  cbn [SafeStatus.internal_tx].
  assert (Hex : existsb (fun s => InternalTx.id (SafeStatus.internal_tx s)
                                  =? InternalTx.id internal_tx) table = false).
  { destruct (existsb _ table) eqn:Ex; auto. exfalso. apply Hfresh.
    apply existsb_exists in Ex. destruct Ex as (s & Hs & Hpk).
    apply Z.eqb_eq in Hpk. apply in_map_iff. exists s. auto. }
  rewrite Hex. eexists. split; [reflexivity|]. split; [reflexivity|].
  set (self' := SafeStatus.mk internal_tx (SafeStatus.address self)
                  (SafeStatus.owners self) (SafeStatus.threshold self)
                  (SafeStatus.nonce self) (SafeStatus.master_copy self)).
  split.
  - rewrite last_for_address_hd. unfold SafeStatusQuerySet.sorted_by_internal_tx.
    apply (hd_error_order_by_strict_least _ status_leb_total status_leb_trans).
    + apply filter_In. split; [apply in_or_app; right; now left|].
      apply String.eqb_refl.
    + intros x Hx. apply filter_In in Hx. destruct Hx as [Hx Ha].
      apply String.eqb_eq in Ha. apply in_app_or in Hx.
      destruct Hx as [Hx|[<-|[]]]; [right|now left].
      rewrite (compare_by_internal_tx_same x self') by exact Ha.
      rewrite (cmp_antisym _ compare_internal_tx_laws).
      cbn [SafeStatus.internal_tx self'].
      destruct (Hnewest x Hx Ha) as [Hpx Hkey].
      rewrite (key_before_compare path _ _ Hpx Hpath Hkey). reflexivity.
  - intros address Hother. rewrite !last_for_address_hd. rewrite filter_app.
    cbn [filter SafeStatus.address self'].
    destruct (SafeStatus.address self =? address)%string eqn:E.
    + apply String.eqb_eq in E. congruence.
    + now rewrite app_nil_r.
Qed.

Lemma store_new_becomes_current_witness :
  exists current,
    SafeStatusQuerySet.last_for_address "0xSafe"
      (snd (SafeStatusMethods.store_new
              (SafeStatus.mk (sample_internal_tx 2 7 3 "1,0") "0xSafe" ["0xA"] 1 2 "0xM")
              (sample_internal_tx 5 8 0 "0") status_rows))
    = Some current
    /\ SafeStatus.nonce current = 2.
Proof.
  destruct (store_new_becomes_current
              (fun it => if InternalTx.id it =? 2 then [1; 0] else [0])
              (SafeStatus.mk (sample_internal_tx 2 7 3 "1,0") "0xSafe" ["0xA"] 1 2 "0xM")
              (sample_internal_tx 5 8 0 "0") status_rows)
    as (self' & Hrun & Hself & Hcurrent & _).
  - simpl. intuition discriminate.
  - split; [reflexivity|]. simpl. repeat constructor; lia.
  - intros s Hs Ha. simpl in Hs.
    destruct Hs as [<-|[<-|[<-|[<-|[]]]]]; try discriminate Ha;
      (split; [split; [reflexivity|simpl; repeat constructor; lia]|]);
      unfold key_before; simpl; do 4 eexists;
      (repeat split; try reflexivity); left; lia.
  - rewrite Hrun. simpl snd. exists self'. split; [exact Hcurrent|].
    rewrite Hself. reflexivity.
Defined.

(** Outside that bound the new status need not become current: stored at
    the trace address [10] after a status at [9] of the same transaction,
    it is appended and the status at [9] stays the current one. *)
Remark store_new_at_ten_after_nine_is_not_current :
  SafeStatusQuerySet.last_for_address "0xSafe"
    (snd (SafeStatusMethods.store_new (status_at 1 [9] 1)
            (sample_internal_tx 2 5 0 (InternalTxManager._trace_address_to_str [10]))
            [status_at 1 [9] 0]))
  = Some (status_at 1 [9] 0).
Proof. reflexivity. Qed.
